(** * A shallow embedding of [scripts/fetch.py]

    The documentation fetcher is a sequential Python script.  Its pure
    string functions are embedded as functions on [str]; the part that
    talks to the network, the clock and the file system is embedded by
    explicit state passing over a [World].

    Python's [str] is a sequence of code points.  Here a character is an
    [ascii], so the development covers text whose code points are below
    256; the character classes below ([is_space], [is_word]) are Python's
    classes restricted to that range. *)

From Stdlib Require Import Ascii String DecimalString QArith Lqa.
From stdpp Require Import base list gmap sorting.

Local Open Scope list_scope.
Local Open Scope nat_scope.

#[local] Set Warnings "-clear-no-such-hyp".

(** ** Strings *)

Definition str := list ascii.

(** A literal of the source, written with Rocq's string syntax. *)
Definition lit (s : string) : str := list_ascii_of_string s.

Definition chr_eqb (a b : ascii) : bool := Ascii.eqb a b.

Definition code (c : ascii) : N := N_of_ascii c.

(** [str.isspace] on one character: TAB..CR, FS..US, space, NEL, NBSP. *)
Definition is_space (c : ascii) : bool :=
  let n := code c in
  ((9 <=? n) && (n <=? 13) || (28 <=? n) && (n <=? 31)
   || (n =? 32) || (n =? 133) || (n =? 160))%N.

(** [s.lstrip(...)], [s.rstrip(...)] and [s.strip(...)], for the set of
    characters accepted by [p]. *)
Fixpoint lstrip_by (p : ascii -> bool) (s : str) : str :=
  match s with
  | c :: t => if p c then lstrip_by p t else s
  | [] => []
  end.

Definition rstrip_by (p : ascii -> bool) (s : str) : str :=
  rev (lstrip_by p (rev s)).

Definition strip_by (p : ascii -> bool) (s : str) : str :=
  rstrip_by p (lstrip_by p s).

Definition py_strip (s : str) : str := strip_by is_space s.

Definition is_chr (c : ascii) : ascii -> bool := chr_eqb c.

(** [s.startswith(p)] and [s.endswith(p)]. *)
Fixpoint startswith (p s : str) : bool :=
  match p, s with
  | [], _ => true
  | a :: p', b :: s' => chr_eqb a b && startswith p' s'
  | _ :: _, [] => false
  end.

Definition endswith (p s : str) : bool := startswith (rev p) (rev s).

(** [p in s]. *)
Fixpoint contains (p s : str) : bool :=
  startswith p s ||
  match s with
  | [] => false
  | _ :: t => contains p t
  end.

(** [s[:-n]] for a positive literal [n]. *)
Definition drop_last (n : nat) (s : str) : str := take (length s - n) s.

(** [s.split(m, 1)[1]] when [m in s]: what follows the first occurrence. *)
Fixpoint after_first (m s : str) : option str :=
  if startswith m s then Some (drop (length m) s)
  else match s with
       | [] => None
       | _ :: t => after_first m t
       end.

(** [s.split(c)] for a one-character separator: never the empty list. *)
Fixpoint split_on (c : ascii) (s : str) : list str :=
  match s with
  | [] => [[]]
  | x :: t =>
      if chr_eqb x c then [] :: split_on c t
      else match split_on c t with
           | h :: r => (x :: h) :: r
           | [] => [[x]]
           end
  end.

(** [parts[-1]] of a list that [split] returned. *)
Definition last_part (l : list str) : str := List.last l [].

(** [sep.join(parts)]. *)
Fixpoint join (sep : str) (l : list str) : str :=
  match l with
  | [] => []
  | [x] => x
  | x :: r => x ++ sep ++ join sep r
  end.

(** [s.replace(c, r)] for a one-character [c]. *)
Fixpoint replace_chr (c : ascii) (r : str) (s : str) : str :=
  match s with
  | [] => []
  | x :: t => (if chr_eqb x c then r else [x]) ++ replace_chr c r t
  end.

(** ** The manifest *)

(** One entry of the manifest's ["files"] dictionary. *)
Record entry := Entry {
  original_url : str;
  hash : str;
  last_updated : str
}.

(** ["fetch_metadata"]. *)
Record metadata := Metadata {
  successful : nat;
  failed : nat;
  failed_pages : list str
}.

(** The manifest dictionary that the script builds and writes: the keys
    it sets. *)
Record manifest := Manifest {
  m_files : option (gmap str entry);
  m_fetch_metadata : option metadata;
  m_last_updated : option str;
  m_description : option str
}.

(** What [json.loads] can return: the manifest read from disk is any
    JSON value.  A number is kept as its literal. *)
#[local] Set Warnings "-register-all".
Inductive json :=
| JNull
| JBool (b : bool)
| JNum (literal : str)
| JStr (s : str)
| JList (items : list json)
| JDict (members : gmap str json).

(** ** The library functions the script calls

    [urlparse], [int], [hashlib.sha256], [json] and [datetime.now] are not
    code of the script; they are taken as an interface.
    [urlparse_path u] is [urlparse(u).path], [urlparse_base u] is the
    scheme and the host joined by [://], [py_int s] is [int(s)];
    [json_loads] gives the JSON value that a text holds, [json_dumps]
    the text of a manifest that the script built.  Those that can raise
    return an [option].
    [recursion_limit] is the depth at which the interpreter raises
    [RecursionError]. *)
Class PyLib := {
  urlparse_path : str -> option str;
  urlparse_base : str -> option str;
  py_int : str -> option Z;
  sha256_hex : str -> str;
  isoformat_now : nat -> str;
  json_loads : str -> option json;
  json_dumps : manifest -> str;
  recursion_limit : nat
}.

(** ** Constants of the script *)

Definition AGENT_SDK_PATH_MARKERS : list str :=
  [lit "/docs/en/agent-sdk/"; lit "/en/docs/agent-sdk/"; lit "/agent-sdk/"].

Definition MANIFEST_FILE : str := lit "docs_manifest.json".
Definition SKILL_FILE : str := lit "SKILL.md".
Definition CUSTOM_FILES : gset str := {[ lit "openrouter-support.md" ]}.

Definition MAX_RETRIES : nat := 3.
Definition RETRY_DELAY : Z := 2.
Definition MAX_RETRY_DELAY : Z := 30.

(** ** [url_to_safe_filename] and [normalize_doc_url] *)

(** The [for marker in AGENT_SDK_PATH_MARKERS] loop with its [break]. *)
Fixpoint slug_of_markers (markers : list str) (path : str) : option str :=
  match markers with
  | [] => None
  | marker :: rest =>
      if contains marker path then after_first marker path
      else slug_of_markers rest path
  end.

(** Truthiness of an [Optional[str]]: [None] and [''] are false. *)
Definition truthy (o : option str) : bool :=
  match o with
  | Some (_ :: _) => true
  | _ => false
  end.

(** Lines 121-139: the slug of a path. *)
Definition slug_of_path (path : str) : str :=
  let path := rstrip_by (is_chr "/") path in
  let path :=
    if endswith (lit ".md") path then drop_last 3 path
    else if endswith (lit ".html") path then drop_last 5 path
    else path in
  let slug := slug_of_markers AGENT_SDK_PATH_MARKERS path in
  let slug : str :=
    if truthy slug then default [] slug
    else last_part (split_on "/" (strip_by (is_chr "/") path)) in
  let slug :=
    match slug with
    | _ :: _ => strip_by (is_chr "/") slug
    | [] => lit "index"
    end in
  match slug with
  | [] => lit "index"
  | _ :: _ => slug
  end.

(** Lines 121-136: the slug that the markers or the last part of the
    path give, before the lines that put ["index"] for an empty one. *)
Definition found_slug (path : str) : str :=
  let path := rstrip_by (is_chr "/") path in
  let path :=
    if endswith (lit ".md") path then drop_last 3 path
    else if endswith (lit ".html") path then drop_last 5 path
    else path in
  let slug := slug_of_markers AGENT_SDK_PATH_MARKERS path in
  if truthy slug then default [] slug
  else last_part (split_on "/" (strip_by (is_chr "/") path)).

(** Lines 141-144. *)
Definition safe_name_of_slug (slug : str) : str :=
  let safe_name := replace_chr "/" (lit "__") slug in
  if endswith (lit ".md") safe_name then safe_name
  else safe_name ++ lit ".md".

Definition filename_of_path (path : str) : str :=
  safe_name_of_slug (slug_of_path path).

Definition url_to_safe_filename `{PyLib} (url_or_path : str) : option str :=
  path ← (if contains (lit "//") url_or_path
          then urlparse_path url_or_path
          else Some url_or_path);
  Some (filename_of_path path).

Definition normalize_doc_url (url : str) : str * str :=
  let url := py_strip url in
  let url := if endswith (lit "/") url then drop_last 1 url else url in
  if endswith (lit ".md") url then (drop_last 3 url, url)
  else if endswith (lit ".html") url then
    let original_url := drop_last 5 url in
    (original_url, original_url ++ lit ".md")
  else (url, url ++ lit ".md").


(** ** Regular expressions

    The patterns of the script use a small part of Python's [re]:
    literals, character classes, greedy and lazy repetition of one
    character class, optional groups, alternation, capture groups and the
    anchors.  [rmatch] is a backtracking matcher with the priorities of
    [re]: a greedy repetition tries the longest run first, a lazy one the
    shortest, an alternation its left branch first. *)

Inductive regex :=
| Eps
| Chr (c : ascii)
| Str (s : str)
| Cls (p : ascii -> bool)
| Rep (greedy : bool) (lo : nat) (p : ascii -> bool)
| Seq (r1 r2 : regex)
| Alt (r1 r2 : regex)
| Opt (r : regex)
| Grp (n : nat) (r : regex)
| Bol (multiline : bool)
| Eol (multiline : bool).

Declare Scope regex_scope.
Delimit Scope regex_scope with re.
Bind Scope regex_scope with regex.
Infix ">>>" := Seq (at level 60, right associativity) : regex_scope.

(** Character classes.  [\s] and [\w] are the Unicode classes of a [str]
    pattern: [str.isspace], and [str.isalnum] or an underscore. *)
Definition is_nl (c : ascii) : bool := chr_eqb c "010".
Definition any_chr (c : ascii) : bool := true.
Definition not_nl (c : ascii) : bool := negb (is_nl c).
Definition not_chr (x : ascii) (c : ascii) : bool := negb (chr_eqb c x).
Definition in_range (lo hi : N) (c : ascii) : bool :=
  ((lo <=? code c) && (code c <=? hi))%N.
Definition is_upper (c : ascii) : bool := in_range 65 90 c.
Definition is_alpha (c : ascii) : bool := in_range 65 90 c || in_range 97 122 c.
Definition is_word (c : ascii) : bool :=
  in_range 48 57 c || in_range 65 90 c || in_range 97 122 c || chr_eqb c "_"
  || in_range 170 170 c || in_range 178 179 c || in_range 181 181 c
  || in_range 185 186 c || in_range 188 190 c || in_range 192 214 c
  || in_range 216 246 c || in_range 248 255 c.
(** The double quote, and a literal closed by one. *)
Definition dq : ascii := "034".

Definition is_quote (c : ascii) : bool := chr_eqb c "'" || chr_eqb c dq.

(** The state of a match: the character before the current position
    ([None] at the start of the text), the text still ahead, and the
    groups captured so far, the latest first. *)
Record mstate := MState {
  prev : option ascii;
  rest : str;
  grps : list (nat * str)
}.

Definition orelse {A} (a b : option A) : option A :=
  match a with
  | Some x => Some x
  | None => b
  end.

(** [p{lo,}] and [p{lo,}?] from the current position. *)
Fixpoint rep (greedy : bool) (p : ascii -> bool) (lo : nat)
    (pv : option ascii) (s : str) (g : list (nat * str))
    (k : mstate -> option mstate) {struct s} : option mstate :=
  match lo with
  | S lo' =>
      match s with
      | x :: t => if p x then rep greedy p lo' (Some x) t g k else None
      | [] => None
      end
  | O =>
      let more :=
        match s with
        | x :: t => if p x then rep greedy p O (Some x) t g k else None
        | [] => None
        end in
      if greedy then orelse more (k (MState pv s g))
      else orelse (k (MState pv s g)) more
  end.

Definition at_bol (multiline : bool) (st : mstate) : bool :=
  match prev st with
  | None => true
  | Some c => multiline && is_nl c
  end.

Definition at_eol (multiline : bool) (st : mstate) : bool :=
  match rest st with
  | [] => true
  | c :: t => is_nl c && (multiline || match t with [] => true | _ => false end)
  end.

(** The state after the characters [w] at the front of the text. *)
Definition advance (w : str) (st : mstate) : mstate :=
  MState (match w with [] => prev st | _ => Some (List.last w "000"%char) end)
         (drop (length w) (rest st)) (grps st).

Fixpoint rmatch (r : regex) (st : mstate) (k : mstate -> option mstate)
    : option mstate :=
  match r with
  | Eps => k st
  | Chr c =>
      match rest st with
      | x :: t => if chr_eqb x c then k (MState (Some x) t (grps st)) else None
      | [] => None
      end
  | Str s => if startswith s (rest st) then k (advance s st) else None
  | Cls p =>
      match rest st with
      | x :: t => if p x then k (MState (Some x) t (grps st)) else None
      | [] => None
      end
  | Rep greedy lo p => rep greedy p lo (prev st) (rest st) (grps st) k
  | Seq r1 r2 => rmatch r1 st (fun st1 => rmatch r2 st1 k)
  | Alt r1 r2 => orelse (rmatch r1 st k) (rmatch r2 st k)
  | Opt r1 => orelse (rmatch r1 st k) (k st)
  | Grp n r1 =>
      rmatch r1 st (fun st1 =>
        let text := take (length (rest st) - length (rest st1)) (rest st) in
        k (MState (prev st1) (rest st1) ((n, text) :: grps st1)))
  | Bol m => if at_bol m st then k st else None
  | Eol m => if at_eol m st then k st else None
  end.

(** [m.group(n)]. *)
Fixpoint group_in (n : nat) (g : list (nat * str)) : str :=
  match g with
  | [] => []
  | (i, text) :: g' => if Nat.eqb i n then text else group_in n g'
  end.

Definition group (n : nat) (st : mstate) : str := group_in n (grps st).

(** A match of [r] that starts where the text [s] starts, [pv] being the
    character before. *)
Definition match_at (r : regex) (pv : option ascii) (s : str) : option mstate :=
  rmatch r (MState pv s []) Some.

(** [re.match(r, s)] as a truth value. *)
Definition re_match (r : regex) (s : str) : bool :=
  match match_at r None s with
  | Some _ => true
  | None => false
  end.

(** [re.sub(r, repl, s)]: the leftmost matches, none overlapping another,
    are replaced.  [skip] counts the characters of the current match that
    are still to be passed over.  The patterns of the script match no empty
    string; an empty match is replaced and the scan moves on by one
    character. *)
Fixpoint sub_from (r : regex) (repl : mstate -> str)
    (pv : option ascii) (skip : nat) (s : str) : str :=
  match skip with
  | S n =>
      match s with
      | x :: t => sub_from r repl (Some x) n t
      | [] => []
      end
  | O =>
      match match_at r pv s with
      | Some st =>
          repl st ++
          match length s - length (rest st), s with
          | S n, x :: t => sub_from r repl (Some x) n t
          | O, x :: t => x :: sub_from r repl (Some x) O t
          | _, [] => []
          end
      | None =>
          match s with
          | x :: t => x :: sub_from r repl (Some x) O t
          | [] => []
          end
      end
  end.

Definition re_sub (r : regex) (repl : mstate -> str) (s : str) : str :=
  sub_from r repl None O s.

(** [re.findall(r, s)], each match given by its final state. *)
Fixpoint findall_from (r : regex) (pv : option ascii) (skip : nat) (s : str)
    : list mstate :=
  match skip with
  | S n =>
      match s with
      | x :: t => findall_from r (Some x) n t
      | [] => []
      end
  | O =>
      match match_at r pv s with
      | Some st =>
          st ::
          match length s - length (rest st), s with
          | S n, x :: t => findall_from r (Some x) n t
          | O, x :: t => findall_from r (Some x) O t
          | _, [] => []
          end
      | None =>
          match s with
          | x :: t => findall_from r (Some x) O t
          | [] => []
          end
      end
  end.

Definition re_findall (r : regex) (s : str) : list mstate :=
  findall_from r None O s.

(** ** [clean_mdx_content] *)

Local Open Scope regex_scope.

(** [^export\s+const\s+\w+\s*=] *)
Definition export_const_re : regex :=
  Bol false >>> Str (lit "export") >>> Rep true 1 is_space >>>
  Str (lit "const") >>> Rep true 1 is_space >>> Rep true 1 is_word >>>
  Rep true 0 is_space >>> Chr "=".

(** [^\};\s*$] *)
Definition export_end_re : regex :=
  Bol false >>> Str (lit "};") >>> Rep true 0 is_space >>> Eol false.

(** The two nested [while] loops of [remove_export_components]:
    [skipping] is true inside the inner loop. *)
Fixpoint remove_export_lines (skipping : bool) (lines : list str) : list str :=
  match lines with
  | [] => []
  | line :: more =>
      if skipping then
        if re_match export_end_re line then remove_export_lines false more
        else remove_export_lines true more
      else if re_match export_const_re line then remove_export_lines true more
      else line :: remove_export_lines false more
  end.

Definition nl : str := ["010"%char].

Definition remove_export_components (text : str) : str :=
  join nl (remove_export_lines false (split_on "010" text)).

(** [<X>\s*(.*?)\s*</X>] with [re.DOTALL], for a tag name [X]. *)
Definition block_re (tag : string) : regex :=
  Str (lit "<" ++ lit tag ++ lit ">") >>> Rep true 0 is_space >>>
  Grp 1 (Rep false 0 any_chr) >>> Rep true 0 is_space >>>
  Str (lit "</" ++ lit tag ++ lit ">").

(** The template [> **X:** \1]. *)
Definition blockquote (tag : string) (m : mstate) : str :=
  lit "> **" ++ lit tag ++ lit ":** " ++ group 1 m.

(** [</?X.*?>] for a tag name [X]. *)
Definition wrapper_re (tag : string) : regex :=
  Chr "<" >>> Opt (Chr "/") >>> Str (lit tag) >>> Rep false 0 not_nl >>> Chr ">".

Definition removed (m : mstate) : str := [].

(** [<Tab\s+title=Q([^Q]+)Q>], where [Q] is the double quote. *)
Definition tab_re : regex :=
  Str (lit "<Tab") >>> Rep true 1 is_space >>> Str (lit "title=") >>> Chr dq >>>
  Grp 1 (Rep true 1 (not_chr dq)) >>> Chr dq >>> Chr ">".

(** The template [\n#### \1\n]. *)
Definition tab_heading (m : mstate) : str :=
  nl ++ lit "#### " ++ group 1 m ++ nl.

(** [<Card\s+title=Q([^Q]+)Q\s+icon=Q[^Q]*Q\s+href=Q([^Q]+)Q>\s*(.*?)\s*</Card>]
    with [re.DOTALL]. *)
Definition card_re : regex :=
  Str (lit "<Card") >>> Rep true 1 is_space >>> Str (lit "title=") >>> Chr dq >>>
  Grp 1 (Rep true 1 (not_chr dq)) >>> Chr dq >>> Rep true 1 is_space >>>
  Str (lit "icon=") >>> Chr dq >>> Rep true 0 (not_chr dq) >>> Chr dq >>>
  Rep true 1 is_space >>> Str (lit "href=") >>> Chr dq >>>
  Grp 2 (Rep true 1 (not_chr dq)) >>> Chr dq >>> Chr ">" >>>
  Rep true 0 is_space >>> Grp 3 (Rep false 0 any_chr) >>>
  Rep true 0 is_space >>> Str (lit "</Card>").

Definition convert_card (m : mstate) : str :=
  let title := group 1 m in
  let href := group 2 m in
  let body := py_strip (group 3 m) in
  let parts := [lit "- **" ++ title ++ lit "**"] in
  let parts :=
    match href with
    | [] => parts
    | _ :: _ => parts ++ [lit "  - " ++ href]
    end in
  let parts :=
    match body with
    | [] => parts
    | _ :: _ =>
        parts ++ map (fun line => lit "  - " ++ py_strip line) (split_on "010" body)
    end in
  join nl parts.

(** [<Step\s+title=Q([^Q]+)Q>\s*(.*?)\s*</Step>] with [re.DOTALL]. *)
Definition step_re : regex :=
  Str (lit "<Step") >>> Rep true 1 is_space >>> Str (lit "title=") >>> Chr dq >>>
  Grp 1 (Rep true 1 (not_chr dq)) >>> Chr dq >>> Chr ">" >>>
  Rep true 0 is_space >>> Grp 2 (Rep false 0 any_chr) >>>
  Rep true 0 is_space >>> Str (lit "</Step>").

(** [str(idx)] for a list index. *)
Definition str_of_nat (n : nat) : str :=
  lit (DecimalString.NilEmpty.string_of_uint (Nat.to_uint n)).

(** The lines that one step contributes, [idx] counted from 1. *)
Definition step_lines (idx : nat) (title body : str) : list str :=
  (str_of_nat idx ++ lit ". **" ++ title ++ lit "**")
    :: map (fun line => lit "   " ++ line) (split_on "010" (py_strip body))
    ++ [[]].

Fixpoint steps_lines (idx : nat) (steps : list (str * str)) : list str :=
  match steps with
  | [] => []
  | (title, body) :: more => step_lines idx title body ++ steps_lines (S idx) more
  end.

Definition convert_steps (m : mstate) : str :=
  let steps_content := group 1 m in
  let steps :=
    map (fun st => (group 1 st, group 2 st)) (re_findall step_re steps_content) in
  match steps with
  | [] => []
  | _ :: _ => join nl (steps_lines 1 steps)
  end.

(** [<[A-Z][a-zA-Z]*(?:\s+[^>]{0,})?\s*/>]; the source writes the
    repetition [{0,}] as a star. *)
Definition self_closing_re : regex :=
  Chr "<" >>> Cls is_upper >>> Rep true 0 is_alpha >>>
  Opt (Rep true 1 is_space >>> Rep true 0 (not_chr ">")) >>>
  Rep true 0 is_space >>> Str (lit "/>").

(** [^import\s+.*?['Q];?\s*$] with [re.MULTILINE]. *)
Definition import_re : regex :=
  Bol true >>> Str (lit "import") >>> Rep true 1 is_space >>>
  Rep false 0 not_nl >>> Cls is_quote >>> Opt (Chr ";") >>>
  Rep true 0 is_space >>> Eol true.

(** [\n{4,}] *)
Definition blank_lines_re : regex := Rep true 4 is_nl.

Definition three_newlines (m : mstate) : str := nl ++ nl ++ nl.

(** The rewriting steps, in the order of the source. *)
Definition clean_steps : list (str -> str) :=
  [ remove_export_components;
    re_sub (block_re "Warning") (blockquote "Warning");
    re_sub (block_re "Note") (blockquote "Note");
    re_sub (block_re "Tip") (blockquote "Tip");
    re_sub (wrapper_re "Tabs") removed;
    re_sub tab_re tab_heading;
    re_sub (Str (lit "</Tab>")) removed;
    re_sub (wrapper_re "CodeGroup") removed;
    re_sub (wrapper_re "CardGroup") removed;
    re_sub card_re convert_card;
    re_sub (block_re "Steps") convert_steps;
    re_sub self_closing_re removed;
    re_sub import_re removed;
    re_sub blank_lines_re three_newlines ].

Definition clean_mdx_content (content : str) : str :=
  py_strip (fold_left (fun c step => step c) clean_steps content).

Local Close Scope regex_scope.

(** *** What the claims say of [clean_mdx_content] *)

(** The character before the position that follows [a]. *)
Definition prev_after (pv : option ascii) (a : str) : option ascii :=
  match a with
  | [] => pv
  | _ :: _ => Some (List.last a "000"%char)
  end.

(** No match of [r] starts inside [a], whatever follows being [b]. *)
Fixpoint quiet_prefix (r : regex) (pv : option ascii) (a b : str) : Prop :=
  match a with
  | [] => True
  | c :: a' => match_at r pv (c :: a' ++ b) = None /\ quiet_prefix r (Some c) a' b
  end.

(** A pattern that can only match where a tag opens. *)
Definition tag_led (r : regex) : Prop :=
  (forall pv, match_at r pv [] = None)
  /\ forall pv c s, c <> "<"%char -> match_at r pv (c :: s) = None.

(** The number of characters accepted by [p] that [s] starts with. *)
Fixpoint prun (p : ascii -> bool) (s : str) : nat :=
  match s with
  | c :: t => if p c then S (prun p t) else 0
  | [] => 0
  end.

(** The number of newlines that [s] starts with. *)
Definition nl_run (s : str) : nat := prun is_nl s.

(** No run of newlines in [s] is longer than three. *)
Fixpoint short_runs (s : str) : Prop :=
  nl_run s <= 3
  /\ match s with
     | [] => True
     | _ :: t => short_runs t
     end.

Definition four_newlines : str := nl ++ nl ++ nl ++ nl.

(** No line of [s] starts with [kw]; [at_start] tells whether [s] begins
    at the start of a line. *)
Fixpoint no_line_starts (kw : str) (at_start : bool) (s : str) : Prop :=
  (at_start = true -> startswith kw s = false)
  /\ match s with
     | [] => True
     | c :: t => no_line_starts kw (is_nl c) t
     end.

(** Text that the rewriting steps leave alone: no tag opens in it, none
    of its lines starts with [export] or [import], and it has no run of
    four newlines. *)
Definition plain (s : str) : Prop :=
  ("<"%char ∉ s)
  /\ no_line_starts (lit "export") true s
  /\ no_line_starts (lit "import") true s
  /\ contains four_newlines s = false.

(** ** [validate_markdown_content] *)

(** The exceptions that the script raises or meets. *)
Inductive exn :=
| ValueError
| RequestException
| FetchFailed
| TypeError
| RecursionError
| ParseError
| AttributeError
| OSError.

Inductive result (A : Type) :=
| Ok (a : A)
| Raise (e : exn).
Arguments Ok {A} a.
Arguments Raise {A} e.

Definition markdown_indicators : list str :=
  [lit "# "; lit "## "; lit "### "; lit "```"; lit "- "; lit "* "; lit "1. ";
   lit "["; lit "**"; lit "_"; lit "> "].

(** The inner [for indicator in markdown_indicators] loop with its
    [break]: whether the line counts. *)
Definition line_counts (line : str) : bool :=
  existsb (fun indicator =>
             startswith indicator (py_strip line) || contains indicator line)
          markdown_indicators.

Definition indicator_count (lines : list str) : nat :=
  length (List.filter line_counts (take 50 lines)).

Definition validate_markdown_content (content : str) : result unit :=
  if match content with [] => true | _ => false end
     || startswith (lit "<!DOCTYPE") content
     || contains (lit "<html") (take 100 content)
  then Raise ValueError
  else if length (py_strip content) <? 50 then Raise ValueError
  else if indicator_count (split_on "010" content) <? 3 then Raise ValueError
  else Ok tt.

(** The condition of the claim on a line, in the words of the
    specification: the line contains a markdown indicator. *)
Definition contains_indicator (line : str) : bool :=
  existsb (fun indicator => contains indicator line) markdown_indicators.

(** ** The world of the script

    What the script meets outside itself: the outcome of each HTTP
    request in the order the requests are made, the numbers that
    [random.random()] draws, the clock, the environment variables, the
    files of the references directory and [SKILL.md]; [others] has the
    paths outside the references directory that exist, other than
    [SKILL.md], each told by its spelling and marked [true] when it is a
    directory.  [trace] records the requests, the sleeps and the changes
    to the files of the references directory in the order they happen.
    Writing a file of the references directory always succeeds, and so
    does deleting one that exists. *)

(** The parsed body of a sitemap: the lowered tag of the root, the texts
    of the [loc] elements in the sitemap namespace, and of those in no
    namespace. *)
Record xml_doc := XmlDoc {
  root_tag : str;
  ns_locs : list str;
  plain_locs : list str
}.

Record response := Response {
  status_code : Z;
  retry_after : option str;
  text : str;
  xml : option xml_doc
}.

Inductive outcome :=
| RequestFails
| Responds (r : response).

Inductive event :=
| EvGet (url : str)
| EvSleep (seconds : Q)
| EvWrite (filename content : str)
| EvUnlink (filename : str).

Record World := MkWorld {
  script : list outcome;
  randoms : list Q;
  clock : nat;
  env_llms : option str;
  env_sitemap : option str;
  others : gmap str bool;
  refs : gmap str str;
  skill_md : option str;
  trace : list event
}.

(** A computation of the script: it changes the world and returns or
    raises. *)
Definition M (A : Type) : Type := World -> result A * World.

Definition ret {A} (a : A) : M A := fun w => (Ok a, w).

Definition raise {A} (e : exn) : M A := fun w => (Raise e, w).

Definition bind {A B} (m : M A) (k : A -> M B) : M B := fun w =>
  match m w with
  | (Ok a, w1) => k a w1
  | (Raise e, w1) => (Raise e, w1)
  end.

(** [try: m except: handler]. *)
Definition catch {A} (m : M A) (handler : exn -> M A) : M A := fun w =>
  match m w with
  | (Ok a, w1) => (Ok a, w1)
  | (Raise e, w1) => handler e w1
  end.

Declare Scope M_scope.
Delimit Scope M_scope with M.
Notation "'let!' x ':=' m 'in' k" := (bind m (fun x => k))
  (at level 10, x pattern, m at level 100, k at level 200) : M_scope.
Notation "m '>>' k" := (bind m (fun _ => k))
  (at level 100, k at level 200, right associativity) : M_scope.

Definition of_result {A} (r : result A) : M A := fun w => (r, w).

Definition of_option {A} (e : exn) (o : option A) : M A :=
  match o with
  | Some a => ret a
  | None => raise e
  end.

Definition log (e : event) (w : World) : World :=
  MkWorld (script w) (randoms w) (clock w) (env_llms w) (env_sitemap w) (others w)
          (refs w) (skill_md w) (trace w ++ [e]).

(** [session.get(url, ...)]: the next outcome of the script; a script that
    has run out answers like a connection that fails. *)
Definition session_get (url : str) : M response := fun w =>
  let w := log (EvGet url) w in
  match script w with
  | Responds r :: more =>
      (Ok r, MkWorld more (randoms w) (clock w) (env_llms w) (env_sitemap w) (others w)
                     (refs w) (skill_md w) (trace w))
  | RequestFails :: more =>
      (Raise RequestException,
       MkWorld more (randoms w) (clock w) (env_llms w) (env_sitemap w) (others w)
               (refs w) (skill_md w) (trace w))
  | [] => (Raise RequestException, w)
  end.

(** [response.raise_for_status()]. *)
Definition raise_for_status (r : response) : M unit :=
  if ((400 <=? status_code r) && (status_code r <? 600))%Z
  then raise RequestException else ret tt.

(** [time.sleep(seconds)]; a negative length is a [ValueError]. *)
Definition sleep (seconds : Q) : M unit := fun w =>
  if Qle_bool 0 seconds then (Ok tt, log (EvSleep seconds) w)
  else (Raise ValueError, w).

(** [random.random()]: the next draw. *)
Definition random : M Q := fun w =>
  match randoms w with
  | r :: more =>
      (Ok r, MkWorld (script w) more (clock w) (env_llms w) (env_sitemap w) (others w)
                     (refs w) (skill_md w) (trace w))
  | [] => (Ok 0%Q, w)
  end.

(** [random.uniform(a, b)] is [a + (b - a) * random()]. *)
Definition uniform (a b : Q) : M Q :=
  bind random (fun r => ret (a + (b - a) * r)%Q).

(** [datetime.now().isoformat()]. *)
Definition now `{PyLib} : M str := fun w =>
  (Ok (isoformat_now (clock w)),
   MkWorld (script w) (randoms w) (S (clock w)) (env_llms w) (env_sitemap w) (others w)
           (refs w) (skill_md w) (trace w)).

Definition write_text (filename content : str) : M unit := fun w =>
  (Ok tt, MkWorld (script w) (randoms w) (clock w) (env_llms w) (env_sitemap w) (others w)
                  (<[filename := content]> (refs w)) (skill_md w)
                  (trace w ++ [EvWrite filename content])).

Definition unlink (filename : str) : M unit := fun w =>
  (Ok tt, MkWorld (script w) (randoms w) (clock w) (env_llms w) (env_sitemap w) (others w)
                  (delete filename (refs w)) (skill_md w)
                  (trace w ++ [EvUnlink filename])).

(** ** [fetch_markdown_url] *)

Local Open Scope M_scope.

(** How one pass through the body of the retry loop ends: with
    [continue] (or by falling out of a handler), or with [return]. *)
Inductive step (A : Type) :=
| Continue
| Return (a : A).
Arguments Continue {A}.
Arguments Return {A} a.

(** [min(RETRY_DELAY * (2 ** attempt), MAX_RETRY_DELAY)]. *)
Definition backoff_delay (attempt : nat) : Z :=
  Z.min (RETRY_DELAY * 2 ^ Z.of_nat attempt) MAX_RETRY_DELAY.

(** Lines 476-495, the body of the [try]. *)
Definition attempt_body `{PyLib} (filename markdown_url original_url : str)
    : M (step (str * str * str)) :=
  let! response := session_get markdown_url in
  if (status_code response =? 429)%Z then
    let! wait_time :=
      match retry_after response with
      | Some value => of_option ValueError (py_int value)
      | None => ret 60%Z
      end in
    sleep (inject_Z wait_time) >>
    ret Continue
  else
    raise_for_status response >>
    let content := clean_mdx_content (text response) in
    of_result (validate_markdown_content content) >>
    ret (Return (filename, content, original_url)).

(** Lines 497-508, the two handlers. *)
Definition attempt_handler (attempt : nat) (e : exn)
    : M (step (str * str * str)) :=
  match e with
  | RequestException =>
      if attempt <? MAX_RETRIES - 1 then
        let delay := backoff_delay attempt in
        let! jitter := uniform (1 # 2) 1 in
        sleep (inject_Z delay * jitter) >>
        ret Continue
      else raise FetchFailed
  | _ => raise e
  end.

(** [for attempt in range(MAX_RETRIES)]; a loop that runs out returns
    nothing, which is [None]. *)
Fixpoint fetch_attempts `{PyLib} (filename markdown_url original_url : str)
    (attempts : list nat) : M (option (str * str * str)) :=
  match attempts with
  | [] => ret None
  | attempt :: later =>
      let! s := catch (attempt_body filename markdown_url original_url)
                      (attempt_handler attempt) in
      match s with
      | Return r => ret (Some r)
      | Continue => fetch_attempts filename markdown_url original_url later
      end
  end.

Definition fetch_markdown_url `{PyLib} (doc_url : str)
    : M (option (str * str * str)) :=
  let '(original_url, markdown_url) := normalize_doc_url doc_url in
  let! filename := of_option ValueError (url_to_safe_filename original_url) in
  fetch_attempts filename markdown_url original_url (seq 0 MAX_RETRIES).

(** *** What a run of [fetch_markdown_url] shows *)

(** The events between two worlds of one run. *)
Definition new_events (w w' : World) : list event :=
  drop (length (trace w)) (trace w').

Definition is_get (e : event) : bool :=
  match e with
  | EvGet _ => true
  | _ => false
  end.

Definition count_gets (evs : list event) : nat :=
  length (List.filter is_get evs).

(** [m] extends the trace, by at most [n] requests. *)
Definition gets_le {A} (n : nat) (m : M A) : Prop :=
  forall w, exists evs,
    trace (m w).2 = trace w ++ evs /\ count_gets evs <= n.

(** An outcome that makes the body of the [try] raise a
    [RequestException]: the request itself fails, or the status is an
    error other than 429 and [raise_for_status] raises. *)
Definition request_fails (o : outcome) : Prop :=
  match o with
  | RequestFails => True
  | Responds r =>
      status_code r <> 429%Z /\ (400 <= status_code r < 600)%Z
  end.

(** An outcome with status 429 and a [Retry-After] that is absent or an
    integer that is not negative. *)
Definition rate_limited `{PyLib} (o : outcome) : Prop :=
  match o with
  | RequestFails => False
  | Responds r =>
      status_code r = 429%Z /\
      match retry_after r with
      | None => True
      | Some value => exists n, py_int value = Some n /\ (0 <= n)%Z
      end
  end.

(** The seconds slept on a 429. *)
Definition wait_time_of `{PyLib} (o : outcome) : Z :=
  match o with
  | Responds (Response _ (Some value) _ _) => default 60%Z (py_int value)
  | _ => 60%Z
  end.

Definition next_draw (w : World) : Q :=
  match randoms w with
  | r :: _ => r
  | [] => 0%Q
  end.

(** The factor [random.uniform(0.5, 1.0)] for a draw [r]. *)
Definition jitter_of (r : Q) : Q := ((1 # 2) + (1 - (1 # 2)) * r)%Q.

(** The world after a request to [url] whose outcome is consumed, and a
    sleep of [seconds]; [drew] tells whether a random number was drawn. *)
Definition after_attempt (url : str) (seconds : Q) (drew : bool) (w : World)
    : World :=
  MkWorld (tail (script w)) (if drew then tail (randoms w) else randoms w)
          (clock w) (env_llms w) (env_sitemap w) (others w) (refs w) (skill_md w)
          (trace w ++ [EvGet url; EvSleep seconds]).

(** The next request raises a [RequestException]; a script that has run
    out does. *)
Definition next_request_fails (w : World) : Prop :=
  match script w with
  | [] => True
  | o :: _ => request_fails o
  end.

(** The world after one request to [url] whose outcome is consumed. *)
Definition after_get (url : str) (w : World) : World :=
  MkWorld (tail (script w)) (randoms w) (clock w) (env_llms w) (env_sitemap w) (others w)
          (refs w) (skill_md w) (trace w ++ [EvGet url]).

(** The draws of [random.random()] lie in [[0, 1)]. *)
Definition draws_ok (w : World) : Prop :=
  Forall (fun r => 0 <= r /\ r < 1)%Q (randoms w).

(** ** The manifest and the mirrored files *)

(** [{"files": {}, "last_updated": None}] *)
Definition fresh_manifest : json :=
  JDict (<[lit "files" := JDict ∅]> {[ lit "last_updated" := JNull ]}).

Definition is_files (v : json) : bool :=
  match v with
  | JStr s => bool_decide (s = lit "files")
  | _ => false
  end.

(** ["files" in manifest]: a key of a dictionary, an item of a list, a
    part of a string; on any other value a [TypeError], which is [None]
    here. *)
Definition has_files (manifest : json) : option bool :=
  match manifest with
  | JDict members => Some (bool_decide (is_Some (members !! lit "files")))
  | JList items => Some (existsb is_files items)
  | JStr s => Some (contains (lit "files") s)
  | JNull | JBool _ | JNum _ => None
  end.

(** [manifest["files"] = {}]: only a dictionary takes it; a list and a
    string raise a [TypeError]. *)
Definition set_files (manifest : json) : option json :=
  match manifest with
  | JDict members => Some (JDict (<[lit "files" := JDict ∅]> members))
  | _ => None
  end.

(** [load_manifest]: every exception inside the [try] ends in the fresh
    manifest.  What is returned is what [json.loads] gave whenever
    ["files" in manifest] holds of it, dictionary or not. *)
Definition load_manifest `{PyLib} : M json := fun w =>
  match refs w !! MANIFEST_FILE with
  | Some content =>
      match json_loads content with
      | Some manifest =>
          match has_files manifest with
          | Some true => (Ok manifest, w)
          | Some false => (Ok (default fresh_manifest (set_files manifest)), w)
          | None => (Ok fresh_manifest, w)
          end
      | None => (Ok fresh_manifest, w)
      end
  | None => (Ok fresh_manifest, w)
  end.

Definition manifest_description : str :=
  lit "Claude Agent SDK documentation manifest for cc-agent-sdk skill.".

Definition save_manifest `{PyLib} (m : manifest) : M unit :=
  let! stamp := now in
  let m := Manifest (m_files m) (m_fetch_metadata m) (Some stamp)
                    (Some manifest_description) in
  write_text MANIFEST_FILE (json_dumps m).

Definition save_markdown_file `{PyLib} (filename content : str) : M str :=
  write_text filename content >>
  let content_hash := sha256_hex content in
  ret content_hash.

(** *** Paths

    What [get_references_dir() / key] names, for a key of the manifest,
    on a POSIX file system without symbolic links where the references
    directory holds plain files only and names are within the limits of
    the file system.  [pathlib] drops the empty components and the
    components [.], keeps [..], and lets an absolute key replace the
    directory; the system then resolves [..] to the skill directory, in
    which [references] and [SKILL.md] are known.  A path through a plain
    file, and a key with a null character, name nothing. *)
Inductive location :=
| RefFile (name : str)
| SkillFile
| Directory
| Nowhere
| Elsewhere (path : str).

Fixpoint walk (in_references : bool) (key : str) (parts : list str)
    : location :=
  match parts with
  | [] => Directory
  | part :: more =>
      if in_references then
        if bool_decide (part = lit "..") then walk false key more
        else match more with
             | [] => RefFile part
             | _ :: _ => Nowhere
             end
      else if bool_decide (part = lit "..") then Elsewhere key
      else if bool_decide (part = lit "references") then walk true key more
      else if bool_decide (part = SKILL_FILE) then
        match more with
        | [] => SkillFile
        | _ :: _ => Nowhere
        end
      else Elsewhere key
  end.

Definition kept_part (part : str) : bool :=
  negb (bool_decide (part = []) || bool_decide (part = lit ".")).

Definition locate (key : str) : location :=
  if bool_decide ("000"%char ∈ key) then Nowhere
  else if startswith (lit "/") key then Elsewhere key
  else walk true key (List.filter kept_part (split_on "/" key)).

(** [file_path.exists()]. *)
Definition path_exists (l : location) (w : World) : bool :=
  match l with
  | RefFile name => bool_decide (is_Some (refs w !! name))
  | SkillFile => bool_decide (is_Some (skill_md w))
  | Directory => true
  | Nowhere => false
  | Elsewhere path => bool_decide (is_Some (others w !! path))
  end.

(** [file_path.unlink()] of a path that exists: a directory cannot be
    unlinked, which is an [OSError]. *)
Definition unlink_at (l : location) : M unit := fun w =>
  match l with
  | RefFile name => unlink name w
  | SkillFile =>
      (Ok tt, MkWorld (script w) (randoms w) (clock w) (env_llms w)
                      (env_sitemap w) (others w) (refs w) None (trace w))
  | Elsewhere path =>
      match others w !! path with
      | Some false =>
          (Ok tt, MkWorld (script w) (randoms w) (clock w) (env_llms w)
                          (env_sitemap w) (delete path (others w)) (refs w)
                          (skill_md w) (trace w))
      | Some true | None => (Raise OSError, w)
      end
  | Directory | Nowhere => (Raise OSError, w)
  end.

(** The [for filename in files_to_remove] loop; the set is visited in
    the order of [elements]. *)
Fixpoint remove_files (protected_files : gset str) (names : list str) : M unit :=
  match names with
  | [] => ret tt
  | filename :: more =>
      (if bool_decide (filename ∈ protected_files) then ret tt
       else fun w =>
         if path_exists (locate filename) w
         then unlink_at (locate filename) w
         else (Ok tt, w)) >>
      remove_files protected_files more
  end.

(** [set(manifest.get("files", {}).keys())]: [get] needs a dictionary
    and [keys] one more; any other value is an [AttributeError], which is
    [None] here. *)
Definition previous_keys (manifest : json) : option (gset str) :=
  match manifest with
  | JDict members =>
      match default (JDict ∅) (members !! lit "files") with
      | JDict files => Some (dom files)
      | _ => None
      end
  | _ => None
  end.

Definition cleanup_old_files (current_files : gset str) (manifest : json)
    : M unit :=
  let! previous_files := of_option AttributeError (previous_keys manifest) in
  let files_to_remove := previous_files ∖ current_files in
  let protected_files := {[ MANIFEST_FILE ]} ∪ CUSTOM_FILES in
  remove_files protected_files (elements files_to_remove).



(** ** [SKILL.md] *)

(** [`?references/([^`\s]+\.(?:md|json))`?] *)
Definition reference_re : regex :=
  (Opt (Chr "`") >>> Str (lit "references/") >>>
   Grp 1 (Rep true 1 (fun c => not_chr "`" c && negb (is_space c)) >>>
          Chr "." >>> Alt (Str (lit "md")) (Str (lit "json"))) >>>
   Opt (Chr "`"))%re.

Definition get_skill_md_references (w : World) : gset str :=
  match skill_md w with
  | None => ∅
  | Some content =>
      list_to_set (map (group 1) (re_findall reference_re content))
  end.

(** ** Sorting *)

(** The order of [sorted] on strings: by code point, a proper prefix
    first. *)
Fixpoint str_leb (a b : str) : bool :=
  match a, b with
  | [], _ => true
  | _ :: _, [] => false
  | x :: a', y :: b' =>
      if (code x <? code y)%N then true
      else if (code x =? code y)%N then str_leb a' b'
      else false
  end.

Definition str_le (a b : str) : Prop := str_leb a b = true.

Definition str_lt (a b : str) : Prop := str_le a b /\ a <> b.

#[global] Instance str_le_dec : RelDecision str_le.
Proof. intros a b. unfold str_le. apply _. Defined.

(** [sorted(names)]. *)
Definition py_sorted (names : list str) : list str := merge_sort str_le names.

(** [sorted(list(set(names)))]. *)
Definition sorted_set (names : list str) : list str :=
  py_sorted (remove_dups names).

(** The dictionary that [validate_skill_md] returns. *)
Record validation := Validation {
  orphaned : list str;
  unreferenced : list str;
  custom : list str
}.

Definition validate_skill_md (fetched_files : gset str) (w : World) : validation :=
  let referenced := get_skill_md_references w in
  let orphaned := referenced ∖ fetched_files ∖ {[ MANIFEST_FILE ]} ∖ CUSTOM_FILES in
  let unreferenced := fetched_files ∖ referenced ∖ {[ MANIFEST_FILE ]} in
  Validation (py_sorted (elements orphaned))
             (py_sorted (elements unreferenced))
             (py_sorted (elements (referenced ∩ CUSTOM_FILES))).

(** What the claim says of a list returned for a set: it is the sorted
    list of the members of the set, each once. *)
Definition sorted_list_of (X : gset str) (names : list str) : Prop :=
  Sorted str_le names /\ NoDup names /\ forall x, x ∈ names <-> x ∈ X.

(** ** URL discovery *)

Definition LLMS_URLS : list str :=
  [lit "https://platform.claude.com/docs/llms.txt";
   lit "https://code.claude.com/docs/llms.txt";
   lit "https://docs.anthropic.com/docs/llms.txt";
   lit "https://docs.anthropic.com/llms.txt"].

Definition SITEMAP_URLS : list str :=
  [lit "https://platform.claude.com/docs/sitemap.xml";
   lit "https://code.claude.com/docs/sitemap.xml";
   lit "https://docs.anthropic.com/sitemap.xml"].

Definition is_agent_sdk_url (url : str) : bool :=
  existsb (fun marker => contains marker url) AGENT_SDK_PATH_MARKERS.

(** The line boundaries of [str.splitlines]: LF, VT, FF, CR, FS, GS, RS
    and NEL; CR LF is one boundary. *)
Definition is_linebreak (c : ascii) : bool :=
  let n := code c in
  ((10 <=? n) && (n <=? 13) || (28 <=? n) && (n <=? 30) || (n =? 133))%N.

Definition is_cr (c : ascii) : bool := chr_eqb c "013".

(** [s.splitlines()]; [after_cr] holds when the character before was a
    CR, whose LF is then part of the same boundary. *)
Fixpoint splitlines_from (after_cr : bool) (s : str) : list str :=
  match s with
  | [] => []
  | c :: t =>
      if after_cr && is_nl c then splitlines_from false t
      else if is_linebreak c then [] :: splitlines_from (is_cr c) t
      else match splitlines_from false t with
           | line :: more => (c :: line) :: more
           | [] => [[c]]
           end
  end.

Definition splitlines (s : str) : list str := splitlines_from false s.

(** The body of the loop of [parse_llms_txt]: the URL a line adds, if
    it adds one. *)
Definition parse_llms_line (base_url line : str) : option str :=
  let line := py_strip line in
  match line with
  | [] => None
  | _ :: _ =>
      if startswith (lit "#") line then None
      else
        let line :=
          if startswith (lit "-") line
          then py_strip (lstrip_by (is_chr "-") line) else line in
        let line :=
          if startswith (lit "/") line then base_url ++ line else line in
        if startswith (lit "http") line && is_agent_sdk_url line
        then Some line else None
  end.

Definition parse_llms_txt (text base_url : str) : list str :=
  omap (parse_llms_line base_url) (splitlines text).

(** [[env] + urls if env else urls]. *)
Definition with_env (env : option str) (urls : list str) : list str :=
  match env with
  | Some (c :: e) => (c :: e) :: urls
  | _ => urls
  end.

(** The body of the [try] of [discover_pages_from_llms]: [Some] is the
    [return], [None] a pass that goes on to the next URL. *)
Definition try_llms_url `{PyLib} (llms_url : str) : M (option (list str)) :=
  let! resp := session_get llms_url in
  if negb (status_code resp =? 200)%Z then ret None
  else
    let! base := of_option ValueError (urlparse_base llms_url) in
    let urls := parse_llms_txt (text resp) base in
    match urls with
    | [] => ret None
    | _ :: _ => ret (Some (sorted_set urls))
    end.

Fixpoint discover_llms_loop `{PyLib} (llms_urls : list str) : M (list str) :=
  match llms_urls with
  | [] => ret []
  | llms_url :: more =>
      match llms_url with
      | [] => discover_llms_loop more
      | _ :: _ =>
          let! found := catch (try_llms_url llms_url) (fun _ => ret None) in
          match found with
          | Some urls => ret urls
          | None => discover_llms_loop more
          end
      end
  end.

Definition discover_pages_from_llms `{PyLib} : M (list str) := fun w =>
  discover_llms_loop (with_env (env_llms w) LLMS_URLS) w.

Definition nonempty (s : str) : bool :=
  match s with
  | [] => false
  | _ :: _ => true
  end.

(** The loop over the [loc] elements of a sitemap index; [visit] is the
    recursive call, and [seen] the set it shares with its callers. *)
Fixpoint sitemap_index_loop
    (visit : str -> gset str -> M (list str * gset str))
    (locs : list str) (urls : list str) (seen : gset str)
    : M (list str * gset str) :=
  match locs with
  | [] => ret (urls, seen)
  | loc :: more =>
      if nonempty loc then
        let! (found, seen) := visit loc seen in
        sitemap_index_loop visit more (urls ++ found) seen
      else sitemap_index_loop visit more urls seen
  end.

(** [fetch_sitemap_urls]; [depth] is the number of frames the interpreter
    still allows. *)
Fixpoint fetch_sitemap_urls (depth : nat) (sitemap_url : str) (seen : gset str)
    : M (list str * gset str) :=
  match depth with
  | O => raise RecursionError
  | S depth' =>
      if bool_decide (sitemap_url ∈ seen) then ret ([], seen)
      else
        let seen := {[ sitemap_url ]} ∪ seen in
        let! resp := session_get sitemap_url in
        raise_for_status resp >>
        let! root := of_option ParseError (xml resp) in
        if contains (lit "sitemapindex") (root_tag root) then
          sitemap_index_loop (fetch_sitemap_urls depth') (ns_locs root) [] seen
        else
          let urls := List.filter nonempty (ns_locs root) in
          let urls :=
            match urls with
            | [] => List.filter nonempty (plain_locs root)
            | _ :: _ => urls
            end in
          ret (urls, seen)
  end.

Definition try_sitemap_url `{PyLib} (sitemap_url : str) : M (option (list str)) :=
  let! (urls, _) := fetch_sitemap_urls recursion_limit sitemap_url ∅ in
  match urls with
  | [] => ret None
  | _ :: _ =>
      let agent_urls := List.filter is_agent_sdk_url urls in
      match agent_urls with
      | [] => ret None
      | _ :: _ => ret (Some (sorted_set agent_urls))
      end
  end.

Fixpoint discover_sitemap_loop `{PyLib} (sitemap_urls : list str) : M (list str) :=
  match sitemap_urls with
  | [] => ret []
  | sitemap_url :: more =>
      match sitemap_url with
      | [] => discover_sitemap_loop more
      | _ :: _ =>
          let! found := catch (try_sitemap_url sitemap_url) (fun _ => ret None) in
          match found with
          | Some urls => ret urls
          | None => discover_sitemap_loop more
          end
      end
  end.

Definition discover_pages_from_sitemap `{PyLib} : M (list str) := fun w =>
  discover_sitemap_loop (with_env (env_sitemap w) SITEMAP_URLS) w.

Definition get_fallback_pages : list str :=
  [lit "https://platform.claude.com/docs/en/agent-sdk/overview";
   lit "https://platform.claude.com/docs/en/agent-sdk/quickstart";
   lit "https://platform.claude.com/docs/en/agent-sdk/python";
   lit "https://platform.claude.com/docs/en/agent-sdk/typescript";
   lit "https://platform.claude.com/docs/en/agent-sdk/permissions";
   lit "https://platform.claude.com/docs/en/agent-sdk/settings";
   lit "https://platform.claude.com/docs/en/agent-sdk/sessions";
   lit "https://platform.claude.com/docs/en/agent-sdk/streaming-vs-single-mode";
   lit "https://platform.claude.com/docs/en/agent-sdk/structured-outputs";
   lit "https://platform.claude.com/docs/en/agent-sdk/mcp";
   lit "https://platform.claude.com/docs/en/agent-sdk/custom-tools";
   lit "https://platform.claude.com/docs/en/agent-sdk/hooks";
   lit "https://platform.claude.com/docs/en/agent-sdk/subagents";
   lit "https://platform.claude.com/docs/en/agent-sdk/skills";
   lit "https://platform.claude.com/docs/en/agent-sdk/slash-commands";
   lit "https://platform.claude.com/docs/en/agent-sdk/plugins";
   lit "https://platform.claude.com/docs/en/agent-sdk/todo-tracking";
   lit "https://platform.claude.com/docs/en/agent-sdk/cost-tracking";
   lit "https://platform.claude.com/docs/en/agent-sdk/hosting";
   lit "https://platform.claude.com/docs/en/agent-sdk/secure-deployment";
   lit "https://platform.claude.com/docs/en/agent-sdk/modifying-system-prompts";
   lit "https://platform.claude.com/docs/en/agent-sdk/migration-guide"].

Definition discover_doc_urls `{PyLib} : M (list str) :=
  let! urls := discover_pages_from_llms in
  match urls with
  | _ :: _ => ret urls
  | [] =>
      let! urls := discover_pages_from_sitemap in
      match urls with
      | _ :: _ => ret urls
      | [] => ret get_fallback_pages
      end
  end.

(** What the claim says of a discovered list: every URL has an Agent SDK
    path marker, and the list is sorted and has no duplicate. *)
Definition listing (urls : list str) : Prop :=
  Forall (fun url => is_agent_sdk_url url = true) urls
  /\ Sorted str_le urls
  /\ NoDup urls.

(** A pass over one source either finds nothing or finds a listing;
    whatever it raises is caught. *)
Definition finds_listing (m : M (option (list str))) : Prop :=
  forall w, exists found w',
    catch m (fun _ => ret None) w = (Ok found, w')
    /\ match found with
       | Some urls => listing urls /\ urls <> []
       | None => True
       end.

(** An outcome that gives a discovery source nothing: the request
    fails, or the status is a 4xx or 5xx error. *)
Definition unavailable (o : outcome) : Prop :=
  match o with
  | RequestFails => True
  | Responds r => (400 <= status_code r < 600)%Z
  end.

(** Every request that is still to come meets such an outcome. *)
Definition sources_down (w : World) : Prop := Forall unavailable (script w).

(** A line that is blank, or whose first character, after the dash and
    the blank of a list item if it has them, is neither [/] nor [h]: a
    heading, a quotation, a markdown link. *)
Definition passed_over (line : str) : Prop :=
  py_strip line = []
  \/ exists c rest,
       (py_strip line = c :: rest
        \/ py_strip line = "-"%char :: " "%char :: c :: rest)
       /\ c <> "/"%char /\ c <> "h"%char /\ c <> "-"%char
       /\ is_space c = false.

(** ** [update_skill_md_uncategorized] *)

Definition uncategorized_heading : str := lit "### Uncategorized (New)".

(** The text that opens a new section. *)
Definition uncategorized_intro : str :=
  (nl ++ nl ++ uncategorized_heading ++ nl ++ nl)
  ++ lit "<!-- Review and move these to appropriate sections -->" ++ nl ++ nl.

(** The line added for one file. *)
Definition uncategorized_entry (filename : str) : str :=
  lit "- `references/" ++ filename ++ lit "` - (new, needs categorization)" ++ nl.

(** [update_skill_md_uncategorized]: the world after the call, or [None]
    when [read_text] raises [FileNotFoundError] because [SKILL.md] is
    missing.  Writing [SKILL.md] is no event of the trace, which records
    the files of the references directory. *)
Definition update_skill_md_uncategorized (new_files : list str) (w : World)
    : option World :=
  match new_files with
  | [] => Some w
  | _ :: _ =>
      match skill_md w with
      | None => None
      | Some content =>
          let uncategorized_section :=
            if contains uncategorized_heading content then []
            else uncategorized_intro in
          let uncategorized_section :=
            fold_left (fun section filename =>
                         section ++ uncategorized_entry filename)
                      new_files uncategorized_section in
          let content := rstrip_by is_space content ++ uncategorized_section in
          Some (MkWorld (script w) (randoms w) (clock w) (env_llms w)
                        (env_sitemap w) (others w) (refs w) (Some content) (trace w))
      end
  end.

(** [m] extends the trace, by events that all satisfy [P]. *)
Definition emits {A} (P : event -> Prop) (m : M A) : Prop :=
  forall w, exists evs, trace (m w).2 = trace w ++ evs /\ Forall P evs.

(** A sleep, or a request for [url]. *)
Definition asks_only (url : str) (e : event) : Prop :=
  match e with
  | EvGet u => u = url
  | EvSleep _ => True
  | _ => False
  end.

(** All that [m] adds to the trace are requests, for addresses that are
    pairwise distinct and not in [seen]; the set that [m] returns is
    [seen] with these addresses. *)
Definition requests_fresh (seen : gset str) (m : M (list str * gset str))
    : Prop :=
  forall w, exists requested : list str,
    trace (m w).2 = trace w ++ map EvGet requested
    /\ NoDup requested
    /\ (forall u, u ∈ requested -> u ∉ seen)
    /\ (forall urls seen',
          (m w).1 = Ok (urls, seen') -> seen' = seen ∪ list_to_set requested).

(** ** [fetch_docs] *)

(** The variables that the loop of [fetch_docs] updates. *)
Record progress := Progress {
  p_successful : nat;
  p_failed : nat;
  p_failed_pages : list str;
  p_fetched_files : gset str;
  p_files : gmap str entry
}.

(** Lines 606-618, the body of the [try].  Unpacking the [None] that
    [fetch_markdown_url] may return is a [TypeError]. *)
Definition process_page `{PyLib} (doc_url : str) (acc : progress) : M progress :=
  let! fetched := fetch_markdown_url doc_url in
  match fetched with
  | None => raise TypeError
  | Some (filename, content, original_url) =>
      if bool_decide (filename ∈ CUSTOM_FILES) then ret acc
      else
        let! content_hash := save_markdown_file filename content in
        let! stamp := now in
        ret (Progress (S (p_successful acc)) (p_failed acc) (p_failed_pages acc)
                      ({[ filename ]} ∪ p_fetched_files acc)
                      (<[filename := Entry original_url content_hash stamp]>
                         (p_files acc)))
  end.

(** Lines 620-623, the [except Exception] handler. *)
Definition page_failed (doc_url : str) (acc : progress) (e : exn) : M progress :=
  ret (Progress (p_successful acc) (S (p_failed acc))
                (p_failed_pages acc ++ [doc_url])
                (p_fetched_files acc) (p_files acc)).

Fixpoint process_pages `{PyLib} (documentation_urls : list str) (acc : progress)
    : M progress :=
  match documentation_urls with
  | [] => ret acc
  | doc_url :: more =>
      let! acc := catch (process_page doc_url acc) (page_failed doc_url acc) in
      process_pages more acc
  end.

Definition fetch_docs `{PyLib} : M (nat * nat * gset str) :=
  let! manifest := load_manifest in
  let! documentation_urls := discover_doc_urls in
  let! acc := process_pages documentation_urls (Progress 0 0 [] ∅ ∅) in
  cleanup_old_files (p_fetched_files acc) manifest >>
  let new_manifest :=
    Manifest (Some (p_files acc))
             (Some (Metadata (p_successful acc) (p_failed acc) (p_failed_pages acc)))
             None None in
  save_manifest new_manifest >>
  ret (p_successful acc, p_failed acc, p_fetched_files acc).

Local Close Scope M_scope.

(** *** What became of each page *)








(** *** What a run of [fetch_docs] shows *)

(** The events of the network and of [time.sleep]. *)
Definition is_network (e : event) : Prop :=
  match e with
  | EvGet _ | EvSleep _ => True
  | _ => False
  end.

Definition is_unlink (e : event) : Prop :=
  match e with
  | EvUnlink _ => True
  | _ => False
  end.

(** [m] leaves the files alone: all it adds to the trace are requests
    and sleeps. *)
Definition network_only {A} (m : M A) : Prop :=
  forall w, refs (m w).2 = refs w /\
    exists evs, trace (m w).2 = trace w ++ evs /\ Forall is_network evs.

(** The content that the last write to [name] among [evs] wrote. *)
Fixpoint last_write (name : str) (evs : list event) : option str :=
  match evs with
  | [] => None
  | e :: more =>
      match last_write name more with
      | Some content => Some content
      | None =>
          match e with
          | EvWrite n content => if decide (n = name) then Some content else None
          | _ => None
          end
      end
  end.

(** What holds of the variables of the loop of [fetch_docs] after the
    events [evs], the files being [files_now]. *)
Definition pages_inv `{PyLib} (acc : progress) (evs : list event)
    (files_now : gmap str str) : Prop :=
  dom (p_files acc) = p_fetched_files acc
  /\ (forall name, name ∈ p_fetched_files acc <->
                   exists content, EvWrite name content ∈ evs)
  /\ (forall name e, p_files acc !! name = Some e ->
        exists content,
          last_write name evs = Some content
          /\ files_now !! name = Some content
          /\ hash e = sha256_hex content)
  /\ (forall name, name ∈ p_fetched_files acc ->
        endswith (lit ".md") name = true /\ (name ∉ CUSTOM_FILES))
  /\ Forall (fun e => ~ is_unlink e) evs.

(** ** An instance of the library interface

    Enough of [urlparse], [int] and the clock to run the model on concrete
    inputs: URLs of the shape [scheme://host/path?query#fragment], decimal
    integers, and a counter for the clock.  The digest, the serialiser
    and the parser are stand-ins: the serialiser keeps the file names
    only, and the parser reads the text [null] as a manifest whose
    ["files"] is null and any other text as the keys of ["files"], one
    on a line.  No theorem depends on which functions they are. *)
Module Demo.

Definition is_scheme_chr (c : ascii) : bool :=
  let n := code c in
  ((65 <=? n) && (n <=? 90) || (97 <=? n) && (n <=? 122)
   || (48 <=? n) && (n <=? 57) || (n =? 43) || (n =? 45) || (n =? 46))%N.

Fixpoint take_until (p : ascii -> bool) (s : str) : str * str :=
  match s with
  | [] => ([], [])
  | c :: t => if p c then ([], s)
              else let '(a, b) := take_until p t in (c :: a, b)
  end.

Definition split_scheme (u : str) : str * str :=
  let '(pre, post) := take_until (is_chr ":") u in
  match pre, post with
  | _ :: _, _ :: rest =>
      if forallb is_scheme_chr pre then (pre, rest) else ([], u)
  | _, _ => ([], u)
  end.

Definition split_netloc (rest : str) : str * str :=
  if startswith (lit "//") rest then
    take_until (fun c => is_chr "/" c || is_chr "?" c || is_chr "#" c)
               (drop 2 rest)
  else ([], rest).

Definition path_of (u : str) : str :=
  let rest := (split_netloc (split_scheme u).2).2 in
  (take_until (is_chr "?") (take_until (is_chr "#") rest).1).1.

Definition base_of (u : str) : str :=
  (split_scheme u).1 ++ lit "://" ++ (split_netloc (split_scheme u).2).1.

Definition digit_of (c : ascii) : option Z :=
  let n := code c in
  if ((48 <=? n) && (n <=? 57))%N then Some (Z.of_N n - 48)%Z else None.

Fixpoint int_digits (acc : Z) (s : str) : option Z :=
  match s with
  | [] => Some acc
  | c :: t => d ← digit_of c; int_digits (10 * acc + d)%Z t
  end.

Definition int_of (s : str) : option Z :=
  match s with
  | [] => None
  | _ :: _ => int_digits 0%Z s
  end.

Definition stamp (n : nat) : str := repeat "I"%char n.

#[export] Instance lib : PyLib := {|
  urlparse_path u := Some (path_of u);
  urlparse_base u := Some (base_of u);
  py_int := int_of;
  sha256_hex content := lit "sha256:" ++ content;
  isoformat_now := stamp;
  json_loads text :=
    if bool_decide (text = lit "null")
    then Some (JDict {[ lit "files" := JNull ]})
    else
      let files :=
        list_to_map (map (fun k => (k, JNull)) (split_on "010" text)) in
      Some (JDict {[ lit "files" := JDict files ]});
  json_dumps m := join ["010"%char] (elements (dom (default ∅ (m_files m))));
  recursion_limit := 1000
|}.

Definition url : str := lit "https://platform.claude.com/docs/en/agent-sdk/hooks".

Definition error_500 : outcome := Responds (Response 500 None [] None).

Definition too_many (value : option str) : outcome :=
  Responds (Response 429 value [] None).

Definition world (outcomes : list outcome) (draws : list Q) : World :=
  MkWorld outcomes draws 0 None None ∅ ∅ None [].

(** Three failing requests, and three rate-limited ones. *)
Definition failing : World :=
  world [RequestFails; error_500; RequestFails] [0; 1 # 2]%Q.

Definition limited : World :=
  world [too_many None; too_many (Some (lit "5")); too_many None] [].

(** A page that passes the validation, one that does not, and a 429
    whose [Retry-After] is a date. *)
Definition page : str :=
  lit "# Hooks" ++ ["010"%char] ++ lit "- run code before a tool call"
  ++ ["010"%char] ++ lit "- run code after a tool call"
  ++ ["010"%char] ++ lit "See the **reference** for the details.".

Definition served : World := world [Responds (Response 200 None page None)] [].

Definition served_html : World :=
  world [Responds (Response 200 None (lit "<!DOCTYPE html><html></html>") None)] [].

Definition dated : World :=
  world [too_many (Some (lit "Wed, 21 Oct 2026 07:28:00 GMT"))] [].

(** A world whose [SKILL.md] has the given text. *)
Definition documented (content : str) : World :=
  MkWorld [] [] 0 None None ∅ ∅ (Some content) [].





(** A mirror whose manifest has a null ["files"]. *)
Definition unkeyed : World :=
  MkWorld [] [] 0 None None ∅
          (<[MANIFEST_FILE := lit "null"]> (<[lit "hooks.md" := page]> ∅))
          None [].

End Demo.
(** * Properties *)

(** ** Strings *)

(** A character that is not among those of a literal. *)
Ltac notin_lit :=
  let H := fresh in
  intros H; apply list_elem_of_In in H; cbn in H; intuition discriminate.

Lemma chr_eqb_eq a b : chr_eqb a b = true <-> a = b.
Proof. apply Ascii.eqb_eq. Qed.

Lemma chr_eqb_refl a : chr_eqb a a = true.
Proof. by apply chr_eqb_eq. Qed.

Lemma chr_eqb_neq a b : chr_eqb a b = false <-> a <> b.
Proof. apply Ascii.eqb_neq. Qed.

Lemma startswith_prefix p s : startswith p s = true <-> p `prefix_of` s.
Proof.
  revert s. induction p as [|a p IH]; intros s; simpl.
  - split; [intros _; apply prefix_nil | done].
  - destruct s as [|b s].
    + split; [done | intros [k Hk]; discriminate].
    + rewrite andb_true_iff, chr_eqb_eq, IH. split.
      * intros [-> Hp]. by apply prefix_cons.
      * intros [k Hk]. injection Hk as -> ->. split; [done | by exists k].
Qed.

Lemma startswith_app p s : startswith p (p ++ s) = true.
Proof. apply startswith_prefix. by exists s. Qed.

Lemma endswith_suffix p s : endswith p s = true <-> p `suffix_of` s.
Proof.
  unfold endswith. rewrite startswith_prefix. split.
  - intros [k Hk]. exists (rev k).
    rewrite <- (rev_involutive s), Hk, rev_app_distr. by rewrite rev_involutive.
  - intros [k ->]. exists (rev k). by rewrite rev_app_distr.
Qed.

Lemma endswith_app s p : endswith p (s ++ p) = true.
Proof. apply endswith_suffix. by exists s. Qed.

Lemma drop_last_app s p : drop_last (length p) (s ++ p) = s.
Proof.
  unfold drop_last. rewrite length_app.
  replace (length s + length p - length p) with (length s) by lia.
  by rewrite take_app_length.
Qed.

Lemma endswith_drop_last p s :
  endswith p s = true -> drop_last (length p) s ++ p = s.
Proof.
  intros [k ->]%endswith_suffix. by rewrite drop_last_app.
Qed.

Lemma replace_chr_notin c r s : c ∉ r -> c ∉ replace_chr c r s.
Proof.
  intros Hr. induction s as [|x s IH]; simpl.
  - apply not_elem_of_nil.
  - rewrite elem_of_app. intros [Hx | Hs]; [|done].
    destruct (chr_eqb x c) eqn:E; [done|].
    apply chr_eqb_neq in E. apply list_elem_of_singleton in Hx. congruence.
Qed.

Lemma replace_chr_nil_inv c r s : r <> [] -> replace_chr c r s = [] -> s = [].
Proof.
  intros Hr. destruct s as [|x s]; [done|]. simpl.
  destruct (chr_eqb x c); [|done].
  intros [? _]%app_eq_nil. done.
Qed.

Lemma replace_chr_eq_inv c r s t :
  (forall x, x ∈ r -> x ∉ t) -> r <> [] -> replace_chr c r s = t -> s = t.
Proof.
  intros Hdisj Hr. revert t Hdisj.
  induction s as [|x s IH]; intros t Hdisj; simpl; [done|].
  destruct (chr_eqb x c).
  - destruct r as [|y r]; [done|]. intros <-.
    exfalso. apply (Hdisj y); [left | left].
  - intros <-. f_equal. apply IH; [|done].
    intros y Hy Hin. apply (Hdisj y Hy). by right.
Qed.

Lemma slug_of_path_nonempty path : slug_of_path path <> [].
Proof.
  unfold slug_of_path.
  repeat match goal with
         | |- context [match ?x with _ => _ end] => destruct x eqn:?
         end; try done.
Qed.

(** ** [normalize_doc_url] *)

(** C10. For every input URL, the second component of
    [normalize_doc_url] is the first with [".md"] appended, whichever
    branch (".md", ".html", trailing "/", none) the input takes. *)
Theorem normalize_doc_url_appends_md (url : str) :
  (normalize_doc_url url).2 = (normalize_doc_url url).1 ++ lit ".md".
Proof.
  unfold normalize_doc_url.
  set (u := if endswith (lit "/") (py_strip url) then _ else _).
  destruct (endswith (lit ".md") u) eqn:Hmd.
  - symmetry. exact (endswith_drop_last (lit ".md") u Hmd).
  - destruct (endswith (lit ".html") u); reflexivity.
Qed.

(** ** [url_to_safe_filename] *)

Lemma safe_name_of_slug_endswith slug :
  endswith (lit ".md") (safe_name_of_slug slug) = true.
Proof.
  unfold safe_name_of_slug.
  destruct (endswith _ (replace_chr _ _ slug)) eqn:E; [done|].
  apply endswith_app.
Qed.

Lemma safe_name_of_slug_no_slash slug : "/"%char ∉ safe_name_of_slug slug.
Proof.
  assert (Hr : "/"%char ∉ replace_chr "/" (lit "__") slug).
  { apply replace_chr_notin. notin_lit. }
  unfold safe_name_of_slug. destruct (endswith _ _); [done|].
  rewrite elem_of_app. intros [?|Hmd]; [done|]. revert Hmd. notin_lit.
Qed.

Lemma safe_name_of_slug_base slug :
  slug <> [] ->
  (drop_last 3 (safe_name_of_slug slug) = [] <-> slug = lit ".md").
Proof.
  intros Hne. unfold safe_name_of_slug.
  destruct (endswith _ (replace_chr _ _ slug)) eqn:E.
  - split; [|by intros ->].
    intros Hb. apply endswith_drop_last in E.
    change (length (lit ".md")) with 3 in E. rewrite Hb in E.
    symmetry in E. apply replace_chr_eq_inv in E; [done| |done].
    intros x Hx Hin. apply list_elem_of_In in Hx, Hin. cbn in Hx, Hin.
    intuition (subst; discriminate).
  - change 3 with (length (lit ".md")). rewrite drop_last_app. split.
    + intros Hr. apply replace_chr_nil_inv in Hr; done.
    + intros ->. vm_compute in E. discriminate.
Qed.

(** The slug is the slug found with its slashes stripped, or ["index"]
    when nothing is left. *)
Lemma slug_of_path_found path :
  slug_of_path path
  = match strip_by (is_chr "/") (found_slug path) with
    | [] => lit "index"
    | c :: s => c :: s
    end.
Proof.
  unfold slug_of_path, found_slug. cbv zeta.
  set (slug := if truthy _ then _ else _).
  destruct slug as [|c s]; [reflexivity|].
  by destruct (strip_by (is_chr "/") (c :: s)).
Qed.

(** C9, as the code has it.  Whenever the path is available (the input
    has no ["//"], or [urlparse] accepts it) a filename is returned; it
    ends with [".md"] and has no ["/"].  The slug is never empty: a slug
    that is empty once its slashes are stripped becomes ["index"], and
    the filename is then ["index.md"].  The base (the name without the
    final [".md"]) is empty exactly when the slug is [".md"] itself,
    which the [endswith] guard leaves as it is. *)
Theorem url_to_safe_filename_shape `{PyLib} (url_or_path path : str) :
  (if contains (lit "//") url_or_path
   then urlparse_path url_or_path else Some url_or_path) = Some path ->
  exists name,
    url_to_safe_filename url_or_path = Some name
    /\ endswith (lit ".md") name = true
    /\ ("/"%char ∉ name)
    /\ slug_of_path path <> []
    /\ (strip_by (is_chr "/") (found_slug path) = [] ->
        slug_of_path path = lit "index" /\ name = lit "index.md")
    /\ (strip_by (is_chr "/") (found_slug path) <> [] ->
        slug_of_path path = strip_by (is_chr "/") (found_slug path))
    /\ (drop_last 3 name = [] <-> slug_of_path path = lit ".md").
Proof.
  intros Hpath. exists (filename_of_path path). split.
  { unfold url_to_safe_filename. by rewrite Hpath. }
  unfold filename_of_path.
  split; [apply safe_name_of_slug_endswith|].
  split; [apply safe_name_of_slug_no_slash|].
  split; [apply slug_of_path_nonempty|].
  split; [|split].
  - intros Hempty. rewrite slug_of_path_found, Hempty. by split.
  - intros Hfound. rewrite slug_of_path_found.
    by destruct (strip_by (is_chr "/") (found_slug path)).
  - apply safe_name_of_slug_base, slug_of_path_nonempty.
Qed.

Lemma url_to_safe_filename_shape_witness :
  exists name,
    url_to_safe_filename (H := Demo.lib)
      (lit "https://platform.claude.com/docs/en/agent-sdk/guides/hooks.html")
      = Some name
    /\ name = lit "guides__hooks.md"
    /\ drop_last 3 name <> [].
Proof.
  destruct (url_to_safe_filename_shape (H := Demo.lib)
              (lit "https://platform.claude.com/docs/en/agent-sdk/guides/hooks.html")
              (lit "/docs/en/agent-sdk/guides/hooks.html") eq_refl)
    as (name & Hname & _).
  exists name. split; [exact Hname|].
  vm_compute in Hname. injection Hname as <-. split; [reflexivity | discriminate].
Defined.

(** C9, as stated, fails: the input [".md.md"] loses one [".md"], its
    slug is [".md"], and the filename returned is [".md"]: an empty base. *)
Lemma url_to_safe_filename_empty_base :
  ~ (forall (L : PyLib) (u name : str),
       url_to_safe_filename u = Some name ->
       endswith (lit ".md") name = true /\ ("/"%char ∉ name)
       /\ drop_last 3 name <> []).
Proof.
  intros Hall.
  destruct (Hall Demo.lib (lit ".md.md") (lit ".md") eq_refl) as (_ & _ & Hbase).
  by apply Hbase.
Qed.

(** ** [validate_markdown_content] *)

Lemma contains_infix p s :
  contains p s = true <-> exists a b, s = a ++ p ++ b.
Proof.
  induction s as [|x s IH].
  - simpl. rewrite orb_false_r, startswith_prefix. split.
    + intros [k Hk]. exists [], k. done.
    + intros (a & b & Hab). symmetry in Hab.
      apply app_eq_nil in Hab as [-> [-> ->]%app_eq_nil]. apply prefix_nil.
  - cbn [contains]. rewrite orb_true_iff, startswith_prefix, IH. split.
    + intros [[k Hk] | (a & b & ->)].
      * exists [], k. done.
      * exists (x :: a), b. done.
    + intros ([|y a] & b & Hab).
      * left. by exists b.
      * right. injection Hab as -> ->. by exists a, b.
Qed.

Lemma lstrip_by_suffix p s : exists a, s = a ++ lstrip_by p s.
Proof.
  induction s as [|x s [a IH]]; simpl.
  - by exists [].
  - destruct (p x).
    + exists (x :: a). simpl. by f_equal.
    + by exists [].
Qed.

Lemma rstrip_by_prefix p s : exists b, s = rstrip_by p s ++ b.
Proof.
  unfold rstrip_by. destruct (lstrip_by_suffix p (rev s)) as [a Ha].
  exists (rev a). rewrite <- rev_app_distr, <- Ha. by rewrite rev_involutive.
Qed.

Lemma strip_by_infix p s : exists a b, s = a ++ strip_by p s ++ b.
Proof.
  unfold strip_by.
  destruct (lstrip_by_suffix p s) as [a Ha].
  destruct (rstrip_by_prefix p (lstrip_by p s)) as [b Hb].
  exists a, b. by rewrite <- Hb.
Qed.

Lemma startswith_strip_contains p q s :
  startswith q (strip_by p s) = true -> contains q s = true.
Proof.
  intros [k Hk]%startswith_prefix. apply contains_infix.
  destruct (strip_by_infix p s) as (a & b & Hs).
  exists a, (k ++ b). rewrite Hs at 1. rewrite Hk. by rewrite <- !app_assoc.
Qed.

Lemma line_counts_contains line : line_counts line = contains_indicator line.
Proof.
  unfold line_counts, contains_indicator.
  induction markdown_indicators as [|q l IH]; [done|].
  cbn [existsb]. rewrite IH. f_equal.
  destruct (startswith q (py_strip line)) eqn:E; [|done].
  by rewrite (startswith_strip_contains _ _ _ E).
Qed.

(** C7. [validate_markdown_content] raises [ValueError] exactly when the
    content is empty, starts with [<!DOCTYPE], has [<html] in its first
    100 characters, is shorter than 50 characters once stripped, or has
    fewer than 3 of its first 50 lines containing a markdown indicator;
    otherwise it returns.  It is a function of the content alone: it
    changes nothing. *)
Theorem validate_markdown_content_raises (content : str) :
  (validate_markdown_content content = Raise ValueError <->
     content = []
     \/ startswith (lit "<!DOCTYPE") content = true
     \/ contains (lit "<html") (take 100 content) = true
     \/ length (py_strip content) < 50
     \/ length (List.filter contains_indicator
                            (take 50 (split_on "010" content))) < 3)
  /\ (validate_markdown_content content = Raise ValueError
      \/ validate_markdown_content content = Ok tt).
Proof.
  unfold validate_markdown_content, indicator_count.
  rewrite (filter_ext _ _ line_counts_contains).
  set (n := length (List.filter _ _)).
  destruct content as [|c content'] eqn:Hc; [split; [split|]; auto|].
  rewrite <- Hc. cbn [orb].
  destruct (startswith _ content) eqn:E1; cbn [orb]; [split; [split|]; auto|].
  destruct (contains _ (take 100 content)) eqn:E2; [split; [split|]; auto|].
  destruct (Nat.ltb_spec (length (py_strip content)) 50);
    [split; [split|]; auto|].
  destruct (Nat.ltb_spec n 3); [split; [split|]; auto 6|].
  split; [|auto]. split; [done|].
  intros [?|[?|[?|[?|?]]]]; subst; try done; lia.
Qed.

(** ** [fetch_markdown_url] *)

Section Fetch.
Context `{PyLib}.

Lemma count_gets_app a b : count_gets (a ++ b) = count_gets a + count_gets b.
Proof. unfold count_gets. by rewrite List.filter_app, length_app. Qed.

Lemma gets_le_ret {A} (a : A) : gets_le 0 (ret a).
Proof. intros w. exists []. by rewrite app_nil_r. Qed.

Lemma gets_le_raise {A} e : gets_le 0 (@raise A e).
Proof. intros w. exists []. by rewrite app_nil_r. Qed.

Lemma gets_le_weaken {A} n n' (m : M A) : n <= n' -> gets_le n m -> gets_le n' m.
Proof. intros Hn Hm w. destruct (Hm w) as (evs & ? & ?). exists evs. split; [done | lia]. Qed.

Lemma gets_le_bind {A B} a b (m : M A) (k : A -> M B) :
  gets_le a m -> (forall x, gets_le b (k x)) -> gets_le (a + b) (bind m k).
Proof.
  intros Hm Hk w. unfold bind.
  destruct (Hm w) as (e1 & Ht1 & Hc1). destruct (m w) as [[x|e] w1]; simpl in *.
  - destruct (Hk x w1) as (e2 & Ht2 & Hc2). exists (e1 ++ e2).
    rewrite Ht2, Ht1, app_assoc, count_gets_app. split; [done | lia].
  - exists e1. split; [done | lia].
Qed.

Lemma gets_le_catch {A} a b (m : M A) (h : exn -> M A) :
  gets_le a m -> (forall e, gets_le b (h e)) -> gets_le (a + b) (catch m h).
Proof.
  intros Hm Hh w. unfold catch.
  destruct (Hm w) as (e1 & Ht1 & Hc1). destruct (m w) as [[x|e] w1]; simpl in *.
  - exists e1. split; [done | lia].
  - destruct (Hh e w1) as (e2 & Ht2 & Hc2). exists (e1 ++ e2).
    rewrite Ht2, Ht1, app_assoc, count_gets_app. split; [done | lia].
Qed.

Lemma gets_le_session_get url : gets_le 1 (session_get url).
Proof.
  intros w. exists [EvGet url]. split; [|done].
  unfold session_get. simpl. by destruct (script w) as [|[|r] more].
Qed.

Lemma gets_le_sleep q : gets_le 0 (sleep q).
Proof.
  intros w. unfold sleep. destruct (Qle_bool 0 q).
  - by exists [EvSleep q].
  - exists []. by rewrite app_nil_r.
Qed.

Lemma gets_le_random : gets_le 0 random.
Proof.
  intros w. exists []. rewrite app_nil_r. unfold random.
  by destruct (randoms w).
Qed.

Lemma gets_le_of_option {A} e (o : option A) : gets_le 0 (of_option e o).
Proof. destruct o; [apply gets_le_ret | apply gets_le_raise]. Qed.

Lemma gets_le_of_result {A} (r : result A) : gets_le 0 (of_result r).
Proof. intros w. exists []. by rewrite app_nil_r. Qed.

Lemma gets_le_raise_for_status r : gets_le 0 (raise_for_status r).
Proof.
  unfold raise_for_status. destruct (_ && _); [apply gets_le_raise | apply gets_le_ret].
Qed.

Lemma gets_le_attempt_body f m o : gets_le 1 (attempt_body f m o).
Proof.
  unfold attempt_body. apply (gets_le_bind 1 0); [apply gets_le_session_get|].
  intros r. destruct (status_code r =? 429)%Z.
  - apply (gets_le_bind 0 0).
    + destruct (retry_after r); [apply gets_le_of_option | apply gets_le_ret].
    + intros n. apply (gets_le_bind 0 0); [apply gets_le_sleep|].
      intros _. apply gets_le_ret.
  - apply (gets_le_bind 0 0); [apply gets_le_raise_for_status|].
    intros _. apply (gets_le_bind 0 0); [apply gets_le_of_result|].
    intros _. apply gets_le_ret.
Qed.

Lemma gets_le_attempt_handler a e : gets_le 0 (attempt_handler a e).
Proof.
  destruct e; try apply gets_le_raise. cbn [attempt_handler].
  destruct (a <? MAX_RETRIES - 1); [|apply gets_le_raise].
  apply (gets_le_bind 0 0).
  - unfold uniform. apply (gets_le_bind 0 0); [apply gets_le_random|].
    intros r. apply gets_le_ret.
  - intros j. apply (gets_le_bind 0 0); [apply gets_le_sleep|].
    intros _. apply gets_le_ret.
Qed.

Lemma gets_le_fetch_attempts f m o attempts :
  gets_le (length attempts) (fetch_attempts f m o attempts).
Proof.
  induction attempts as [|a later IH]; [apply gets_le_ret|].
  cbn [fetch_attempts length]. apply (gets_le_bind 1 (length later)).
  - apply (gets_le_catch 1 0);
      [apply gets_le_attempt_body | apply gets_le_attempt_handler].
  - intros [|r]; [exact IH|].
    eapply gets_le_weaken; [|apply gets_le_ret]. lia.
Qed.

Lemma gets_le_fetch_markdown_url doc_url :
  gets_le MAX_RETRIES (fetch_markdown_url doc_url).
Proof.
  unfold fetch_markdown_url. destruct (normalize_doc_url doc_url) as [o m].
  apply (gets_le_bind 0 MAX_RETRIES); [apply gets_le_of_option|].
  intros f. apply (gets_le_fetch_attempts f m o (seq 0 MAX_RETRIES)).
Qed.

Lemma new_events_app w w' evs :
  trace w' = trace w ++ evs -> new_events w w' = evs.
Proof. unfold new_events. intros ->. by rewrite drop_app_length. Qed.

Lemma jitter_bounds r :
  (0 <= r)%Q -> (r < 1)%Q -> (1 # 2 <= jitter_of r)%Q /\ (jitter_of r <= 1)%Q.
Proof. unfold jitter_of. intros. split; lra. Qed.

Lemma backoff_delay_pos attempt : (0 < backoff_delay attempt)%Z.
Proof.
  unfold backoff_delay, RETRY_DELAY, MAX_RETRY_DELAY.
  assert (0 < 2 ^ Z.of_nat attempt)%Z by (apply Z.pow_pos_nonneg; lia). lia.
Qed.

Lemma draws_ok_next w :
  draws_ok w -> (0 <= next_draw w)%Q /\ (next_draw w < 1)%Q.
Proof.
  unfold draws_ok, next_draw. destruct (randoms w) as [|r more].
  - intros _. split; lra.
  - intros [Hr _]%Forall_cons. exact Hr.
Qed.

Lemma backoff_sleep_ok attempt r :
  (0 <= r)%Q -> (r < 1)%Q ->
  Qle_bool 0 (inject_Z (backoff_delay attempt) * jitter_of r) = true.
Proof.
  intros H0 H1. apply Qle_bool_iff.
  destruct (jitter_bounds r H0 H1) as [Hj _].
  apply Qmult_le_0_compat; [|lra].
  change 0%Q with (inject_Z 0). rewrite <- Zle_Qle.
  pose proof (backoff_delay_pos attempt). lia.
Qed.

Lemma draws_ok_after_attempt m q b w :
  draws_ok w -> draws_ok (after_attempt m q b w).
Proof.
  unfold draws_ok, after_attempt. simpl. destruct b; [|done].
  destruct (randoms w) as [|r more]; simpl; [done|].
  by intros [_ ?]%Forall_cons.
Qed.

(** One pass of the loop that meets a request failure before the last
    attempt: it sleeps and goes on. *)
Lemma attempt_backoff f m o attempt w :
  draws_ok w -> next_request_fails w -> attempt < MAX_RETRIES - 1 ->
  catch (attempt_body f m o) (attempt_handler attempt) w =
  (Ok Continue,
   after_attempt m (inject_Z (backoff_delay attempt) * jitter_of (next_draw w))
                 true w).
Proof.
  intros Hd Hf Ha. apply Nat.ltb_lt in Ha.
  destruct (draws_ok_next w Hd) as [H0 H1].
  pose proof (backoff_sleep_ok attempt _ H0 H1) as Hs.
  unfold next_request_fails in Hf. unfold next_draw in *.
  unfold catch, attempt_body, bind, session_get, after_attempt.
  destruct w as [sc rs ck el es ot rf sk tr]; simpl in *.
  destruct sc as [|[|r] more]; simpl.
  - rewrite Ha. unfold uniform, bind, random, sleep, ret, jitter_of in *; simpl.
    destruct rs as [|r0 rs]; simpl; rewrite Hs; unfold log; simpl;
      by rewrite <- app_assoc.
  - rewrite Ha. unfold uniform, bind, random, sleep, ret, jitter_of in *; simpl.
    destruct rs as [|r0 rs]; simpl; rewrite Hs; unfold log; simpl;
      by rewrite <- app_assoc.
  - destruct Hf as [H429 [Hlo Hhi]].
    apply Z.eqb_neq in H429. rewrite H429.
    unfold raise_for_status, raise.
    apply Z.leb_le in Hlo. apply Z.ltb_lt in Hhi. rewrite Hlo, Hhi. simpl.
    rewrite Ha. unfold uniform, bind, random, sleep, ret, jitter_of in *; simpl.
    destruct rs as [|r0 rs]; simpl; rewrite Hs; unfold log; simpl;
      by rewrite <- app_assoc.
Qed.

(** The pass of the last attempt that meets a request failure raises. *)
Lemma attempt_gives_up f m o attempt w :
  next_request_fails w -> MAX_RETRIES - 1 <= attempt ->
  catch (attempt_body f m o) (attempt_handler attempt) w =
  (Raise FetchFailed,
   MkWorld (tail (script w)) (randoms w) (clock w) (env_llms w)
           (env_sitemap w) (others w) (refs w) (skill_md w) (trace w ++ [EvGet m])).
Proof.
  intros Hf Ha. apply Nat.ltb_ge in Ha.
  unfold next_request_fails in Hf.
  unfold catch, attempt_body, bind, session_get.
  destruct w as [sc rs ck el es ot rf sk tr]; simpl in *.
  destruct sc as [|[|r] more]; simpl; try by rewrite Ha.
  destruct Hf as [H429 [Hlo Hhi]].
  apply Z.eqb_neq in H429. rewrite H429.
  unfold raise_for_status, raise.
  apply Z.leb_le in Hlo. apply Z.ltb_lt in Hhi. rewrite Hlo, Hhi. simpl.
  by rewrite Ha.
Qed.

(** One pass that meets a 429: it sleeps for [Retry-After] seconds, 60
    if the header is absent, and goes on; no handler runs. *)
Lemma attempt_rate_limited f m o attempt out more w :
  script w = out :: more -> rate_limited out ->
  catch (attempt_body f m o) (attempt_handler attempt) w =
  (Ok Continue, after_attempt m (inject_Z (wait_time_of out)) false w).
Proof.
  intros Hs Hr.
  unfold catch, attempt_body, bind, session_get, after_attempt.
  destruct w as [sc rs ck el es ot rf sk tr]; simpl in *. subst sc.
  destruct out as [|[st ra tx xm]]; [done|]. simpl in *.
  destruct Hr as [-> Hra]. simpl.
  destruct ra as [v|].
  - destruct Hra as (n & Hn & Hpos). rewrite Hn. simpl.
    unfold sleep, ret, log. simpl.
    assert (Qle_bool 0 (inject_Z n) = true) as ->.
    { apply Qle_bool_iff. change 0%Q with (inject_Z 0). by rewrite <- Zle_Qle. }
    simpl. by rewrite <- app_assoc.
  - unfold sleep, ret, log. simpl. by rewrite <- app_assoc.
Qed.

(** C1. [fetch_markdown_url] makes at most [MAX_RETRIES] = 3 requests.
    A pass that meets a [RequestException] before the last attempt sleeps
    for [min(RETRY_DELAY * 2^attempt, MAX_RETRY_DELAY)] times a jitter
    factor between 1/2 and 1 and goes on with the next attempt.  When
    three requests fail in a row the function raises: it returns no
    result, and what it did is request, sleep, request, sleep, request. *)
Theorem fetch_markdown_url_retries (doc_url : str) (w : World) :
  draws_ok w ->
  count_gets (new_events w (fetch_markdown_url doc_url w).2) <= MAX_RETRIES
  /\ MAX_RETRIES = 3
  /\ (forall f m o attempt later w1,
        draws_ok w1 -> next_request_fails w1 -> attempt < MAX_RETRIES - 1 ->
        let j := jitter_of (next_draw w1) in
        (1 # 2 <= j)%Q /\ (j <= 1)%Q /\
        backoff_delay attempt
          = Z.min (RETRY_DELAY * 2 ^ Z.of_nat attempt) MAX_RETRY_DELAY /\
        fetch_attempts f m o (attempt :: later) w1 =
        fetch_attempts f m o later
          (after_attempt m (inject_Z (backoff_delay attempt) * j) true w1))
  /\ (forall o1 o2 o3 more,
        script w = o1 :: o2 :: o3 :: more ->
        request_fails o1 -> request_fails o2 -> request_fails o3 ->
        (exists e, (fetch_markdown_url doc_url w).1 = Raise e)
        /\ (is_Some (url_to_safe_filename (normalize_doc_url doc_url).1) ->
            exists j0 j1,
              (1 # 2 <= j0)%Q /\ (j0 <= 1)%Q /\ (1 # 2 <= j1)%Q /\ (j1 <= 1)%Q /\
              (fetch_markdown_url doc_url w).1 = Raise FetchFailed /\
              new_events w (fetch_markdown_url doc_url w).2 =
                [EvGet (normalize_doc_url doc_url).2; EvSleep (2 * j0);
                 EvGet (normalize_doc_url doc_url).2; EvSleep (4 * j1);
                 EvGet (normalize_doc_url doc_url).2])).
Proof.
  intros Hd. split; [|split; [reflexivity|split]].
  - destruct (gets_le_fetch_markdown_url doc_url w) as (evs & Ht & Hc).
    by rewrite (new_events_app _ _ _ Ht).
  - intros f m o attempt later w1 Hd1 Hf Ha. cbv zeta.
    destruct (draws_ok_next w1 Hd1) as [H0 H1].
    destruct (jitter_bounds _ H0 H1) as [Hlo Hhi].
    split; [done|]. split; [done|]. split; [done|].
    cbn [fetch_attempts]. unfold bind at 1.
    by rewrite (attempt_backoff f m o attempt w1 Hd1 Hf Ha).
  - intros o1 o2 o3 more Hs F1 F2 F3.
    assert (Hfm : fetch_markdown_url doc_url w =
                  match url_to_safe_filename (normalize_doc_url doc_url).1 with
                  | Some f => fetch_attempts f (normalize_doc_url doc_url).2
                                (normalize_doc_url doc_url).1 [0; 1; 2] w
                  | None => (Raise ValueError, w)
                  end).
    { unfold fetch_markdown_url. destruct (normalize_doc_url doc_url) as [o m].
      cbn [fst snd]. by destruct (url_to_safe_filename o). }
    rewrite Hfm. clear Hfm.
    destruct (normalize_doc_url doc_url) as [o m] eqn:Hn. cbn [fst snd].
    destruct (url_to_safe_filename o) as [f|] eqn:Hfn.
    2:{ split; [by exists ValueError | by intros [? ?]]. }
    set (w1 := after_attempt m (inject_Z (backoff_delay 0) * jitter_of (next_draw w))
                             true w).
    set (w2 := after_attempt m (inject_Z (backoff_delay 1) * jitter_of (next_draw w1))
                             true w1).
    assert (Hf0 : next_request_fails w) by (unfold next_request_fails; by rewrite Hs).
    assert (Hd1 : draws_ok w1) by by apply draws_ok_after_attempt.
    assert (Hf1 : next_request_fails w1).
    { unfold next_request_fails, w1, after_attempt. simpl. by rewrite Hs. }
    assert (Hd2 : draws_ok w2) by by apply draws_ok_after_attempt.
    assert (Hf2 : next_request_fails w2).
    { unfold next_request_fails, w2, w1, after_attempt. simpl. by rewrite Hs. }
    assert (Hrun : fetch_attempts f m o [0; 1; 2] w =
                   (Raise FetchFailed,
                    MkWorld (tail (script w2)) (randoms w2) (clock w2) (env_llms w2)
                            (env_sitemap w2) (others w2) (refs w2) (skill_md w2)
                            (trace w2 ++ [EvGet m]))).
    { cbn [fetch_attempts]. unfold bind at 1.
      rewrite (attempt_backoff f m o 0 w Hd Hf0) by (unfold MAX_RETRIES; lia).
      fold w1. unfold bind at 1.
      rewrite (attempt_backoff f m o 1 w1 Hd1 Hf1) by (unfold MAX_RETRIES; lia).
      fold w2. unfold bind at 1.
      by rewrite (attempt_gives_up f m o 2 w2 Hf2) by (unfold MAX_RETRIES; lia). }
    rewrite Hrun. cbn [fst snd]. split; [by exists FetchFailed|]. intros _.
    destruct (draws_ok_next w Hd) as [Ha0 Ha1].
    destruct (draws_ok_next w1 Hd1) as [Hb0 Hb1].
    destruct (jitter_bounds _ Ha0 Ha1) as [? ?].
    destruct (jitter_bounds _ Hb0 Hb1) as [? ?].
    exists (jitter_of (next_draw w)), (jitter_of (next_draw w1)).
    repeat (split; [done|]).
    apply new_events_app. unfold w2, w1, after_attempt. simpl.
    by rewrite <- !app_assoc.
Qed.

(** C2. When each of the three attempts meets a 429 (with a
    [Retry-After] that is absent or a non-negative integer) the loop runs
    out through its [continue]: nothing is raised and the function
    returns [None], after three requests and three sleeps. *)
Theorem fetch_markdown_url_returns_none (doc_url filename : str) (w : World)
    (o1 o2 o3 : outcome) (more : list outcome) :
  url_to_safe_filename (normalize_doc_url doc_url).1 = Some filename ->
  script w = o1 :: o2 :: o3 :: more ->
  rate_limited o1 -> rate_limited o2 -> rate_limited o3 ->
  (fetch_markdown_url doc_url w).1 = Ok None
  /\ new_events w (fetch_markdown_url doc_url w).2 =
       [EvGet (normalize_doc_url doc_url).2; EvSleep (inject_Z (wait_time_of o1));
        EvGet (normalize_doc_url doc_url).2; EvSleep (inject_Z (wait_time_of o2));
        EvGet (normalize_doc_url doc_url).2; EvSleep (inject_Z (wait_time_of o3))].
Proof.
  intros Hfn Hs R1 R2 R3.
  assert (Hfm : fetch_markdown_url doc_url w =
                fetch_attempts filename (normalize_doc_url doc_url).2
                  (normalize_doc_url doc_url).1 [0; 1; 2] w).
  { unfold fetch_markdown_url. destruct (normalize_doc_url doc_url) as [o m].
    cbn [fst snd] in *. by rewrite Hfn. }
  rewrite Hfm. clear Hfm.
  destruct (normalize_doc_url doc_url) as [o m]. cbn [fst snd] in *.
  set (w1 := after_attempt m (inject_Z (wait_time_of o1)) false w).
  set (w2 := after_attempt m (inject_Z (wait_time_of o2)) false w1).
  set (w3 := after_attempt m (inject_Z (wait_time_of o3)) false w2).
  assert (Hrun : fetch_attempts filename m o [0; 1; 2] w = (Ok None, w3)).
  { cbn [fetch_attempts]. unfold bind at 1.
    rewrite (attempt_rate_limited filename m o 0 o1 (o2 :: o3 :: more) w Hs R1).
    fold w1. unfold bind at 1.
    rewrite (attempt_rate_limited filename m o 1 o2 (o3 :: more) w1) by
      (try done; unfold w1, after_attempt; simpl; by rewrite Hs).
    fold w2. unfold bind at 1.
    rewrite (attempt_rate_limited filename m o 2 o3 more w2) by
      (try done; unfold w2, w1, after_attempt; simpl; by rewrite Hs).
    done. }
  rewrite Hrun. split; [done|].
  apply new_events_app. unfold w3, w2, w1, after_attempt. simpl.
  by rewrite <- !app_assoc.
Qed.

End Fetch.

Lemma fetch_markdown_url_retries_witness :
  draws_ok Demo.failing
  /\ count_gets (new_events Demo.failing
                   (fetch_markdown_url (H := Demo.lib) Demo.url Demo.failing).2)
     <= MAX_RETRIES
  /\ (fetch_markdown_url (H := Demo.lib) Demo.url Demo.failing).1 = Raise FetchFailed.
Proof.
  assert (Hd : draws_ok Demo.failing).
  { apply List.Forall_cons; [split; lra|].
    apply List.Forall_cons; [split; lra|]. apply List.Forall_nil. }
  split; [exact Hd|].
  destruct (fetch_markdown_url_retries (H := Demo.lib) Demo.url Demo.failing Hd)
    as (Hgets & _ & _ & Hraise).
  split; [exact Hgets|].
  destruct (Hraise RequestFails Demo.error_500 RequestFails [] eq_refl)
    as (_ & Hrun); [exact I | by vm_compute | exact I |].
  destruct Hrun as (j0 & j1 & _ & _ & _ & _ & Hres & _); [by eexists|].
  exact Hres.
Defined.

Lemma fetch_markdown_url_returns_none_witness :
  (fetch_markdown_url (H := Demo.lib) Demo.url Demo.limited).1 = Ok None
  /\ count_gets (new_events Demo.limited
                   (fetch_markdown_url (H := Demo.lib) Demo.url Demo.limited).2) = 3.
Proof.
  destruct (fetch_markdown_url_returns_none (H := Demo.lib) Demo.url
              (lit "hooks.md") Demo.limited
              (Demo.too_many None) (Demo.too_many (Some (lit "5")))
              (Demo.too_many None) [])
    as (Hres & Hev).
  - reflexivity.
  - reflexivity.
  - by split.
  - split; [done|]. exists 5%Z. by split.
  - by split.
  - split; [exact Hres|]. rewrite Hev. reflexivity.
Defined.

(** ** Sorting *)

Lemma str_leb_refl a : str_leb a a = true.
Proof.
  induction a as [|x a IH]; [done|]. simpl.
  by rewrite N.ltb_irrefl, N.eqb_refl.
Qed.

Lemma code_inj x y : code x = code y -> x = y.
Proof.
  unfold code. intros E.
  by rewrite <- (ascii_N_embedding x), <- (ascii_N_embedding y), E.
Qed.

#[global] Instance str_le_total : Total str_le.
Proof.
  unfold Total, str_le. intros a. induction a as [|x a IH]; intros [|y b]; simpl; auto.
  destruct (N.ltb_spec (code x) (code y)); [by left|].
  destruct (N.ltb_spec (code y) (code x)); [by right|].
  assert (code x = code y) as E by lia.
  rewrite E, N.eqb_refl. apply IH.
Qed.

#[global] Instance str_le_trans : Transitive str_le.
Proof.
  unfold Transitive, str_le. intros a.
  induction a as [|x a IH]; intros [|y b] [|z c]; simpl; try done.
  destruct (N.ltb_spec (code x) (code y)), (N.ltb_spec (code y) (code z)),
    (N.ltb_spec (code x) (code z)); try done; try lia;
    destruct (N.eqb_spec (code x) (code y)), (N.eqb_spec (code y) (code z)),
      (N.eqb_spec (code x) (code z)); try done; try lia.
  apply IH.
Qed.

#[global] Instance str_le_antisym : AntiSymm (=) str_le.
Proof.
  unfold AntiSymm, str_le. intros a.
  induction a as [|x a IH]; intros [|y b]; cbn [str_leb]; try done.
  destruct (N.ltb_spec (code x) (code y)) as [Hlt|Hge].
  - intros _. destruct (N.ltb_spec (code y) (code x)); [lia|].
    destruct (N.eqb_spec (code y) (code x)); [lia|done].
  - destruct (N.eqb_spec (code x) (code y)) as [E|]; [|done].
    rewrite E, N.ltb_irrefl, N.eqb_refl. intros Hab Hba.
    f_equal; [by apply code_inj | by apply IH].
Qed.

Lemma py_sorted_sorted names : Sorted str_le (py_sorted names).
Proof. apply Sorted_merge_sort; apply _. Qed.

Lemma py_sorted_perm names : py_sorted names ≡ₚ names.
Proof. apply merge_sort_Permutation. Qed.

Lemma sorted_set_elem_of names x : x ∈ sorted_set names <-> x ∈ names.
Proof.
  unfold sorted_set. rewrite py_sorted_perm. apply elem_of_remove_dups.
Qed.

Lemma sorted_set_listing names :
  Forall (fun url => is_agent_sdk_url url = true) names ->
  listing (sorted_set names).
Proof.
  intros Hall. split; [|split].
  - rewrite Forall_forall in Hall. apply Forall_forall.
    intros x Hx. apply Hall. by apply (proj1 (sorted_set_elem_of _ _)).
  - apply py_sorted_sorted.
  - unfold sorted_set. rewrite py_sorted_perm. apply NoDup_remove_dups.
Qed.

Lemma listing_nil : listing [].
Proof. split; [|split]; constructor. Qed.

(** ** URL discovery *)

Section Discover.
Context `{PyLib}.

Lemma parse_llms_line_agent base line url :
  parse_llms_line base line = Some url -> is_agent_sdk_url url = true.
Proof.
  unfold parse_llms_line. destruct (py_strip line) as [|c l]; [done|].
  destruct (startswith (lit "#") (c :: l)); [done|].
  set (l1 := if startswith (lit "-") (c :: l) then _ else _).
  set (l2 := if startswith (lit "/") l1 then _ else _).
  destruct (startswith (lit "http") l2); [|done]. simpl.
  destruct (is_agent_sdk_url l2) eqn:E; [|done]. by intros [= <-].
Qed.

Lemma parse_llms_txt_agent content base :
  Forall (fun url => is_agent_sdk_url url = true) (parse_llms_txt content base).
Proof.
  apply Forall_forall. intros url Hurl. unfold parse_llms_txt in Hurl.
  apply list_elem_of_omap in Hurl as (line & _ & Hline).
  by apply parse_llms_line_agent in Hline.
Qed.

Lemma try_llms_url_listing llms_url : finds_listing (try_llms_url llms_url).
Proof.
  intros w. unfold catch, try_llms_url, bind.
  destruct (session_get llms_url w) as [[resp|e] w1]; [|by exists None, w1].
  destruct (negb _); [by exists None, w1|].
  destruct (urlparse_base llms_url) as [base|]; [|by exists None, w1]. simpl.
  pose proof (parse_llms_txt_agent (text resp) base) as Hall.
  destruct (parse_llms_txt (text resp) base) as [|u urls] eqn:E;
    [by exists None, w1|].
  exists (Some (sorted_set (u :: urls))), w1. split; [done|].
  split; [by apply sorted_set_listing|].
  intros Hnil. assert (Hu : u ∈ sorted_set (u :: urls)).
  { apply sorted_set_elem_of. left. }
  rewrite Hnil in Hu. by apply elem_of_nil in Hu.
Qed.

Lemma filter_agent urls :
  Forall (fun url => is_agent_sdk_url url = true) (List.filter is_agent_sdk_url urls).
Proof.
  apply Forall_forall. intros url Hurl%list_elem_of_In.
  by apply List.filter_In in Hurl as [_ ?].
Qed.

Lemma try_sitemap_url_listing sitemap_url :
  finds_listing (try_sitemap_url sitemap_url).
Proof.
  intros w. unfold catch, try_sitemap_url, bind.
  destruct (fetch_sitemap_urls recursion_limit sitemap_url ∅ w)
    as [[[urls seen]|e] w1]; [|by exists None, w1].
  destruct urls as [|u0 urls0]; [by exists None, w1|].
  pose proof (filter_agent (u0 :: urls0)) as Hall.
  destruct (List.filter is_agent_sdk_url (u0 :: urls0)) as [|u urls] eqn:E;
    [by exists None, w1|].
  exists (Some (sorted_set (u :: urls))), w1. split; [done|].
  split; [by apply sorted_set_listing|].
  intros Hnil. assert (Hu : u ∈ sorted_set (u :: urls)).
  { apply sorted_set_elem_of. left. }
  rewrite Hnil in Hu. by apply elem_of_nil in Hu.
Qed.

Lemma discover_llms_loop_listing llms_urls w :
  exists urls w', discover_llms_loop llms_urls w = (Ok urls, w') /\ listing urls.
Proof.
  revert w. induction llms_urls as [|u more IH]; intros w.
  - exists [], w. split; [done | apply listing_nil].
  - cbn [discover_llms_loop]. destruct u as [|c u]; [apply IH|].
    unfold bind at 1.
    destruct (try_llms_url_listing (c :: u) w) as (found & w1 & -> & Hfound).
    destruct found as [urls|]; [|apply IH].
    exists urls, w1. split; [done | apply Hfound].
Qed.

Lemma discover_sitemap_loop_listing sitemap_urls w :
  exists urls w', discover_sitemap_loop sitemap_urls w = (Ok urls, w') /\ listing urls.
Proof.
  revert w. induction sitemap_urls as [|u more IH]; intros w.
  - exists [], w. split; [done | apply listing_nil].
  - cbn [discover_sitemap_loop]. destruct u as [|c u]; [apply IH|].
    unfold bind at 1.
    destruct (try_sitemap_url_listing (c :: u) w) as (found & w1 & -> & Hfound).
    destruct found as [urls|]; [|apply IH].
    exists urls, w1. split; [done | apply Hfound].
Qed.

(** [discover_doc_urls] always returns, and never the empty list. *)
Lemma discover_doc_urls_total (w : World) :
  exists urls w1, discover_doc_urls w = (Ok urls, w1) /\ urls <> [].
Proof.
  unfold discover_doc_urls, bind.
  destruct (discover_llms_loop_listing (with_env (env_llms w) LLMS_URLS) w)
    as (l & w1 & Hl & _).
  change (discover_pages_from_llms w) with
    (discover_llms_loop (with_env (env_llms w) LLMS_URLS) w).
  rewrite Hl. destruct l as [|u l]; [|by eexists _, _].
  destruct (discover_sitemap_loop_listing (with_env (env_sitemap w1) SITEMAP_URLS) w1)
    as (s & w2 & Hs & _).
  change (discover_pages_from_sitemap w1) with
    (discover_sitemap_loop (with_env (env_sitemap w1) SITEMAP_URLS) w1).
  rewrite Hs. destruct s as [|u s]; by eexists _, _.
Qed.

(** C3. [discover_doc_urls] returns what the page list ([llms.txt])
    gives when that is not empty, otherwise what the sitemap gives when
    that is not empty, otherwise the static list.  Neither source raises,
    and what either gives is a listing: every URL has an Agent SDK path
    marker, and the list is sorted and free of duplicates. *)
Theorem discover_doc_urls_order (w : World) :
  exists from_llms w1,
    discover_pages_from_llms w = (Ok from_llms, w1)
    /\ listing from_llms
    /\ match from_llms with
       | _ :: _ => discover_doc_urls w = (Ok from_llms, w1)
       | [] =>
           exists from_sitemap w2,
             discover_pages_from_sitemap w1 = (Ok from_sitemap, w2)
             /\ listing from_sitemap
             /\ match from_sitemap with
                | _ :: _ => discover_doc_urls w = (Ok from_sitemap, w2)
                | [] => discover_doc_urls w = (Ok get_fallback_pages, w2)
                end
       end.
Proof.
  destruct (discover_llms_loop_listing (with_env (env_llms w) LLMS_URLS) w)
    as (l & w1 & Hl & Hlist).
  exists l, w1. split; [exact Hl|]. split; [exact Hlist|].
  unfold discover_doc_urls, bind.
  change (discover_pages_from_llms w) with
    (discover_llms_loop (with_env (env_llms w) LLMS_URLS) w).
  rewrite Hl. destruct l as [|u l]; [|done].
  destruct (discover_sitemap_loop_listing (with_env (env_sitemap w1) SITEMAP_URLS) w1)
    as (s & w2 & Hs & Hslist).
  exists s, w2.
  change (discover_pages_from_sitemap w1) with
    (discover_sitemap_loop (with_env (env_sitemap w1) SITEMAP_URLS) w1).
  rewrite Hs. split; [done|]. split; [exact Hslist|]. by destruct s.
Qed.

End Discover.

(** ** [validate_skill_md] *)

Lemma py_sorted_elements (X : gset str) : sorted_list_of X (py_sorted (elements X)).
Proof.
  split; [apply py_sorted_sorted|]. split.
  - rewrite py_sorted_perm. apply NoDup_elements.
  - intros x. rewrite py_sorted_perm. apply elem_of_elements.
Qed.

Lemma py_sorted_elem_of (X : gset str) x : x ∈ py_sorted (elements X) <-> x ∈ X.
Proof. by rewrite py_sorted_perm, elem_of_elements. Qed.

(** A sorted list without duplicates is determined by its members. *)
Lemma sorted_list_of_unique X l1 l2 :
  sorted_list_of X l1 -> sorted_list_of X l2 -> l1 = l2.
Proof.
  intros (S1 & N1 & M1) (S2 & N2 & M2).
  apply (Sorted_unique str_le); [done..|].
  apply NoDup_Permutation; [done..|]. intros x. by rewrite M1, M2.
Qed.

(** C6. For every set of fetched files, [orphaned] is the sorted list of
    the files referenced in [SKILL.md] that are neither fetched, nor the
    manifest, nor custom; [unreferenced] is the sorted list of the fetched
    files that are neither referenced nor the manifest (custom files are
    kept in it); [custom] is the sorted list of the referenced custom
    files. *)
Theorem validate_skill_md_sets (fetched_files : gset str) (w : World) :
  let referenced := get_skill_md_references w in
  let v := validate_skill_md fetched_files w in
  sorted_list_of (referenced ∖ fetched_files ∖ {[ MANIFEST_FILE ]} ∖ CUSTOM_FILES)
                 (orphaned v)
  /\ sorted_list_of (fetched_files ∖ referenced ∖ {[ MANIFEST_FILE ]})
                    (unreferenced v)
  /\ sorted_list_of (referenced ∩ CUSTOM_FILES) (custom v)
  /\ (forall x, x ∈ unreferenced v <->
                x ∈ fetched_files /\ (x ∉ referenced) /\ x <> MANIFEST_FILE)
  /\ (forall x, x ∈ orphaned v <->
                x ∈ referenced /\ (x ∉ fetched_files) /\ x <> MANIFEST_FILE
                /\ (x ∉ CUSTOM_FILES)).
Proof.
  cbv zeta. unfold validate_skill_md. cbn [orphaned unreferenced custom].
  split; [apply py_sorted_elements|].
  split; [apply py_sorted_elements|].
  split; [apply py_sorted_elements|].
  split; intros x; rewrite py_sorted_elem_of; set_solver.
Qed.

(** ** [cleanup_old_files] *)












(** ** [fetch_docs] *)

Section FetchDocs.
Context `{PyLib}.

Lemma network_only_ret {A} (a : A) : network_only (ret a).
Proof. intros w. split; [done|]. exists []. by rewrite app_nil_r. Qed.

Lemma network_only_raise {A} e : network_only (@raise A e).
Proof. intros w. split; [done|]. exists []. by rewrite app_nil_r. Qed.

Lemma network_only_bind {A B} (m : M A) (k : A -> M B) :
  network_only m -> (forall x, network_only (k x)) -> network_only (bind m k).
Proof.
  intros Hm Hk w. unfold bind.
  destruct (Hm w) as (Hr1 & e1 & Ht1 & Hn1).
  destruct (m w) as [[x|e] w1]; simpl in *.
  - destruct (Hk x w1) as (Hr2 & e2 & Ht2 & Hn2).
    split; [congruence|]. exists (e1 ++ e2).
    rewrite Ht2, Ht1, app_assoc. split; [done | by apply Forall_app].
  - split; [done|]. by exists e1.
Qed.

Lemma network_only_catch {A} (m : M A) (h : exn -> M A) :
  network_only m -> (forall e, network_only (h e)) -> network_only (catch m h).
Proof.
  intros Hm Hh w. unfold catch.
  destruct (Hm w) as (Hr1 & e1 & Ht1 & Hn1).
  destruct (m w) as [[x|e] w1]; simpl in *.
  - split; [done|]. by exists e1.
  - destruct (Hh e w1) as (Hr2 & e2 & Ht2 & Hn2).
    split; [congruence|]. exists (e1 ++ e2).
    rewrite Ht2, Ht1, app_assoc. split; [done | by apply Forall_app].
Qed.

Lemma network_only_session_get url : network_only (session_get url).
Proof.
  intros w. unfold session_get. simpl.
  destruct (script w) as [|[|r] more]; simpl;
    (split; [done|]; exists [EvGet url]; split; [done|];
     by apply Forall_singleton).
Qed.

Lemma network_only_sleep q : network_only (sleep q).
Proof.
  intros w. unfold sleep. destruct (Qle_bool 0 q); simpl.
  - split; [done|]. exists [EvSleep q]. split; [done|]. by apply Forall_singleton.
  - split; [done|]. exists []. by rewrite app_nil_r.
Qed.

Lemma network_only_random : network_only random.
Proof.
  intros w. unfold random.
  destruct (randoms w); simpl; (split; [done|]; exists []; by rewrite app_nil_r).
Qed.

Lemma network_only_now : network_only now.
Proof. intros w. simpl. split; [done|]. exists []. by rewrite app_nil_r. Qed.

Lemma network_only_of_option {A} e (o : option A) : network_only (of_option e o).
Proof. destruct o; [apply network_only_ret | apply network_only_raise]. Qed.

Lemma network_only_of_result {A} (r : result A) : network_only (of_result r).
Proof. intros w. split; [done|]. exists []. by rewrite app_nil_r. Qed.

Lemma network_only_raise_for_status r : network_only (raise_for_status r).
Proof.
  unfold raise_for_status.
  destruct (_ && _); [apply network_only_raise | apply network_only_ret].
Qed.

(** A computation whose steps are all [network_only]. *)
Ltac network_only :=
  repeat first
    [ apply network_only_ret | apply network_only_raise
    | apply network_only_session_get | apply network_only_sleep
    | apply network_only_random | apply network_only_now
    | apply network_only_of_option | apply network_only_of_result
    | apply network_only_raise_for_status
    | apply network_only_bind; [|intros ?]
    | apply network_only_catch; [|intros ?]
    | progress assumption
    | match goal with
      | |- network_only (match ?x with _ => _ end) => destruct x
      | |- network_only (if ?x then _ else _) => destruct x
      end ].

Lemma network_only_attempt_body f m o : network_only (attempt_body f m o).
Proof. unfold attempt_body. network_only. Qed.

Lemma network_only_attempt_handler a e : network_only (attempt_handler a e).
Proof. unfold attempt_handler, uniform. network_only. Qed.

Lemma network_only_fetch_attempts f m o attempts :
  network_only (fetch_attempts f m o attempts).
Proof.
  induction attempts as [|a later IH]; cbn [fetch_attempts]; [network_only|].
  apply network_only_bind.
  - apply network_only_catch;
      [apply network_only_attempt_body | apply network_only_attempt_handler].
  - intros [|r]; [exact IH | network_only].
Qed.

Lemma network_only_fetch_markdown_url doc_url :
  network_only (fetch_markdown_url doc_url).
Proof.
  unfold fetch_markdown_url. destruct (normalize_doc_url doc_url) as [o m].
  apply network_only_bind; [network_only|].
  intros f. apply network_only_fetch_attempts.
Qed.

Lemma network_only_try_llms_url u : network_only (try_llms_url u).
Proof. unfold try_llms_url. network_only. Qed.

Lemma network_only_discover_llms_loop urls : network_only (discover_llms_loop urls).
Proof.
  induction urls as [|u more IH]; cbn [discover_llms_loop]; [network_only|].
  destruct u as [|c u]; [exact IH|].
  apply network_only_bind.
  - apply network_only_catch; [apply network_only_try_llms_url | network_only].
  - intros [urls|]; [network_only | exact IH].
Qed.

Lemma network_only_sitemap_index_loop visit locs urls seen :
  (forall loc s, network_only (visit loc s)) ->
  network_only (sitemap_index_loop visit locs urls seen).
Proof.
  intros Hvisit. revert urls seen.
  induction locs as [|loc more IH]; intros urls seen; cbn [sitemap_index_loop];
    [network_only|].
  destruct (nonempty loc); [|apply IH].
  apply network_only_bind; [apply Hvisit|]. intros [found seen']. apply IH.
Qed.

Lemma network_only_fetch_sitemap_urls depth sitemap_url seen :
  network_only (fetch_sitemap_urls depth sitemap_url seen).
Proof.
  revert sitemap_url seen.
  induction depth as [|depth IH]; intros sitemap_url seen;
    cbn [fetch_sitemap_urls]; [network_only|].
  destruct (bool_decide _); [network_only|].
  apply network_only_bind; [network_only|]. intros resp.
  apply network_only_bind; [network_only|]. intros _.
  apply network_only_bind; [network_only|]. intros root.
  destruct (contains _ _); [|network_only].
  apply network_only_sitemap_index_loop. exact IH.
Qed.

Lemma network_only_try_sitemap_url u : network_only (try_sitemap_url u).
Proof.
  unfold try_sitemap_url.
  apply network_only_bind; [apply network_only_fetch_sitemap_urls|].
  intros [urls seen]. network_only.
Qed.

Lemma network_only_discover_sitemap_loop urls :
  network_only (discover_sitemap_loop urls).
Proof.
  induction urls as [|u more IH]; cbn [discover_sitemap_loop]; [network_only|].
  destruct u as [|c u]; [exact IH|].
  apply network_only_bind.
  - apply network_only_catch; [apply network_only_try_sitemap_url | network_only].
  - intros [urls|]; [network_only | exact IH].
Qed.

Lemma network_only_discover_doc_urls : network_only discover_doc_urls.
Proof.
  unfold discover_doc_urls. apply network_only_bind.
  - intros w. apply network_only_discover_llms_loop.
  - intros [|u urls]; [|network_only].
    apply network_only_bind.
    + intros w. apply network_only_discover_sitemap_loop.
    + intros [|u urls]; network_only.
Qed.

(** [load_manifest] returns, and leaves the world as it is. *)
Lemma load_manifest_total w : exists old, load_manifest w = (Ok old, w).
Proof.
  unfold load_manifest. destruct (refs w !! MANIFEST_FILE) as [content|];
    [destruct (json_loads content) as [m|];
     [destruct (has_files m) as [[|]|]|]|]; eauto.
Qed.

Lemma network_only_load_manifest : network_only load_manifest.
Proof.
  intros w. destruct (load_manifest_total w) as [old ->].
  split; [done|]. exists []. by rewrite app_nil_r.
Qed.

Lemma last_write_app name a b :
  last_write name (a ++ b) =
  match last_write name b with
  | Some content => Some content
  | None => last_write name a
  end.
Proof.
  induction a as [|e a IH]; simpl.
  - by destruct (last_write name b).
  - rewrite IH. by destruct (last_write name b).
Qed.

Lemma last_write_network name evs :
  Forall is_network evs -> last_write name evs = None.
Proof.
  induction 1 as [|e evs He _ IH]; [done|]. simpl. rewrite IH.
  by destruct e.
Qed.

Lemma network_no_write evs name content :
  Forall is_network evs -> EvWrite name content ∉ evs.
Proof.
  intros Hall Hin. rewrite Forall_forall in Hall. by apply Hall in Hin.
Qed.

Lemma network_no_unlink evs :
  Forall is_network evs -> Forall (fun e => ~ is_unlink e) evs.
Proof.
  intros Hall. eapply Forall_impl; [exact Hall|].
  intros e He Hu. destruct e; simpl in *; done.
Qed.

(** The filename that [fetch_markdown_url] returns is the one computed
    before the loop. *)
Lemma attempt_returns_filename f m o a w f' c o' w1 :
  catch (attempt_body f m o) (attempt_handler a) w = (Ok (Return (f', c, o')), w1) ->
  f' = f.
Proof.
  unfold catch, attempt_body, attempt_handler, bind, uniform, bind.
  destruct (session_get m w) as [[r|e] w0].
  - destruct (status_code r =? 429)%Z.
    + destruct (match retry_after r with
                | Some value => of_option ValueError (py_int value)
                | None => ret 60%Z
                end w0) as [[n|e] w2].
      * destruct (sleep (inject_Z n) w2) as [[[]|e] w3]; [done|].
        destruct e; try done.
        destruct (a <? MAX_RETRIES - 1); [|done].
        destruct (random w3) as [[q|e] w4]; [|done]. unfold ret.
        by destruct (sleep _ w4) as [[[]|e] w5].
      * destruct e; try done.
        destruct (a <? MAX_RETRIES - 1); [|done].
        destruct (random w2) as [[q|e] w4]; [|done]. unfold ret.
        by destruct (sleep _ w4) as [[[]|e] w5].
    + destruct (raise_for_status r w0) as [[[]|e] w2].
      * unfold of_result.
        destruct (validate_markdown_content _) as [[]|e]; [by intros [= <- _ _ _]|].
        destruct e; try done.
        destruct (a <? MAX_RETRIES - 1); [|done].
        destruct (random w2) as [[q|e] w4]; [|done]. unfold ret.
        by destruct (sleep _ w4) as [[[]|e] w5].
      * destruct e; try done.
        destruct (a <? MAX_RETRIES - 1); [|done].
        destruct (random w2) as [[q|e] w4]; [|done]. unfold ret.
        by destruct (sleep _ w4) as [[[]|e] w5].
  - destruct e; try done.
    destruct (a <? MAX_RETRIES - 1); [|done].
    destruct (random w0) as [[q|e] w4]; [|done]. unfold ret.
    by destruct (sleep _ w4) as [[[]|e] w5].
Qed.

Lemma fetch_attempts_filename f m o attempts w f' c o' w1 :
  fetch_attempts f m o attempts w = (Ok (Some (f', c, o')), w1) -> f' = f.
Proof.
  revert w. induction attempts as [|a later IH]; intros w; [done|].
  cbn [fetch_attempts]. unfold bind at 1.
  destruct (catch _ _ w) as [[[|[[f0 c0] o0]]|e] w0] eqn:Hstep; [apply IH| |done].
  intros [= <- <- <- <-]. by apply attempt_returns_filename in Hstep.
Qed.

Lemma fetch_markdown_url_filename doc_url w f c o w1 :
  fetch_markdown_url doc_url w = (Ok (Some (f, c, o)), w1) ->
  endswith (lit ".md") f = true.
Proof.
  unfold fetch_markdown_url. destruct (normalize_doc_url doc_url) as [o0 m].
  unfold bind at 1.
  destruct (url_to_safe_filename o0) as [f0|] eqn:Hf0; [|done].
  unfold of_option, ret. cbn beta iota.
  intros ->%fetch_attempts_filename.
  unfold url_to_safe_filename in Hf0.
  destruct (if contains _ _ then _ else _) as [path|]; [|done].
  injection Hf0 as <-. apply safe_name_of_slug_endswith.
Qed.

Lemma pages_inv_network acc acc' evs e1 rf :
  p_files acc' = p_files acc ->
  p_fetched_files acc' = p_fetched_files acc ->
  Forall is_network e1 ->
  pages_inv acc evs rf -> pages_inv acc' (evs ++ e1) rf.
Proof.
  intros Hf Hs Hn (I1 & I2 & I3 & I4 & I5). unfold pages_inv.
  rewrite Hf, Hs. split; [done|]. split; [|split; [|split]].
  - intros name. rewrite I2. split.
    + intros [c Hc]. exists c. apply elem_of_app. by left.
    + intros [c [Hc|Hc]%elem_of_app]; [by exists c|].
      by apply network_no_write in Hc.
  - intros name e He. destruct (I3 name e He) as (c & Hl & Hr & Hh).
    exists c. rewrite last_write_app, (last_write_network _ _ Hn). done.
  - done.
  - apply Forall_app. split; [done | by apply network_no_unlink].
Qed.

Lemma manifest_not_md : endswith (lit ".md") MANIFEST_FILE = false.
Proof. reflexivity. Qed.

(** One page of the loop keeps [pages_inv]. *)
Lemma process_page_inv doc_url acc w t0 evs :
  trace w = t0 ++ evs -> pages_inv acc evs (refs w) ->
  exists acc' w' evs',
    catch (process_page doc_url acc) (page_failed doc_url acc) w = (Ok acc', w')
    /\ trace w' = t0 ++ evs' /\ pages_inv acc' evs' (refs w').
Proof.
  intros Ht Hinv. unfold catch, process_page. unfold bind at 1.
  destruct (network_only_fetch_markdown_url doc_url w) as (Hr & e1 & Ht1 & Hn).
  destruct (fetch_markdown_url doc_url w) as [[[[[f c] o]|]|e] w1] eqn:Hfetch;
    simpl in Hr, Ht1.
  - destruct (bool_decide (f ∈ CUSTOM_FILES)) eqn:Hc.
    { exists acc, w1, (evs ++ e1). split; [done|].
      rewrite Ht1, Ht, app_assoc. split; [done|]. rewrite Hr.
      by apply (pages_inv_network acc). }
    apply bool_decide_eq_false in Hc.
    apply fetch_markdown_url_filename in Hfetch.
    eexists _, _, ((evs ++ e1) ++ [EvWrite f c]). split; [reflexivity|].
    cbn [trace refs]. rewrite Ht1, Ht. split; [by rewrite <- !app_assoc|].
    rewrite Hr.
    destruct (pages_inv_network acc acc evs e1 (refs w) eq_refl eq_refl Hn Hinv)
      as (I1 & I2 & I3 & I4 & I5).
    unfold pages_inv. cbn [p_files p_fetched_files].
    split; [|split; [|split; [|split]]].
    + rewrite dom_insert_L. by rewrite I1.
    + intros name. rewrite elem_of_union, elem_of_singleton, I2. split.
      * intros [->|[c' Hc']].
        -- exists c. apply elem_of_app. right. by apply list_elem_of_singleton.
        -- exists c'. apply elem_of_app. by left.
      * intros [c' [Hc'|Hc']%elem_of_app]; [right; by exists c'|].
        apply list_elem_of_singleton in Hc'. left. congruence.
    + intros name e. rewrite last_write_app. cbn [last_write].
      destruct (decide (f = name)) as [->|Hne].
      * rewrite lookup_insert_eq. intros [= <-]. exists c.
        by rewrite lookup_insert_eq.
      * rewrite lookup_insert_ne by done. intros He.
        destruct (I3 name e He) as (c' & ? & ? & ?). exists c'.
        by rewrite lookup_insert_ne.
    + intros name [->%elem_of_singleton|Hin]%elem_of_union; [done|by apply I4].
    + apply Forall_app. split; [done|]. apply Forall_singleton. by intros [].
  - exists (Progress (p_successful acc) (S (p_failed acc))
                     (p_failed_pages acc ++ [doc_url])
                     (p_fetched_files acc) (p_files acc)), w1, (evs ++ e1).
    split; [done|]. rewrite Ht1, Ht, app_assoc. split; [done|].
    rewrite Hr. by apply (pages_inv_network acc).
  - exists (Progress (p_successful acc) (S (p_failed acc))
                     (p_failed_pages acc ++ [doc_url])
                     (p_fetched_files acc) (p_files acc)), w1, (evs ++ e1).
    split; [done|]. rewrite Ht1, Ht, app_assoc. split; [done|].
    rewrite Hr. by apply (pages_inv_network acc).
Qed.

Lemma process_pages_inv urls acc w t0 evs :
  trace w = t0 ++ evs -> pages_inv acc evs (refs w) ->
  exists acc' w' evs',
    process_pages urls acc w = (Ok acc', w')
    /\ trace w' = t0 ++ evs' /\ pages_inv acc' evs' (refs w').
Proof.
  revert acc w evs. induction urls as [|u more IH]; intros acc w evs Ht Hinv.
  - by exists acc, w, evs.
  - cbn [process_pages]. unfold bind at 1.
    destruct (process_page_inv u acc w t0 evs Ht Hinv)
      as (acc1 & w1 & evs1 & -> & Ht1 & Hinv1).
    by apply (IH acc1 w1 evs1).
Qed.



(** The run of [fetch_docs] up to the cleanup, with what the page loop
    keeps true. *)
Lemma fetch_docs_pages w :
  exists old urls w1 acc w2 evs,
    load_manifest w = (Ok old, w)
    /\ discover_doc_urls w = (Ok urls, w1)
    /\ process_pages urls (Progress 0 0 [] ∅ ∅) w1 = (Ok acc, w2)
    /\ trace w2 = trace w ++ evs
    /\ pages_inv acc evs (refs w2)
    /\ fetch_docs w
       = match cleanup_old_files (p_fetched_files acc) old w2 with
         | (Ok _, w3) =>
             (Ok (p_successful acc, p_failed acc, p_fetched_files acc),
              MkWorld (script w3) (randoms w3) (S (clock w3)) (env_llms w3)
                (env_sitemap w3) (others w3)
                (<[MANIFEST_FILE :=
                     json_dumps
                       (Manifest (Some (p_files acc))
                          (Some (Metadata (p_successful acc) (p_failed acc)
                                          (p_failed_pages acc)))
                          (Some (isoformat_now (clock w3)))
                          (Some manifest_description))]> (refs w3))
                (skill_md w3)
                (trace w3
                 ++ [EvWrite MANIFEST_FILE
                       (json_dumps
                          (Manifest (Some (p_files acc))
                             (Some (Metadata (p_successful acc) (p_failed acc)
                                             (p_failed_pages acc)))
                             (Some (isoformat_now (clock w3)))
                             (Some manifest_description)))]))
         | (Raise e, w3) => (Raise e, w3)
         end.
Proof.
  destruct (load_manifest_total w) as [old Hload].
  destruct (network_only_discover_doc_urls w) as (Hr1 & e1 & Ht1 & Hn1).
  destruct (discover_doc_urls_total w) as (urls & w1 & Hd & _).
  rewrite Hd in Hr1, Ht1. cbn [fst snd] in Hr1, Ht1.
  assert (Hinv0 : pages_inv (Progress 0 0 [] ∅ ∅) e1 (refs w1)).
  { unfold pages_inv. cbn [p_files p_fetched_files].
    split; [by rewrite dom_empty_L|]. split; [|split; [|split]].
    - intros name. split; [set_solver|].
      intros [c Hc]. by apply network_no_write in Hc.
    - intros name e. by rewrite lookup_empty.
    - set_solver.
    - by apply network_no_unlink. }
  destruct (process_pages_inv urls _ w1 (trace w) e1 Ht1 Hinv0)
    as (acc & w2 & evs & Hloop & Ht2 & Hinv).
  exists old, urls, w1, acc, w2, evs.
  split; [exact Hload|]. split; [exact Hd|]. split; [exact Hloop|].
  split; [exact Ht2|]. split; [exact Hinv|].
  unfold fetch_docs. unfold bind at 1. rewrite Hload.
  unfold bind at 1. rewrite Hd. unfold bind at 1. rewrite Hloop.
  unfold bind at 1.
  destruct (cleanup_old_files (p_fetched_files acc) old w2) as [[[]|e] w3];
    reflexivity.
Qed.



End FetchDocs.

(** ** Regular expressions *)

Lemma prev_after_cons pv c a : prev_after (Some c) a = prev_after pv (c :: a).
Proof.
  unfold prev_after. by destruct a as [|d a].
Qed.

Lemma sub_from_skip r repl pv m b :
  sub_from r repl pv (length m) (m ++ b) = sub_from r repl (prev_after pv m) 0 b.
Proof.
  revert pv. induction m as [|c m IH]; intros pv; [done|].
  cbn [length app sub_from]. rewrite IH. by rewrite (prev_after_cons pv).
Qed.

Lemma sub_from_quiet_prefix r repl pv a b :
  quiet_prefix r pv a b ->
  sub_from r repl pv 0 (a ++ b) = a ++ sub_from r repl (prev_after pv a) 0 b.
Proof.
  revert pv. induction a as [|c a IH]; intros pv; [done|].
  intros [Hnone Hq]. cbn [app sub_from]. rewrite Hnone.
  rewrite (IH _ Hq). by rewrite (prev_after_cons pv).
Qed.

(** A match of the characters [m] is replaced, and the scan goes on
    after it. *)
Lemma sub_from_match r repl pv m b st :
  m <> [] -> match_at r pv (m ++ b) = Some st -> rest st = b ->
  sub_from r repl pv 0 (m ++ b) = repl st ++ sub_from r repl (prev_after pv m) 0 b.
Proof.
  intros Hm Hmatch Hrest. destruct m as [|c m]; [done|].
  cbn [app sub_from]. cbn [app] in Hmatch. rewrite Hmatch, Hrest.
  cbn [length]. rewrite length_app.
  replace (S (length m + length b) - length b) with (S (length m)) by lia.
  f_equal. rewrite sub_from_skip. by rewrite (prev_after_cons pv).
Qed.

Lemma tag_led_quiet r pv a b :
  tag_led r -> "<"%char ∉ a -> quiet_prefix r pv a b.
Proof.
  intros [_ Hled]. revert pv. induction a as [|c a IH]; intros pv Hin; [done|].
  split.
  - apply Hled. intros ->. apply Hin. left.
  - apply IH. intros Ha. apply Hin. by right.
Qed.

(** A tag-led pattern changes nothing in text where no tag opens. *)
Lemma sub_from_tagless r repl pv s :
  tag_led r -> "<"%char ∉ s -> sub_from r repl pv 0 s = s.
Proof.
  intros Hled Hs.
  rewrite <- (app_nil_r s) at 1.
  rewrite (sub_from_quiet_prefix r repl pv s []) by by apply tag_led_quiet.
  destruct Hled as [Hnil _]. cbn [sub_from]. rewrite Hnil. apply app_nil_r.
Qed.

Lemma startswith_cons_ne p c s d :
  c <> d -> startswith (d :: p) (c :: s) = false.
Proof.
  intros Hne. cbn [startswith].
  destruct (chr_eqb d c) eqn:E; [|done]. apply chr_eqb_eq in E. congruence.
Qed.

(** The patterns that start with the character [<]. *)
Ltac tag_led :=
  split;
  [ intros pv; reflexivity
  | intros pv c s Hc; unfold match_at; cbn [rmatch rest];
    first [ apply chr_eqb_neq in Hc as ->; reflexivity
          | cbn [lit list_ascii_of_string app];
            rewrite startswith_cons_ne by done; reflexivity ] ].

Lemma tag_led_block_re (tag : string) : tag_led (block_re tag).
Proof. unfold block_re. tag_led. Qed.

Lemma tag_led_wrapper_re (tag : string) : tag_led (wrapper_re tag).
Proof. unfold wrapper_re. tag_led. Qed.

Lemma tag_led_tab_re : tag_led tab_re.
Proof. unfold tab_re. tag_led. Qed.

Lemma tag_led_tab_close : tag_led (Str (lit "</Tab>")).
Proof. tag_led. Qed.

Lemma tag_led_card_re : tag_led card_re.
Proof. unfold card_re. tag_led. Qed.

Lemma tag_led_self_closing_re : tag_led self_closing_re.
Proof. unfold self_closing_re. tag_led. Qed.

(** *** Repetition *)

(** A greedy repetition whose continuation accepts takes the whole run. *)
Lemma rep_greedy_all p lo pv s g :
  rep true p lo pv s g Some =
  if lo <=? prun p s
  then Some (MState (prev_after pv (take (prun p s) s)) (drop (prun p s) s) g)
  else None.
Proof.
  revert lo pv. induction s as [|c s IH]; intros lo pv.
  - destruct lo; reflexivity.
  - destruct lo as [|lo]; cbn [rep prun].
    + destruct (p c) eqn:Hc; [|reflexivity].
      rewrite IH. cbn [Nat.leb orelse take drop].
      by rewrite (prev_after_cons pv).
    + destruct (p c) eqn:Hc; [|reflexivity].
      rewrite IH. cbn [Nat.leb take drop].
      by rewrite (prev_after_cons pv).
Qed.

Lemma prun_drop p s : prun p (drop (prun p s) s) = 0.
Proof.
  induction s as [|c s IH]; [done|]. cbn [prun].
  destruct (p c) eqn:Hc; [exact IH|]. cbn [drop prun]. by rewrite Hc.
Qed.

(** *** Runs of newlines *)

Lemma match_at_blank_lines pv s :
  match_at blank_lines_re pv s =
  if 4 <=? nl_run s
  then Some (MState (prev_after pv (take (nl_run s) s)) (drop (nl_run s) s) [])
  else None.
Proof. apply rep_greedy_all. Qed.

Lemma nl_run_cons_nl t : nl_run ("010"%char :: t) = S (nl_run t).
Proof. reflexivity. Qed.

Lemma nl_run_cons c t :
  nl_run (c :: t) = if is_nl c then S (nl_run t) else 0.
Proof. reflexivity. Qed.

Lemma short_runs_nl_cons t :
  short_runs t -> nl_run t <= 2 -> short_runs ("010"%char :: t).
Proof. intros Ht Hr. split; [|done]. rewrite nl_run_cons_nl. lia. Qed.

Lemma blank_lines_sub n : forall s pv,
  length s <= n ->
  short_runs (sub_from blank_lines_re three_newlines pv 0 s)
  /\ nl_run (sub_from blank_lines_re three_newlines pv 0 s) = Nat.min (nl_run s) 3.
Proof.
  induction n as [|n IH]; intros s pv Hlen.
  - destruct s; [|simpl in Hlen; lia]. cbn. split; [split; [lia|done]|done].
  - destruct (Nat.leb_spec 4 (nl_run s)) as [Hrun|Hrun].
    + pose proof (match_at_blank_lines pv s) as Hm.
      apply Nat.leb_le in Hrun as Hrun'. rewrite Hrun' in Hm.
      assert (Hne : take (nl_run s) s <> []).
      { destruct s as [|c s]; [cbn in Hrun; lia|].
        destruct (nl_run (c :: s)) eqn:E; [lia|done]. }
      assert (Hsplit : s = take (nl_run s) s ++ drop (nl_run s) s)
        by (symmetry; apply take_drop).
      rewrite Hsplit in Hm at 1.
      assert (Hsub : sub_from blank_lines_re three_newlines pv 0 s =
                     three_newlines (MState (prev_after pv (take (nl_run s) s))
                                            (drop (nl_run s) s) [])
                     ++ sub_from blank_lines_re three_newlines
                          (prev_after pv (take (nl_run s) s)) 0 (drop (nl_run s) s)).
      { rewrite Hsplit at 1.
        apply (sub_from_match _ _ _ _ _ _ Hne Hm eq_refl). }
      rewrite Hsub.
      destruct (IH (drop (nl_run s) s) (prev_after pv (take (nl_run s) s)))
        as [Hs Hr].
      { rewrite length_drop. lia. }
      assert (Hz : nl_run (drop (nl_run s) s) = 0) by apply prun_drop.
      rewrite Hz in Hr. cbn [Nat.min] in Hr.
      set (out := sub_from _ _ _ 0 (drop _ _)) in *.
      unfold three_newlines, nl. cbn [app].
      assert (H1 : short_runs ("010"%char :: out))
        by (apply short_runs_nl_cons; [done|lia]).
      assert (H2 : short_runs ("010"%char :: "010"%char :: out))
        by (apply short_runs_nl_cons; [done|rewrite nl_run_cons_nl; lia]).
      split.
      * apply short_runs_nl_cons; [done|]. rewrite !nl_run_cons_nl. lia.
      * rewrite !nl_run_cons_nl. lia.
    + destruct s as [|c s].
      { cbn. split; [split; [lia|done]|done]. }
      cbn [sub_from]. rewrite match_at_blank_lines.
      apply Nat.leb_gt in Hrun as Hrun'. rewrite Hrun'.
      destruct (IH s (Some c)) as [Hs Hr]; [simpl in Hlen; lia|].
      set (out := sub_from _ _ _ 0 s) in *.
      cbn [short_runs]. rewrite !nl_run_cons in *.
      destruct (is_nl c); (split; [split; [lia|done]|lia]).
Qed.

Lemma startswith_four_newlines s :
  startswith four_newlines s = true -> 4 <= nl_run s.
Proof.
  unfold four_newlines, nl, nl_run. cbn [app startswith].
  destruct s as [|a [|b [|c [|d s]]]]; cbn [prun startswith];
    rewrite ?andb_false_r; try done.
  rewrite !andb_true_iff, !chr_eqb_eq. intros (<- & <- & <- & <- & _).
  cbn. lia.
Qed.

Lemma short_runs_no_four s : short_runs s -> contains four_newlines s = false.
Proof.
  induction s as [|c s IH].
  - intros _. reflexivity.
  - intros [Hr Hs]. cbn [contains]. rewrite (IH Hs), orb_false_r.
    destruct (startswith four_newlines (c :: s)) eqn:E; [|done].
    apply startswith_four_newlines in E. lia.
Qed.

Lemma contains_strip_by p q s :
  contains q (strip_by p s) = true -> contains q s = true.
Proof.
  rewrite !contains_infix. intros (a & b & Hab).
  destruct (strip_by_infix p s) as (a' & b' & Hs).
  exists (a' ++ a), (b ++ b'). rewrite Hs at 1. rewrite Hab.
  by rewrite <- !app_assoc.
Qed.

(** *** Text that no step rewrites *)

Lemma split_on_nonempty c s : split_on c s <> [].
Proof.
  destruct s as [|x t]; [done|]. cbn [split_on].
  destruct (chr_eqb x c); [done|]. by destruct (split_on c t).
Qed.

Lemma join_split_on s : join nl (split_on "010" s) = s.
Proof.
  induction s as [|x t IH]; [done|]. cbn [split_on].
  pose proof (split_on_nonempty "010" t) as Hne.
  destruct (split_on "010" t) as [|h r]; [done|].
  destruct (chr_eqb x "010") eqn:Hx.
  - apply chr_eqb_eq in Hx as ->.
    change (join nl ([] :: h :: r)) with ([] ++ nl ++ join nl (h :: r)).
    by rewrite IH.
  - rewrite <- IH. by destruct r.
Qed.

Lemma startswith_prefix_mono kw h s :
  h `prefix_of` s -> startswith kw h = true -> startswith kw s = true.
Proof.
  rewrite !startswith_prefix. intros Hh Hk. by etrans.
Qed.

(** The lines of a text none of whose lines starts with [kw]. *)
Lemma no_line_starts_lines kw b s :
  no_line_starts kw b s ->
  exists h r,
    split_on "010" s = h :: r
    /\ h `prefix_of` s
    /\ (b = true -> startswith kw h = false)
    /\ Forall (fun line => startswith kw line = false) r.
Proof.
  revert b. induction s as [|x t IH]; intros b [Hb Ht].
  - exists [], []. split; [done|]. split; [done|]. split; [exact Hb|constructor].
  - destruct (IH _ Ht) as (h & r & Hs & Hp & Hh & Hr).
    cbn [split_on]. rewrite Hs. unfold is_nl in Hh.
    destruct (chr_eqb x "010") eqn:Hx.
    + exists [], (h :: r). split; [done|]. split; [apply prefix_nil|].
      split; [|constructor; [by apply Hh|done]].
      intros Hbt. specialize (Hb Hbt). by destruct kw.
    + exists (x :: h), r. split; [done|]. split; [by apply prefix_cons|].
      split; [|done]. intros Hbt. specialize (Hb Hbt).
      destruct (startswith kw (x :: h)) eqn:E; [|done].
      apply (startswith_prefix_mono kw (x :: h) (x :: t)) in E;
        [congruence | by apply prefix_cons].
Qed.

Lemma re_match_export_const line :
  startswith (lit "export") line = false -> re_match export_const_re line = false.
Proof.
  intros Hl. unfold re_match, match_at, export_const_re.
  cbn [rmatch at_bol prev rest]. by rewrite Hl.
Qed.

Lemma remove_export_lines_none lines :
  Forall (fun line => startswith (lit "export") line = false) lines ->
  remove_export_lines false lines = lines.
Proof.
  induction 1 as [|line lines Hl _ IH]; [done|].
  cbn [remove_export_lines]. rewrite (re_match_export_const _ Hl). by rewrite IH.
Qed.

Lemma remove_export_components_none s :
  no_line_starts (lit "export") true s -> remove_export_components s = s.
Proof.
  intros Hs. unfold remove_export_components.
  destruct (no_line_starts_lines _ _ _ Hs) as (h & r & Hsplit & _ & Hh & Hr).
  rewrite remove_export_lines_none; [apply join_split_on|].
  rewrite Hsplit. constructor; [by apply Hh | done].
Qed.

Lemma match_at_import_none pv s :
  (at_bol true (MState pv s []) = true -> startswith (lit "import") s = false) ->
  match_at import_re pv s = None.
Proof.
  intros Hb. unfold match_at, import_re. cbn [rmatch rest].
  destruct (at_bol true _); [|done]. by rewrite Hb.
Qed.

Lemma import_sub_none s : forall pv,
  no_line_starts (lit "import") (at_bol true (MState pv s [])) s ->
  sub_from import_re removed pv 0 s = s.
Proof.
  induction s as [|x t IH]; intros pv [Hb Ht].
  - cbn [sub_from]. by rewrite match_at_import_none.
  - cbn [sub_from]. rewrite match_at_import_none by done.
    f_equal. by apply IH.
Qed.

Lemma nl_run_startswith_four s :
  4 <= nl_run s -> startswith four_newlines s = true.
Proof.
  unfold four_newlines, nl, nl_run. cbn [app].
  destruct s as [|a [|b [|c [|d s]]]]; cbn [prun];
    repeat match goal with
           | |- context [is_nl ?x] =>
               let E := fresh in
               destruct (is_nl x) eqn:E;
               [apply chr_eqb_eq in E; subst x|]
           end; try lia.
  intros _. reflexivity.
Qed.

Lemma no_four_short_runs s : contains four_newlines s = false -> short_runs s.
Proof.
  induction s as [|c s IH].
  - intros _. split; [cbn; lia|done].
  - cbn [contains]. intros [Hs Hc]%orb_false_iff. split; [|by apply IH].
    destruct (Nat.le_gt_cases 4 (nl_run (c :: s))) as [Hr|Hr]; [|lia].
    apply nl_run_startswith_four in Hr. congruence.
Qed.

Lemma blank_lines_sub_none s : forall pv,
  short_runs s -> sub_from blank_lines_re three_newlines pv 0 s = s.
Proof.
  induction s as [|c s IH]; intros pv [Hr Hs].
  - reflexivity.
  - cbn [sub_from]. rewrite match_at_blank_lines.
    assert ((4 <=? nl_run (c :: s)) = false) as -> by (apply Nat.leb_gt; lia).
    f_equal. by apply IH.
Qed.

(** X2. Text in which no tag opens, no line starts with [export] or
    [import] and no four newlines follow one another is only stripped:
    none of the rewriting steps of [clean_mdx_content] touches it. *)
Theorem clean_mdx_content_plain (content : str) :
  plain content -> clean_mdx_content content = py_strip content.
Proof.
  intros (Htag & Hexp & Himp & Hfour).
  unfold clean_mdx_content, clean_steps. cbn [fold_left].
  rewrite (remove_export_components_none _ Hexp).
  unfold re_sub.
  rewrite !(sub_from_tagless _ _ _ _ (tag_led_block_re _) Htag).
  rewrite !(sub_from_tagless _ _ _ _ (tag_led_wrapper_re _) Htag).
  rewrite (sub_from_tagless _ _ _ _ tag_led_tab_re Htag).
  rewrite (sub_from_tagless _ _ _ _ tag_led_tab_close Htag).
  rewrite !(sub_from_tagless _ _ _ _ (tag_led_wrapper_re _) Htag).
  rewrite (sub_from_tagless _ _ _ _ tag_led_card_re Htag).
  rewrite (sub_from_tagless _ _ _ _ (tag_led_block_re _) Htag).
  rewrite (sub_from_tagless _ _ _ _ tag_led_self_closing_re Htag).
  rewrite (import_sub_none _ None Himp).
  by rewrite (blank_lines_sub_none _ None (no_four_short_runs _ Hfour)).
Qed.

Lemma clean_mdx_content_plain_witness :
  clean_mdx_content (lit "  Use the hooks.  ") = lit "Use the hooks.".
Proof.
  rewrite clean_mdx_content_plain; [reflexivity|].
  split; [notin_lit|].
  split; [cbn; repeat split; intros; try reflexivity; discriminate|].
  split; [cbn; repeat split; intros; try reflexivity; discriminate|].
  reflexivity.
Defined.


(** X1. Whatever the input, what [clean_mdx_content] returns has no run
    of four newlines. *)
Theorem clean_mdx_content_no_blank_run (content : str) :
  contains four_newlines (clean_mdx_content content) = false.
Proof.
  unfold clean_mdx_content, clean_steps. cbn [fold_left].
  set (before := re_sub import_re removed _).
  destruct (contains four_newlines (py_strip _)) eqn:E; [|done].
  apply contains_strip_by in E.
  destruct (blank_lines_sub (length before) before None (le_n _)) as [Hs _].
  apply short_runs_no_four in Hs. unfold re_sub in E. congruence.
Qed.

(** *** Stripping *)

Lemma lstrip_by_head p s c t : lstrip_by p s = c :: t -> p c = false.
Proof.
  induction s as [|x s IH]; [done|]. cbn [lstrip_by].
  destruct (p x) eqn:Hx; [exact IH|]. by intros [= <- _].
Qed.

Lemma rstrip_by_last p s t c : rstrip_by p s = t ++ [c] -> p c = false.
Proof.
  unfold rstrip_by. intros Hr.
  apply (f_equal (@rev ascii)) in Hr. rewrite rev_involutive, rev_app_distr in Hr.
  by apply lstrip_by_head in Hr.
Qed.

Lemma rstrip_by_head p s c t c' t' :
  s = c :: t -> rstrip_by p s = c' :: t' -> c' = c.
Proof.
  intros -> Hr. destruct (rstrip_by_prefix p (c :: t)) as [b Hb].
  rewrite Hr in Hb. by injection Hb as ->.
Qed.

(** X3. What [clean_mdx_content] returns neither starts nor ends with a
    whitespace character. *)
Theorem clean_mdx_content_stripped (content : str) :
  (forall c t, clean_mdx_content content = c :: t -> is_space c = false)
  /\ (forall t c, clean_mdx_content content = t ++ [c] -> is_space c = false).
Proof.
  unfold clean_mdx_content, py_strip, strip_by.
  set (s := fold_left _ _ _). split.
  - intros c t Hc. destruct (lstrip_by is_space s) as [|x l] eqn:Hl.
    + done.
    + rewrite (rstrip_by_head _ _ _ _ _ _ eq_refl Hc).
      by apply lstrip_by_head in Hl.
  - intros t c Hc. by apply rstrip_by_last in Hc.
Qed.

(** ** More on URLs and filenames *)

Lemma contains_middle a m b s :
  contains (a ++ m ++ b) s = true -> contains m s = true.
Proof.
  rewrite !contains_infix. intros (x & y & ->).
  exists (x ++ a), (b ++ y). by rewrite <- !app_assoc.
Qed.

(** X4. [is_agent_sdk_url] holds exactly of the URLs that contain
    [/agent-sdk/]: the two longer markers of [AGENT_SDK_PATH_MARKERS]
    contain the third one and never decide. *)
Theorem is_agent_sdk_url_short_marker (url : str) :
  is_agent_sdk_url url = contains (lit "/agent-sdk/") url.
Proof.
  unfold is_agent_sdk_url, AGENT_SDK_PATH_MARKERS. cbn [existsb].
  rewrite orb_false_r.
  destruct (contains (lit "/agent-sdk/") url) eqn:E;
    [by rewrite !orb_true_r|].
  rewrite !orb_false_r.
  destruct (contains (lit "/docs/en/agent-sdk/") url) eqn:E1.
  { apply (contains_middle (lit "/docs/en") (lit "/agent-sdk/") []) in E1.
    congruence. }
  destruct (contains (lit "/en/docs/agent-sdk/") url) eqn:E2; [|done].
  apply (contains_middle (lit "/en/docs") (lit "/agent-sdk/") []) in E2.
  congruence.
Qed.

Lemma lstrip_by_keep p c t : p c = false -> lstrip_by p (c :: t) = c :: t.
Proof. intros Hc. cbn [lstrip_by]. by rewrite Hc. Qed.

Lemma rstrip_by_keep p s c : p c = false -> rstrip_by p (s ++ [c]) = s ++ [c].
Proof.
  intros Hc. unfold rstrip_by. rewrite rev_app_distr. cbn [rev app].
  rewrite lstrip_by_keep by done. cbn [rev]. by rewrite rev_involutive.
Qed.

Lemma endswith_false_rstrip c s :
  endswith [c] s = false -> rstrip_by (is_chr c) s = s.
Proof.
  destruct (rev s) as [|x r] eqn:Hr.
  - apply (f_equal (@rev ascii)) in Hr. rewrite rev_involutive in Hr. by subst.
  - apply (f_equal (@rev ascii)) in Hr. rewrite rev_involutive in Hr. subst s.
    cbn [rev]. unfold endswith. rewrite rev_app_distr, rev_involutive.
    cbn [rev app startswith]. rewrite andb_true_r. intros Hx.
    apply rstrip_by_keep. unfold is_chr. exact Hx.
Qed.

(** X5. A page and its [.md] and [.html] addresses get the same
    filename: for a path that ends neither with [/] nor with one of the two
    suffixes, appending [.md] or [.html] does not change the result. *)
Theorem filename_of_path_suffix (path : str) :
  endswith (lit "/") path = false ->
  endswith (lit ".md") path = false ->
  endswith (lit ".html") path = false ->
  filename_of_path (path ++ lit ".md") = filename_of_path path
  /\ filename_of_path (path ++ lit ".html") = filename_of_path path.
Proof.
  intros Hslash Hmd Hhtml.
  assert (Hkeep_md : rstrip_by (is_chr "/") (path ++ lit ".md") = path ++ lit ".md").
  { change (path ++ lit ".md") with (path ++ lit ".m" ++ ["d"%char]).
    rewrite app_assoc. by apply rstrip_by_keep. }
  assert (Hkeep_html :
            rstrip_by (is_chr "/") (path ++ lit ".html") = path ++ lit ".html").
  { change (path ++ lit ".html") with (path ++ lit ".htm" ++ ["l"%char]).
    rewrite app_assoc. by apply rstrip_by_keep. }
  assert (Hnot : endswith (lit ".md") (path ++ lit ".html") = false).
  { unfold endswith. rewrite rev_app_distr. reflexivity. }
  assert (Hp : slug_of_path path =
               slug_of_path (path ++ lit ".md")
               /\ slug_of_path path = slug_of_path (path ++ lit ".html")).
  { unfold slug_of_path.
    rewrite (endswith_false_rstrip "/" path Hslash), Hmd, Hhtml.
    rewrite Hkeep_md, Hkeep_html, Hnot.
    rewrite (endswith_app path (lit ".md")), (endswith_app path (lit ".html")).
    replace (drop_last 3 (path ++ lit ".md")) with path
      by (symmetry; apply (drop_last_app path (lit ".md"))).
    replace (drop_last 5 (path ++ lit ".html")) with path
      by (symmetry; apply (drop_last_app path (lit ".html"))).
    done. }
  destruct Hp as [H1 H2]. unfold filename_of_path. by rewrite <- H1, <- H2.
Qed.

Lemma filename_of_path_suffix_witness :
  filename_of_path (lit "/docs/en/agent-sdk/hooks.md")
    = filename_of_path (lit "/docs/en/agent-sdk/hooks")
  /\ filename_of_path (lit "/docs/en/agent-sdk/hooks") = lit "hooks.md".
Proof.
  destruct (filename_of_path_suffix (lit "/docs/en/agent-sdk/hooks")
              eq_refl eq_refl eq_refl) as [Hmd _].
  split; [exact Hmd | reflexivity].
Defined.

(** A prefix of a stripped text starts like it. *)
Lemma strip_by_head p s c t : strip_by p s = c :: t -> p c = false.
Proof.
  unfold strip_by. intros Hs.
  destruct (lstrip_by p s) as [|x l] eqn:Hl; [done|].
  rewrite (rstrip_by_head _ _ _ _ _ _ eq_refl Hs).
  by apply lstrip_by_head in Hl.
Qed.

Lemma strip_by_keep p s :
  (forall c t, s = c :: t -> p c = false) ->
  (forall t c, s = t ++ [c] -> p c = false) ->
  strip_by p s = s.
Proof.
  intros Hhead Hlast. unfold strip_by.
  destruct s as [|c t]; [done|].
  rewrite lstrip_by_keep by by apply (Hhead c t).
  destruct (exists_last (l := c :: t)) as (t' & c' & Ht); [done|].
  rewrite Ht. apply rstrip_by_keep. by apply (Hlast t' c').
Qed.

Lemma drop_last_prefix n s : drop_last n s `prefix_of` s.
Proof. unfold drop_last. apply prefix_take. Qed.

Lemma normalize_doc_url_md_eq (url : str) :
  (normalize_doc_url url).2 = (normalize_doc_url url).1 ++ lit ".md".
Proof.
  unfold normalize_doc_url.
  set (u := if endswith (lit "/") (py_strip url) then _ else _).
  destruct (endswith (lit ".md") u) eqn:Hmd.
  - symmetry. exact (endswith_drop_last (lit ".md") u Hmd).
  - destruct (endswith (lit ".html") u); reflexivity.
Qed.

(** X6. The markdown URL that [normalize_doc_url] gives is a fixed
    point: normalising it again gives the same pair. *)
Theorem normalize_doc_url_fixed (url : str) :
  normalize_doc_url (normalize_doc_url url).2 = normalize_doc_url url.
Proof.
  pose proof (normalize_doc_url_md_eq url) as Hmd.
  assert (Hhead : forall c t, (normalize_doc_url url).1 = c :: t ->
                              is_space c = false).
  { unfold normalize_doc_url.
    set (u0 := py_strip url).
    set (u := if endswith (lit "/") u0 then drop_last 1 u0 else u0).
    assert (Hu : u `prefix_of` u0).
    { unfold u. destruct (endswith _ u0); [apply drop_last_prefix | done]. }
    assert (Ho : forall o, o `prefix_of` u -> forall c t, o = c :: t ->
                           is_space c = false).
    { intros o Hou c t ->.
      assert (Hc : (c :: t) `prefix_of` u0) by by etrans.
      destruct Hc as [k Hk]. symmetry in Hk.
      by apply (strip_by_head is_space url c (t ++ k)). }
    destruct (endswith (lit ".md") u); [apply Ho, drop_last_prefix|].
    destruct (endswith (lit ".html") u); [apply Ho, drop_last_prefix|].
    by apply Ho. }
  destruct (normalize_doc_url url) as [o m]. cbn [fst snd] in *. subst m.
  unfold normalize_doc_url.
  assert (Hstrip : py_strip (o ++ lit ".md") = o ++ lit ".md").
  { apply strip_by_keep.
    - intros c t Hc. destruct o as [|c' o'].
      + by injection Hc as <- _.
      + injection Hc as <- _. by apply (Hhead c' o').
    - intros t c Hc.
      change (o ++ lit ".md") with (o ++ lit ".m" ++ ["d"%char]) in Hc.
      rewrite app_assoc in Hc. by apply app_inj_tail in Hc as [_ <-]. }
  rewrite Hstrip.
  assert (endswith (lit "/") (o ++ lit ".md") = false) as ->.
  { unfold endswith. rewrite rev_app_distr. reflexivity. }
  rewrite (endswith_app o (lit ".md")).
  change 3 with (length (lit ".md")). by rewrite drop_last_app.
Qed.

(** ** More on [fetch_markdown_url] *)

Section FetchPaths.
Context `{PyLib}.

Lemma fetch_markdown_url_unfold doc_url f w :
  url_to_safe_filename (normalize_doc_url doc_url).1 = Some f ->
  fetch_markdown_url doc_url w =
  fetch_attempts f (normalize_doc_url doc_url).2 (normalize_doc_url doc_url).1
                 (seq 0 MAX_RETRIES) w.
Proof.
  intros Hf. unfold fetch_markdown_url.
  destruct (normalize_doc_url doc_url) as [o m]. cbn [fst snd] in *.
  by rewrite Hf.
Qed.

(** The first pass of the loop on a response that is neither a 429 nor
    an error. *)
Lemma attempt_body_responds f m o r more w :
  script w = Responds r :: more ->
  status_code r <> 429%Z -> ~ (400 <= status_code r < 600)%Z ->
  attempt_body f m o w =
  match validate_markdown_content (clean_mdx_content (text r)) with
  | Ok _ => (Ok (Return (f, clean_mdx_content (text r), o)), after_get m w)
  | Raise e => (Raise e, after_get m w)
  end.
Proof.
  intros Hs H429 Herr. unfold attempt_body, bind, session_get, after_get.
  destruct w as [sc rs ck el es ot rf sk tr]. cbn [script] in Hs. subst sc.
  cbn [log script randoms clock env_llms env_sitemap refs skill_md trace tail].
  apply Z.eqb_neq in H429. rewrite H429.
  unfold raise_for_status.
  assert (((400 <=? status_code r) && (status_code r <? 600))%Z = false) as ->.
  { apply andb_false_iff.
    destruct (Z.leb_spec 400 (status_code r)); [|by left].
    destruct (Z.ltb_spec (status_code r) 600); [lia | by right]. }
  unfold ret, of_result.
  by destruct (validate_markdown_content _) as [[]|e].
Qed.

(** X7. A response whose status is neither 429 nor a 4xx or 5xx error,
    whatever it is, and whose cleaned text passes the validation is
    accepted on the spot: one request, no sleep, and the result is the
    filename, the cleaned text and the original URL. *)
Theorem fetch_markdown_url_accepts (doc_url f : str) (r : response)
    (more : list outcome) (w : World) :
  url_to_safe_filename (normalize_doc_url doc_url).1 = Some f ->
  script w = Responds r :: more ->
  status_code r <> 429%Z -> ~ (400 <= status_code r < 600)%Z ->
  validate_markdown_content (clean_mdx_content (text r)) = Ok tt ->
  fetch_markdown_url doc_url w =
  (Ok (Some (f, clean_mdx_content (text r), (normalize_doc_url doc_url).1)),
   after_get (normalize_doc_url doc_url).2 w).
Proof.
  intros Hf Hs H429 Herr Hvalid.
  rewrite (fetch_markdown_url_unfold _ _ _ Hf).
  change (seq 0 MAX_RETRIES) with [0; 1; 2]. cbn [fetch_attempts].
  unfold bind at 1, catch.
  rewrite (attempt_body_responds _ _ _ _ _ _ Hs H429 Herr), Hvalid.
  reflexivity.
Qed.

(** X8. A response whose cleaned text fails the validation is not
    tried again: after that one request the [ValueError] is raised, no
    sleep is made and the rest of the script is not consumed. *)
Theorem fetch_markdown_url_invalid (doc_url f : str) (r : response)
    (more : list outcome) (w : World) :
  url_to_safe_filename (normalize_doc_url doc_url).1 = Some f ->
  script w = Responds r :: more ->
  status_code r <> 429%Z -> ~ (400 <= status_code r < 600)%Z ->
  validate_markdown_content (clean_mdx_content (text r)) = Raise ValueError ->
  fetch_markdown_url doc_url w =
  (Raise ValueError, after_get (normalize_doc_url doc_url).2 w).
Proof.
  intros Hf Hs H429 Herr Hvalid.
  rewrite (fetch_markdown_url_unfold _ _ _ Hf).
  change (seq 0 MAX_RETRIES) with [0; 1; 2]. cbn [fetch_attempts].
  unfold bind at 1, catch.
  rewrite (attempt_body_responds _ _ _ _ _ _ Hs H429 Herr), Hvalid.
  reflexivity.
Qed.

(** X9. A 429 whose [Retry-After] is not an integer (a date, say), or
    is a negative one, is not waited for: [int] or [time.sleep] raises
    [ValueError], the handler re-raises it, and the function ends after
    that one request without a sleep. *)
Theorem fetch_markdown_url_bad_retry_after (doc_url f value : str)
    (r : response) (more : list outcome) (w : World) :
  url_to_safe_filename (normalize_doc_url doc_url).1 = Some f ->
  script w = Responds r :: more ->
  status_code r = 429%Z -> retry_after r = Some value ->
  (py_int value = None \/ exists n, py_int value = Some n /\ (n < 0)%Z) ->
  fetch_markdown_url doc_url w =
  (Raise ValueError, after_get (normalize_doc_url doc_url).2 w).
Proof.
  intros Hf Hs H429 Hra Hbad.
  rewrite (fetch_markdown_url_unfold _ _ _ Hf).
  change (seq 0 MAX_RETRIES) with [0; 1; 2]. cbn [fetch_attempts].
  unfold bind at 1, catch, attempt_body, bind, session_get, after_get.
  destruct w as [sc rs ck el es ot rf sk tr]. cbn [script] in Hs. subst sc.
  cbn [log script randoms clock env_llms env_sitemap refs skill_md trace tail].
  rewrite H429, Hra. cbn [Z.eqb Pos.eqb].
  destruct Hbad as [Hnone | (n & Hn & Hneg)].
  - by rewrite Hnone.
  - rewrite Hn. unfold of_option, ret, sleep.
    assert (Qle_bool 0 (inject_Z n) = false) as ->.
    { destruct (Qle_bool 0 (inject_Z n)) eqn:E; [|done].
      apply Qle_bool_iff in E. change 0%Q with (inject_Z 0) in E.
      rewrite <- Zle_Qle in E. lia. }
    reflexivity.
Qed.

End FetchPaths.

Lemma fetch_markdown_url_accepts_witness :
  (fetch_markdown_url (H := Demo.lib) Demo.url Demo.served).1
  = Ok (Some (lit "hooks.md", Demo.page, Demo.url)).
Proof.
  rewrite (fetch_markdown_url_accepts (H := Demo.lib) Demo.url (lit "hooks.md")
             (Response 200 None Demo.page None) [] Demo.served);
    [reflexivity | reflexivity | reflexivity | done | | reflexivity].
  cbn. lia.
Defined.

Lemma fetch_markdown_url_invalid_witness :
  (fetch_markdown_url (H := Demo.lib) Demo.url Demo.served_html).1
  = Raise ValueError.
Proof.
  rewrite (fetch_markdown_url_invalid (H := Demo.lib) Demo.url (lit "hooks.md")
             (Response 200 None (lit "<!DOCTYPE html><html></html>") None) []
             Demo.served_html);
    [reflexivity | reflexivity | reflexivity | done | | reflexivity].
  cbn. lia.
Defined.

Lemma fetch_markdown_url_bad_retry_after_witness :
  (fetch_markdown_url (H := Demo.lib) Demo.url Demo.dated).1 = Raise ValueError.
Proof.
  rewrite (fetch_markdown_url_bad_retry_after (H := Demo.lib) Demo.url
             (lit "hooks.md") (lit "Wed, 21 Oct 2026 07:28:00 GMT")
             (Response 429 (Some (lit "Wed, 21 Oct 2026 07:28:00 GMT")) [] None)
             [] Demo.dated);
    [reflexivity | reflexivity | reflexivity | reflexivity | reflexivity
    | by left].
Defined.

(** ** More on [fetch_docs] *)

Section FetchDocsMore.
Context `{PyLib}.

(** What one page does to the variables of the loop: it is skipped as
    custom, or saved, or counted as failed. *)
Lemma process_page_cases doc_url acc w :
  exists acc' w',
    catch (process_page doc_url acc) (page_failed doc_url acc) w = (Ok acc', w')
    /\ ((acc' = acc /\ refs w' = refs w)
        \/ (exists f content entry,
              acc' = Progress (S (p_successful acc)) (p_failed acc)
                              (p_failed_pages acc)
                              ({[ f ]} ∪ p_fetched_files acc)
                              (<[f := entry]> (p_files acc))
              /\ (f ∉ CUSTOM_FILES)
              /\ refs w' = <[f := content]> (refs w))
        \/ (acc' = Progress (p_successful acc) (S (p_failed acc))
                            (p_failed_pages acc ++ [doc_url])
                            (p_fetched_files acc) (p_files acc)
            /\ refs w' = refs w)).
Proof.
  unfold catch, process_page. unfold bind at 1.
  destruct (network_only_fetch_markdown_url doc_url w) as (Hr & _).
  destruct (fetch_markdown_url doc_url w) as [[[[[f c] o]|]|e] w1];
    cbn [fst snd] in Hr.
  - destruct (bool_decide (f ∈ CUSTOM_FILES)) eqn:Hc.
    + exists acc, w1. split; [done|]. by left.
    + apply bool_decide_eq_false in Hc. eexists _, _. split; [reflexivity|].
      right. left. eexists f, c, _. split; [reflexivity|]. split; [done|].
      cbn [refs]. by rewrite Hr.
  - eexists _, w1. split; [reflexivity|]. right. right. by split.
  - eexists _, w1. split; [reflexivity|]. right. right. by split.
Qed.

(** What the loop of [fetch_docs] does to its variables and to the files. *)
Lemma process_pages_summary (documentation_urls : list str) (acc : progress)
    (w : World) :
  exists acc' w' failures,
    process_pages documentation_urls acc w = (Ok acc', w')
    /\ p_successful acc <= p_successful acc'
    /\ p_failed acc' = p_failed acc + length failures
    /\ p_failed_pages acc' = p_failed_pages acc ++ failures
    /\ failures `sublist_of` documentation_urls
    /\ p_successful acc' + p_failed acc'
       <= p_successful acc + p_failed acc + length documentation_urls
    /\ p_fetched_files acc ⊆ p_fetched_files acc'
    /\ size (p_fetched_files acc')
       <= size (p_fetched_files acc) + (p_successful acc' - p_successful acc)
    /\ (forall name, name ∉ p_fetched_files acc' ->
                     refs w' !! name = refs w !! name).
Proof.
  revert acc w. induction documentation_urls as [|u more IH]; intros acc w.
  - exists acc, w, []. rewrite app_nil_r. cbn [length].
    split_and!; try done; try lia.
  - cbn [process_pages]. unfold bind at 1.
    destruct (process_page_cases u acc w) as (acc1 & w1 & -> & Hcase).
    destruct (IH acc1 w1)
      as (acc' & w' & fs & -> & Hs & Hf & Hp & Hsub & Hsum & Hin & Hsz & Hfr).
    destruct Hcase as [[-> Hr] | [(f & c & e & -> & Hc & Hr) | [-> Hr]]];
      cbn [p_successful p_failed p_failed_pages p_fetched_files p_files] in *.
    + exists acc', w', fs.
      split_and!; try done; try (cbn [length]; lia).
      * by apply sublist_cons.
      * intros name Hn. rewrite (Hfr name Hn). by rewrite Hr.
    + assert (Hsize : size ({[f]} ∪ p_fetched_files acc)
                      <= S (size (p_fetched_files acc))).
      { rewrite size_union_alt, size_singleton.
        assert (Hd : p_fetched_files acc ∖ {[f]} ⊆ p_fetched_files acc)
          by set_solver.
        apply subseteq_size in Hd. lia. }
      exists acc', w', fs.
      split_and!; try done; try (cbn [length]; lia).
      * by apply sublist_cons.
      * set_solver.
      * intros name Hn. rewrite (Hfr name Hn), Hr.
        apply lookup_insert_ne. set_solver.
    + exists acc', w', (u :: fs).
      rewrite <- app_assoc in Hp. cbn [app] in Hp.
      split_and!; try done; try (cbn [length]; lia).
      * by apply sublist_skip.
      * intros name Hn. rewrite (Hfr name Hn). by rewrite Hr.
Qed.







(** X26. With a previous manifest that is no dictionary, or whose
    ["files"] is none (a null, a list, a string, a number), [fetch_docs]
    does not complete: the pages are fetched and saved as usual, then
    [cleanup_old_files] raises [AttributeError], no file is deleted and
    the manifest file is not rewritten. *)
Theorem fetch_docs_ill_typed (w : World) (old : json) :
  load_manifest w = (Ok old, w) ->
  previous_keys old = None ->
  exists urls w1 acc w2,
    discover_doc_urls w = (Ok urls, w1)
    /\ process_pages urls (Progress 0 0 [] ∅ ∅) w1 = (Ok acc, w2)
    /\ fetch_docs w = (Raise AttributeError, w2)
    /\ refs w2 !! MANIFEST_FILE = refs w !! MANIFEST_FILE
    /\ Forall (fun e => ~ is_unlink e) (new_events w w2).
Proof.
  intros Hload Hnone.
  destruct (fetch_docs_pages w)
    as (old' & urls & w1 & acc & w2 & evs & Hload' & Hd & Hloop & Ht2
        & (I1 & I2 & I3 & I4 & I5) & Hrun).
  rewrite Hload in Hload'. injection Hload' as <-.
  exists urls, w1, acc, w2. split; [exact Hd|]. split; [exact Hloop|].
  split; [|split].
  - rewrite Hrun. unfold cleanup_old_files, bind. by rewrite Hnone.
  - destruct (process_pages_summary urls (Progress 0 0 [] ∅ ∅) w1)
      as (acc0 & w20 & fs & Hloop0 & _ & _ & _ & _ & _ & _ & _ & Hfr).
    rewrite Hloop in Hloop0. injection Hloop0 as <- <-.
    destruct (network_only_discover_doc_urls w) as (Hr1 & _).
    rewrite Hd in Hr1. cbn [snd] in Hr1. rewrite <- Hr1. apply Hfr.
    intros [Hmd _]%I4. by rewrite manifest_not_md in Hmd.
  - unfold new_events. by rewrite Ht2, drop_app_length.
Qed.

End FetchDocsMore.




Lemma fetch_docs_ill_typed_witness :
  exists w',
    fetch_docs (H := Demo.lib) Demo.unkeyed = (Raise AttributeError, w')
    /\ refs w' !! MANIFEST_FILE = Some (lit "null").
Proof.
  destruct (fetch_docs_ill_typed (H := Demo.lib) Demo.unkeyed
              (JDict {[ lit "files" := JNull ]}))
    as (urls & w1 & acc & w2 & _ & _ & Hrun & Hm & _).
  - vm_compute. reflexivity.
  - unfold previous_keys. by rewrite lookup_singleton_eq.
  - exists w2. split; [exact Hrun|]. rewrite Hm. apply lookup_insert_eq.
Defined.



(** ** More on the manifest and on discovery *)

Section ManifestAndDiscovery.
Context `{PyLib}.

(** X12. [load_manifest] never raises and changes nothing, and
    ["files" in manifest] holds of what it returns.  A missing manifest
    file, a text that [json.loads] rejects, a null, a boolean, a number,
    and a list or a string without ["files"] give the fresh manifest; a
    dictionary without ["files"] gets an empty one, its other members
    kept; a dictionary with ["files"], a list with the item ["files"] and
    a string that contains [files] are returned as they are, so the
    result need not be a dictionary, nor its ["files"] one. *)
Theorem load_manifest_files (w : World) :
  exists v,
    load_manifest w = (Ok v, w)
    /\ has_files v = Some true
    /\ (refs w !! MANIFEST_FILE = None -> v = fresh_manifest)
    /\ (forall content, refs w !! MANIFEST_FILE = Some content ->
          match json_loads content with
          | None => v = fresh_manifest
          | Some (JDict members) =>
              v = JDict (if bool_decide (is_Some (members !! lit "files"))
                         then members
                         else <[lit "files" := JDict ∅]> members)
          | Some (JList items) =>
              v = if existsb is_files items then JList items
                  else fresh_manifest
          | Some (JStr s) =>
              v = if contains (lit "files") s then JStr s else fresh_manifest
          | Some (JNull | JBool _ | JNum _) => v = fresh_manifest
          end).
Proof.
  assert (Hfresh : has_files fresh_manifest = Some true).
  { unfold fresh_manifest. cbn [has_files]. rewrite lookup_insert_eq.
    by rewrite bool_decide_eq_true_2. }
  unfold load_manifest. destruct (refs w !! MANIFEST_FILE) as [content|] eqn:Hc.
  - destruct (json_loads content) as [j|] eqn:Hj.
    + destruct j as [|b|n|s|items|members]; cbn [has_files set_files default].
      * exists fresh_manifest. split_and!; try done.
        intros c [= <-]. by rewrite Hj.
      * exists fresh_manifest. split_and!; try done.
        intros c [= <-]. by rewrite Hj.
      * exists fresh_manifest. split_and!; try done.
        intros c [= <-]. by rewrite Hj.
      * destruct (contains (lit "files") s) eqn:Hs.
        -- exists (JStr s). split_and!; try done.
           ++ cbn [has_files]. by rewrite Hs.
           ++ intros c [= <-]. by rewrite Hj, Hs.
        -- exists fresh_manifest. split_and!; try done.
           intros c [= <-]. by rewrite Hj, Hs.
      * destruct (existsb is_files items) eqn:Hs.
        -- exists (JList items). split_and!; try done.
           ++ cbn [has_files]. by rewrite Hs.
           ++ intros c [= <-]. by rewrite Hj, Hs.
        -- exists fresh_manifest. split_and!; try done.
           intros c [= <-]. by rewrite Hj, Hs.
      * destruct (bool_decide (is_Some (members !! lit "files"))) eqn:Hs.
        -- exists (JDict members). split_and!; try done.
           ++ cbn [has_files]. by rewrite Hs.
           ++ intros c [= <-]. by rewrite Hj, Hs.
        -- exists (JDict (<[lit "files" := JDict ∅]> members)).
           split_and!; try done.
           ++ cbn [has_files]. rewrite lookup_insert_eq.
              by rewrite bool_decide_eq_true_2.
           ++ intros c [= <-]. by rewrite Hj, Hs.
    + exists fresh_manifest. split_and!; try done.
      intros c [= <-]. by rewrite Hj.
  - exists fresh_manifest. split_and!; try done.
Qed.


(** X14. [discover_doc_urls] never raises, whatever the network does,
    and never returns an empty list. *)
Theorem discover_doc_urls_nonempty (w : World) :
  exists urls w', discover_doc_urls w = (Ok urls, w') /\ urls <> [].
Proof. apply discover_doc_urls_total. Qed.

Lemma session_get_down url w :
  sources_down w ->
  exists w', sources_down w' /\
    (session_get url w = (Raise RequestException, w')
     \/ exists r, session_get url w = (Ok r, w')
                  /\ (400 <= status_code r < 600)%Z).
Proof.
  unfold sources_down, session_get. intros Hdown.
  destruct w as [sc rs ck el es ot rf sk tr]. cbn in *.
  destruct sc as [|[|r] more]; cbn.
  - eexists. split; [|left; reflexivity]. done.
  - apply Forall_cons in Hdown as [_ Hmore].
    eexists. split; [|left; reflexivity]. done.
  - apply Forall_cons in Hdown as [Hr Hmore].
    eexists. split; [|right; exists r; split; [reflexivity|exact Hr]]. done.
Qed.

Lemma try_llms_url_down u w :
  sources_down w ->
  exists w', catch (try_llms_url u) (fun _ => ret None) w = (Ok None, w')
             /\ sources_down w'.
Proof.
  intros Hdown. unfold catch, try_llms_url, bind.
  destruct (session_get_down u w Hdown) as (w' & Hd' & [-> | (r & -> & Hr)]).
  - by exists w'.
  - assert ((status_code r =? 200)%Z = false) as -> by (apply Z.eqb_neq; lia).
    by exists w'.
Qed.

Lemma discover_llms_loop_down urls w :
  sources_down w ->
  exists w', discover_llms_loop urls w = (Ok [], w') /\ sources_down w'.
Proof.
  revert w. induction urls as [|u more IH]; intros w Hdown.
  - by exists w.
  - cbn [discover_llms_loop]. destruct u as [|c u]; [by apply IH|].
    unfold bind at 1.
    destruct (try_llms_url_down (c :: u) w Hdown) as (w1 & -> & Hd1).
    by apply IH.
Qed.

Lemma try_sitemap_url_down u w :
  sources_down w ->
  exists w', catch (try_sitemap_url u) (fun _ => ret None) w = (Ok None, w')
             /\ sources_down w'.
Proof.
  intros Hdown. unfold catch, try_sitemap_url. unfold bind at 1.
  destruct recursion_limit as [|depth]; [by exists w|].
  cbn [fetch_sitemap_urls].
  rewrite bool_decide_eq_false_2 by set_solver.
  unfold bind at 1.
  destruct (session_get_down u w Hdown) as (w' & Hd' & [-> | (r & -> & Hr)]).
  - by exists w'.
  - unfold bind at 1, raise_for_status.
    assert (((400 <=? status_code r) && (status_code r <? 600))%Z = true) as ->.
    { apply andb_true_iff. split; [apply Z.leb_le | apply Z.ltb_lt]; lia. }
    by exists w'.
Qed.

Lemma discover_sitemap_loop_down urls w :
  sources_down w ->
  exists w', discover_sitemap_loop urls w = (Ok [], w') /\ sources_down w'.
Proof.
  revert w. induction urls as [|u more IH]; intros w Hdown.
  - by exists w.
  - cbn [discover_sitemap_loop]. destruct u as [|c u]; [by apply IH|].
    unfold bind at 1.
    destruct (try_sitemap_url_down (c :: u) w Hdown) as (w1 & -> & Hd1).
    by apply IH.
Qed.

(** X15. When every request fails or is answered by a 4xx or 5xx
    status, neither the page lists nor the sitemaps give anything, and
    [discover_doc_urls] returns the static list of [get_fallback_pages]. *)
Theorem discover_doc_urls_fallback (w : World) :
  sources_down w ->
  exists w', discover_doc_urls w = (Ok get_fallback_pages, w').
Proof.
  intros Hdown. unfold discover_doc_urls, bind.
  destruct (discover_llms_loop_down (with_env (env_llms w) LLMS_URLS) w Hdown)
    as (w1 & Hl & Hd1).
  change (discover_pages_from_llms w) with
    (discover_llms_loop (with_env (env_llms w) LLMS_URLS) w).
  rewrite Hl.
  destruct (discover_sitemap_loop_down (with_env (env_sitemap w1) SITEMAP_URLS)
              w1 Hd1) as (w2 & Hs & _).
  change (discover_pages_from_sitemap w1) with
    (discover_sitemap_loop (with_env (env_sitemap w1) SITEMAP_URLS) w1).
  rewrite Hs. by exists w2.
Qed.

End ManifestAndDiscovery.

Lemma discover_doc_urls_fallback_witness :
  (discover_doc_urls (H := Demo.lib) Demo.failing).1 = Ok get_fallback_pages.
Proof.
  destruct (discover_doc_urls_fallback (H := Demo.lib) Demo.failing) as [w' Hw].
  - apply List.Forall_cons; [exact I|].
    apply List.Forall_cons; [cbn; lia|].
    apply List.Forall_cons; [exact I|]. apply List.Forall_nil.
  - by rewrite Hw.
Defined.

(** ** More on [validate_skill_md] *)

(** X16. When [SKILL.md] does not exist nothing is referenced: there
    are no orphaned and no custom entries, and every fetched file other
    than the manifest is reported as unreferenced. *)
Theorem validate_skill_md_missing (fetched_files : gset str) (w : World) :
  skill_md w = None ->
  orphaned (validate_skill_md fetched_files w) = []
  /\ custom (validate_skill_md fetched_files w) = []
  /\ (forall x, x ∈ unreferenced (validate_skill_md fetched_files w) <->
                x ∈ fetched_files /\ x <> MANIFEST_FILE).
Proof.
  intros Hmissing. unfold validate_skill_md, get_skill_md_references.
  rewrite Hmissing. cbn [orphaned unreferenced custom].
  assert (Hnil : forall X : gset str, X = ∅ -> py_sorted (elements X) = []).
  { intros X ->. by rewrite elements_empty. }
  split; [apply Hnil; set_solver|]. split; [apply Hnil; set_solver|].
  intros x. rewrite py_sorted_elem_of. set_solver.
Qed.

Lemma validate_skill_md_missing_witness :
  unreferenced (validate_skill_md {[ lit "hooks.md"; MANIFEST_FILE ]}
                                  (Demo.world [] []))
  = [lit "hooks.md"].
Proof.
  destruct (validate_skill_md_missing {[ lit "hooks.md"; MANIFEST_FILE ]}
              (Demo.world [] []) eq_refl) as (_ & _ & Hu).
  set (l := unreferenced _) in *.
  assert (Hs : sorted_list_of ({[ lit "hooks.md" ]} : gset str) l).
  { split; [apply py_sorted_sorted|]. split.
    - unfold l, validate_skill_md. cbn [unreferenced].
      rewrite py_sorted_perm. apply NoDup_elements.
    - intros x. rewrite Hu. rewrite elem_of_singleton.
      split; [|by intros ->; split; [set_solver|]].
      intros [[->%elem_of_singleton | ->%elem_of_singleton]%elem_of_union Hne]; done. }
  apply (sorted_list_of_unique {[ lit "hooks.md" ]}); [done|].
  split; [repeat constructor|]. split; [apply NoDup_singleton|].
  intros x. by rewrite list_elem_of_singleton, elem_of_singleton.
Defined.

(** ** More on [remove_export_components] *)

Lemma split_on_line c line :
  c ∉ line -> split_on c line = [line].
Proof.
  induction line as [|x line IH]; [done|]. intros Hc. cbn [split_on].
  assert (chr_eqb x c = false) as ->.
  { apply chr_eqb_neq. intros ->. apply Hc. left. }
  rewrite IH; [done|]. intros Hin. apply Hc. by right.
Qed.

Lemma split_on_app_line c line s :
  c ∉ line ->
  split_on c (line ++ c :: s) = line :: split_on c s.
Proof.
  induction line as [|x line IH]; intros Hc.
  - cbn [app split_on]. by rewrite chr_eqb_refl.
  - cbn [app split_on].
    assert (chr_eqb x c = false) as ->.
    { apply chr_eqb_neq. intros ->. apply Hc. left. }
    rewrite IH; [done|]. intros Hin. apply Hc. by right.
Qed.

(** Splitting what [join] made of lines gives the lines back. *)
Lemma split_on_join lines :
  lines <> [] -> Forall (fun line => "010"%char ∉ line) lines ->
  split_on "010" (join nl lines) = lines.
Proof.
  induction lines as [|line lines IH]; [done|]. intros _ Hall.
  apply Forall_cons in Hall as [Hline Hlines].
  destruct lines as [|line' lines].
  - cbn [join]. by apply split_on_line.
  - change (join nl (line :: line' :: lines))
      with (line ++ "010"%char :: join nl (line' :: lines)).
    rewrite split_on_app_line by done. f_equal. by apply IH.
Qed.

Lemma remove_export_lines_kept pre more :
  Forall (fun line => startswith (lit "export") line = false) pre ->
  remove_export_lines false (pre ++ more) = pre ++ remove_export_lines false more.
Proof.
  induction 1 as [|line pre Hl _ IH]; [done|].
  cbn [app remove_export_lines]. rewrite (re_match_export_const _ Hl).
  by rewrite IH.
Qed.

Lemma remove_export_lines_inside inner more :
  Forall (fun line => re_match export_end_re line = false) inner ->
  remove_export_lines true (inner ++ more) = remove_export_lines true more.
Proof.
  induction 1 as [|line inner Hl _ IH]; [done|].
  cbn [app remove_export_lines]. by rewrite Hl.
Qed.

(** X17. An [export const] block is removed from its first line to the
    first line that closes it: when the lines before and after do not start
    with [export], the lines inside do not match the closing pattern and
    the closing line does, what is left is the lines before and the lines
    after. *)
Theorem remove_export_components_block (pre inner post : list str)
    (header closer : str) :
  Forall (fun line => "010"%char ∉ line)
         (pre ++ header :: inner ++ closer :: post) ->
  Forall (fun line => startswith (lit "export") line = false) (pre ++ post) ->
  re_match export_const_re header = true ->
  Forall (fun line => re_match export_end_re line = false) inner ->
  re_match export_end_re closer = true ->
  remove_export_components (join nl (pre ++ header :: inner ++ closer :: post))
  = join nl (pre ++ post).
Proof.
  intros Hnl Hplain Hheader Hinner Hcloser.
  apply Forall_app in Hplain as [Hpre Hpost].
  unfold remove_export_components.
  rewrite split_on_join; [|by destruct pre|done].
  rewrite (remove_export_lines_kept _ _ Hpre).
  cbn [remove_export_lines]. rewrite Hheader.
  rewrite (remove_export_lines_inside _ _ Hinner).
  cbn [remove_export_lines]. rewrite Hcloser.
  by rewrite (remove_export_lines_none _ Hpost).
Qed.

(** X18. An [export const] block that no line closes swallows the rest
    of the text: only the lines before its first line are left. *)
Theorem remove_export_components_unclosed (pre rest : list str) (header : str) :
  Forall (fun line => "010"%char ∉ line) (pre ++ header :: rest) ->
  Forall (fun line => startswith (lit "export") line = false) pre ->
  re_match export_const_re header = true ->
  Forall (fun line => re_match export_end_re line = false) rest ->
  remove_export_components (join nl (pre ++ header :: rest)) = join nl pre.
Proof.
  intros Hnl Hpre Hheader Hrest.
  unfold remove_export_components.
  rewrite split_on_join; [|by destruct pre|done].
  rewrite (remove_export_lines_kept _ _ Hpre).
  cbn [remove_export_lines]. rewrite Hheader.
  rewrite <- (app_nil_r rest), (remove_export_lines_inside _ _ Hrest).
  cbn [remove_export_lines]. by rewrite app_nil_r.
Qed.

Lemma remove_export_components_block_witness :
  remove_export_components
    (join nl [lit "# Title"; lit "export const Card = ({title}) => {";
              lit "  return title;"; lit "};"; lit "Text."])
  = join nl [lit "# Title"; lit "Text."].
Proof.
  apply (remove_export_components_block [lit "# Title"] [lit "  return title;"]
           [lit "Text."] (lit "export const Card = ({title}) => {") (lit "};")).
  - repeat (apply List.Forall_cons; [notin_lit|]). apply List.Forall_nil.
  - repeat (apply List.Forall_cons; [reflexivity|]). apply List.Forall_nil.
  - reflexivity.
  - repeat (apply List.Forall_cons; [reflexivity|]). apply List.Forall_nil.
  - reflexivity.
Defined.

Lemma remove_export_components_unclosed_witness :
  remove_export_components
    (join nl [lit "# Title"; lit "export const LIMIT = 5;"; lit "Text.";
              lit "More text."])
  = lit "# Title".
Proof.
  apply (remove_export_components_unclosed [lit "# Title"]
           [lit "Text."; lit "More text."] (lit "export const LIMIT = 5;")).
  - repeat (apply List.Forall_cons; [notin_lit|]). apply List.Forall_nil.
  - repeat (apply List.Forall_cons; [reflexivity|]). apply List.Forall_nil.
  - reflexivity.
  - repeat (apply List.Forall_cons; [reflexivity|]). apply List.Forall_nil.
Defined.

(** ** The requests of [fetch_sitemap_urls] and of [fetch_markdown_url] *)

Section Requests.
Context `{PyLib}.

Lemma session_get_trace url w :
  trace (session_get url w).2 = trace w ++ [EvGet url].
Proof. unfold session_get. cbn. by destruct (script w) as [|[|r] more]. Qed.

Lemma requests_fresh_none (seen : gset str) (m : M (list str * gset str)) :
  (forall w, trace (m w).2 = trace w) ->
  (forall w urls seen', (m w).1 = Ok (urls, seen') -> seen' = seen) ->
  requests_fresh seen m.
Proof.
  intros Ht Hs w. exists []. cbn [map list_to_set].
  rewrite app_nil_r. split; [apply Ht|]. split; [constructor|].
  split; [intros u Hu; by apply elem_of_nil in Hu|].
  intros urls seen' Hr. apply Hs in Hr. set_solver.
Qed.

Lemma requests_fresh_sitemap_index_loop
    (visit : str -> gset str -> M (list str * gset str)) :
  (forall loc seen, requests_fresh seen (visit loc seen)) ->
  forall locs urls seen,
    requests_fresh seen (sitemap_index_loop visit locs urls seen).
Proof.
  intros Hvisit. induction locs as [|loc more IH]; intros urls seen.
  - cbn [sitemap_index_loop]. apply requests_fresh_none; [done|].
    intros w urls' seen' Hr. cbv [ret] in Hr. cbn in Hr. congruence.
  - cbn [sitemap_index_loop]. destruct (nonempty loc); [|apply IH].
    intros w. unfold bind.
    destruct (Hvisit loc seen w) as (g1 & Ht1 & Hnd1 & Hfresh1 & Hseen1).
    destruct (visit loc seen w) as [[[found seen1]|e] w1]; cbn [fst snd] in *.
    + specialize (Hseen1 _ _ eq_refl). subst seen1.
      destruct (IH (urls ++ found) (seen ∪ list_to_set g1) w1)
        as (g2 & Ht2 & Hnd2 & Hfresh2 & Hseen2).
      exists (g1 ++ g2). split; [|split; [|split]].
      * by rewrite Ht2, Ht1, map_app, app_assoc.
      * apply NoDup_app. split; [done|]. split; [|done].
        intros u Hu1 Hu2. apply (Hfresh2 u Hu2). set_solver.
      * intros u [Hu|Hu]%elem_of_app; [by apply Hfresh1|].
        intros Hin. apply (Hfresh2 u Hu). set_solver.
      * intros urls' seen' Hr. rewrite (Hseen2 _ _ Hr). set_solver.
    + exists g1. split; [done|]. split; [done|]. split; [done|].
      intros urls' seen' Hr. discriminate Hr.
Qed.

Lemma requests_fresh_one (url : str) (seen : gset str)
    (p : result (list str * gset str) * World) (w : World) :
  url ∉ seen ->
  trace p.2 = trace w ++ [EvGet url] ->
  (forall urls seen', p.1 = Ok (urls, seen') -> seen' = {[ url ]} ∪ seen) ->
  exists requested : list str,
    trace p.2 = trace w ++ map EvGet requested
    /\ NoDup requested
    /\ (forall u, u ∈ requested -> u ∉ seen)
    /\ (forall urls seen',
          p.1 = Ok (urls, seen') -> seen' = seen ∪ list_to_set requested).
Proof.
  intros Hnew Ht Hs. exists [url]. split; [exact Ht|].
  split; [apply NoDup_singleton|]. split.
  - intros u Hu%list_elem_of_singleton. by subst u.
  - intros urls seen' Hr. rewrite (Hs _ _ Hr). set_solver.
Qed.

Lemma requests_fresh_fetch_sitemap_urls depth :
  forall sitemap_url seen,
    requests_fresh seen (fetch_sitemap_urls depth sitemap_url seen).
Proof.
  induction depth as [|depth IH]; intros sitemap_url seen.
  - cbn [fetch_sitemap_urls]. by apply requests_fresh_none.
  - cbn [fetch_sitemap_urls]. case_bool_decide as Hseen.
    + apply requests_fresh_none; [done|].
      intros w urls seen' Hr. cbv [ret] in Hr. cbn in Hr. congruence.
    + intros w. unfold bind, raise_for_status.
      pose proof (session_get_trace sitemap_url w) as Hget.
      destruct (session_get sitemap_url w) as [[resp|e] w1]; cbn [fst snd] in Hget;
        [|by apply (requests_fresh_one sitemap_url seen (Raise e, w1) w)].
      destruct (_ && _); cbv [raise ret]; cbn beta iota;
        [by apply (requests_fresh_one sitemap_url seen
                     (Raise RequestException, w1) w)|].
      destruct (xml resp) as [root|]; cbv [of_option raise ret]; cbn beta iota;
        [|by apply (requests_fresh_one sitemap_url seen (Raise ParseError, w1) w)].
      destruct (contains _ _).
      * destruct (requests_fresh_sitemap_index_loop (fetch_sitemap_urls depth)
                    IH (ns_locs root) [] ({[ sitemap_url ]} ∪ seen) w1)
          as (g & Ht & Hnd & Hfresh & Hs).
        exists (sitemap_url :: g). split; [|split; [|split]].
        -- rewrite Ht, Hget. cbn [map]. by rewrite <- app_assoc.
        -- apply NoDup_cons. split; [|done].
           intros Hin. apply (Hfresh _ Hin). set_solver.
        -- intros u [->|Hu]%elem_of_cons; [done|].
           intros Hin. apply (Hfresh _ Hu). set_solver.
        -- intros urls seen' Hr. rewrite (Hs _ _ Hr). set_solver.
      * apply (requests_fresh_one sitemap_url seen _ w); try done.
        intros urls seen' Hr. cbn in Hr. congruence.
Qed.

(** X19. One call of [fetch_sitemap_urls] requests no address twice and
    none that is in [seen]: what it adds to the trace are requests only,
    for pairwise distinct addresses outside [seen], so sitemap indexes
    that list themselves or one another are each fetched once.  A call for
    an address in [seen] requests nothing, and the set a call returns is
    [seen] with the addresses it requested. *)
Theorem fetch_sitemap_urls_requests (depth : nat) (sitemap_url : str)
    (seen : gset str) (w : World) :
  exists requested : list str,
    new_events w (fetch_sitemap_urls depth sitemap_url seen w).2
    = map EvGet requested
    /\ NoDup requested
    /\ (forall u, u ∈ requested -> u ∉ seen)
    /\ (sitemap_url ∈ seen -> requested = [])
    /\ (forall urls seen',
          (fetch_sitemap_urls depth sitemap_url seen w).1 = Ok (urls, seen') ->
          seen' = seen ∪ list_to_set requested).
Proof.
  destruct (requests_fresh_fetch_sitemap_urls depth sitemap_url seen w)
    as (g & Ht & Hnd & Hfresh & Hs).
  exists g. unfold new_events. rewrite Ht, drop_app_length.
  split; [done|]. split; [done|]. split; [done|]. split; [|done].
  intros Hin.
  assert (Hnil : trace w ++ map EvGet g = trace w ++ [] -> g = []).
  { intros Hq%app_inv_head. by destruct g. }
  apply Hnil. rewrite app_nil_r, <- Ht. destruct depth as [|depth]; [done|].
  cbn [fetch_sitemap_urls]. by rewrite bool_decide_eq_true_2.
Qed.

Lemma emits_ret {A} P (a : A) : emits P (ret a).
Proof. intros w. exists []. by rewrite app_nil_r. Qed.

Lemma emits_raise {A} P e : emits P (@raise A e).
Proof. intros w. exists []. by rewrite app_nil_r. Qed.

Lemma emits_bind {A B} P (m : M A) (k : A -> M B) :
  emits P m -> (forall x, emits P (k x)) -> emits P (bind m k).
Proof.
  intros Hm Hk w. unfold bind.
  destruct (Hm w) as (e1 & Ht1 & Hn1).
  destruct (m w) as [[x|e] w1]; cbn [fst snd] in *.
  - destruct (Hk x w1) as (e2 & Ht2 & Hn2). exists (e1 ++ e2).
    rewrite Ht2, Ht1, app_assoc. split; [done | by apply Forall_app].
  - by exists e1.
Qed.

Lemma emits_catch {A} P (m : M A) (h : exn -> M A) :
  emits P m -> (forall e, emits P (h e)) -> emits P (catch m h).
Proof.
  intros Hm Hh w. unfold catch.
  destruct (Hm w) as (e1 & Ht1 & Hn1).
  destruct (m w) as [[x|e] w1]; cbn [fst snd] in *.
  - by exists e1.
  - destruct (Hh e w1) as (e2 & Ht2 & Hn2). exists (e1 ++ e2).
    rewrite Ht2, Ht1, app_assoc. split; [done | by apply Forall_app].
Qed.

Lemma emits_session_get (P : event -> Prop) url :
  P (EvGet url) -> emits P (session_get url).
Proof.
  intros HP w. exists [EvGet url]. split; [apply session_get_trace|].
  by apply Forall_singleton.
Qed.

Lemma emits_sleep (P : event -> Prop) q : P (EvSleep q) -> emits P (sleep q).
Proof.
  intros HP w. unfold sleep. destruct (Qle_bool 0 q); cbn [snd].
  - exists [EvSleep q]. split; [done|]. by apply Forall_singleton.
  - exists []. by rewrite app_nil_r.
Qed.

Lemma emits_random P : emits P random.
Proof.
  intros w. unfold random.
  destruct (randoms w); cbn; exists []; by rewrite app_nil_r.
Qed.

Lemma emits_fetch_attempts f m o attempts :
  emits (asks_only m) (fetch_attempts f m o attempts).
Proof.
  induction attempts as [|a later IH]; cbn [fetch_attempts];
    [apply emits_ret|].
  apply emits_bind.
  - apply emits_catch.
    + unfold attempt_body. apply emits_bind; [by apply emits_session_get|].
      intros resp. destruct (_ =? _)%Z.
      * apply emits_bind.
        { destruct (retry_after resp) as [v|]; [|apply emits_ret].
          destruct (py_int v); [apply emits_ret | apply emits_raise]. }
        intros wait. apply emits_bind; [by apply emits_sleep|].
        intros _. apply emits_ret.
      * apply emits_bind.
        { unfold raise_for_status.
          destruct (_ && _); [apply emits_raise | apply emits_ret]. }
        intros _. apply emits_bind; [|intros _; apply emits_ret].
        intros w. exists []. by rewrite app_nil_r.
    + intros e. unfold attempt_handler.
      destruct e; try apply emits_raise.
      destruct (_ <? _); [|apply emits_raise].
      unfold uniform. repeat (apply emits_bind; [|intros ?]);
        first [apply emits_random | by apply emits_sleep | apply emits_ret].
  - intros [|r]; [exact IH | apply emits_ret].
Qed.

(** X20. Every request of [fetch_markdown_url] goes to the markdown
    address that [normalize_doc_url] computes, which ends with [.md]; the
    page address itself is never requested.  Besides requests the call
    only sleeps: it writes and deletes nothing. *)
Theorem fetch_markdown_url_requests (doc_url : str) (w : World) :
  let markdown_url := (normalize_doc_url doc_url).2 in
  endswith (lit ".md") markdown_url = true
  /\ Forall (asks_only markdown_url)
            (new_events w (fetch_markdown_url doc_url w).2).
Proof.
  cbn zeta. split.
  - rewrite normalize_doc_url_md_eq. apply endswith_app.
  - unfold fetch_markdown_url.
    destruct (normalize_doc_url doc_url) as [o m] eqn:Hn. cbn [snd].
    assert (Hem : emits (asks_only m)
              (bind (of_option ValueError (url_to_safe_filename o))
                    (fun filename =>
                       fetch_attempts filename m o (seq 0 MAX_RETRIES)))).
    { apply emits_bind.
      - destruct (url_to_safe_filename o); [apply emits_ret | apply emits_raise].
      - intros f. apply emits_fetch_attempts. }
    destruct (Hem w) as (evs & Ht & Hall).
    unfold new_events. by rewrite Ht, drop_app_length.
Qed.

End Requests.

(** ** [update_skill_md_uncategorized] *)

Lemma uncategorized_entries (new_files : list str) (section : str) :
  fold_left (fun section filename => section ++ uncategorized_entry filename)
            new_files section
  = section ++ concat (map uncategorized_entry new_files).
Proof.
  revert section. induction new_files as [|f more IH]; intros section.
  - cbn. by rewrite app_nil_r.
  - cbn [fold_left map concat]. by rewrite IH, <- app_assoc.
Qed.

Lemma rstrip_by_drop p s c : p c = true -> rstrip_by p (s ++ [c]) = rstrip_by p s.
Proof. intros Hc. unfold rstrip_by. rewrite rev_unit. cbn. by rewrite Hc. Qed.

(** The entries of a list that is not empty end with a closing bracket
    and a line break. *)
Lemma uncategorized_entries_end (new_files : list str) :
  new_files <> [] ->
  exists body, concat (map uncategorized_entry new_files)
               = (body ++ [")"%char]) ++ nl.
Proof.
  destruct new_files as [|f more _] using rev_ind; [done|]. intros _.
  rewrite map_app, concat_app. cbn [map concat]. rewrite app_nil_r.
  exists (concat (map uncategorized_entry more)
          ++ lit "- `references/" ++ f ++ lit "` - (new, needs categorization").
  unfold uncategorized_entry.
  change (lit "` - (new, needs categorization)")
    with (lit "` - (new, needs categorization" ++ [")"%char]).
  by rewrite <- !app_assoc.
Qed.

(** X21. With [SKILL.md] missing, the update that [main] makes from the
    validation raises [FileNotFoundError] as soon as one file other than
    the manifest was fetched: every such file is unreferenced then, and
    [read_text] is not guarded by a test that the file exists.  With no
    file to add the function returns before it reads anything. *)
Theorem update_skill_md_uncategorized_missing (fetched_files : gset str)
    (filename : str) (w : World) :
  skill_md w = None ->
  filename ∈ fetched_files -> filename <> MANIFEST_FILE ->
  update_skill_md_uncategorized
    (unreferenced (validate_skill_md fetched_files w)) w = None
  /\ update_skill_md_uncategorized [] w = Some w.
Proof.
  intros Hmissing Hin Hne. split; [|done].
  assert (Hun : filename ∈ unreferenced (validate_skill_md fetched_files w)).
  { unfold validate_skill_md, get_skill_md_references. rewrite Hmissing.
    cbn [unreferenced]. rewrite py_sorted_elem_of. set_solver. }
  unfold update_skill_md_uncategorized.
  destruct (unreferenced _) as [|x more]; [by apply elem_of_nil in Hun|].
  by rewrite Hmissing.
Qed.

Lemma update_skill_md_uncategorized_missing_witness :
  update_skill_md_uncategorized
    (unreferenced (validate_skill_md {[ lit "hooks.md" ]} (Demo.world [] [])))
    (Demo.world [] []) = None.
Proof.
  apply (update_skill_md_uncategorized_missing {[ lit "hooks.md" ]}
           (lit "hooks.md") (Demo.world [] [])).
  - reflexivity.
  - set_solver.
  - discriminate.
Defined.

(** X22. Two updates in a row, on a [SKILL.md] that has no
    [Uncategorized] heading: the first adds the heading, the second finds
    it and adds none.  But the second strips the line break that ended
    the first one's last entry and puts nothing in its place, so its
    first entry continues that line. *)
Theorem update_skill_md_uncategorized_twice (first second : list str)
    (content : str) (w : World) :
  skill_md w = Some content ->
  contains uncategorized_heading content = false ->
  first <> [] -> second <> [] ->
  exists w1 w2,
    update_skill_md_uncategorized first w = Some w1
    /\ update_skill_md_uncategorized second w1 = Some w2
    /\ skill_md w1
       = Some (rstrip_by is_space content ++ uncategorized_intro
               ++ concat (map uncategorized_entry first))
    /\ skill_md w2
       = Some (rstrip_by is_space content ++ uncategorized_intro
               ++ drop_last 1 (concat (map uncategorized_entry first))
               ++ concat (map uncategorized_entry second))
    /\ refs w2 = refs w /\ trace w2 = trace w.
Proof.
  intros Hskill Hnew Hfirst Hsecond.
  destruct (uncategorized_entries_end first Hfirst) as [body Hbody].
  set (c1 := rstrip_by is_space content ++ uncategorized_intro
             ++ concat (map uncategorized_entry first)).
  assert (Hhead : contains uncategorized_heading c1 = true).
  { apply contains_infix.
    exists (rstrip_by is_space content ++ nl ++ nl),
           ((nl ++ nl)
            ++ lit "<!-- Review and move these to appropriate sections -->"
            ++ nl ++ nl ++ concat (map uncategorized_entry first)).
    unfold c1, uncategorized_intro. by rewrite <- !app_assoc. }
  assert (Hstrip : rstrip_by is_space c1
                   = rstrip_by is_space content ++ uncategorized_intro
                     ++ drop_last 1 (concat (map uncategorized_entry first))).
  { unfold c1. rewrite Hbody.
    replace (drop_last 1 ((body ++ [")"%char]) ++ nl)) with (body ++ [")"%char])
      by (symmetry; apply (drop_last_app _ nl)).
    replace (rstrip_by is_space content ++ uncategorized_intro
             ++ (body ++ [")"%char]) ++ nl)
      with (((rstrip_by is_space content ++ uncategorized_intro ++ body)
             ++ [")"%char]) ++ ["010"%char])
      by (unfold nl; by rewrite <- !app_assoc).
    rewrite rstrip_by_drop by reflexivity.
    rewrite rstrip_by_keep by reflexivity. by rewrite <- !app_assoc. }
  destruct first as [|f1 r1]; [done|]. destruct second as [|f2 r2]; [done|].
  eexists _, _. split; [|split].
  - unfold update_skill_md_uncategorized. rewrite Hskill, Hnew.
    rewrite uncategorized_entries. reflexivity.
  - unfold update_skill_md_uncategorized. cbn [skill_md].
    fold c1. rewrite Hhead, Hstrip, uncategorized_entries. reflexivity.
  - cbn [skill_md refs trace]. split; [done|]. split; [|done].
    by rewrite app_nil_l, <- !app_assoc.
Qed.

Lemma update_skill_md_uncategorized_twice_witness :
  exists w1 w2,
    update_skill_md_uncategorized [lit "hooks.md"]
      (Demo.documented (lit "# Skill" ++ nl)) = Some w1
    /\ update_skill_md_uncategorized [lit "plugins.md"] w1 = Some w2
    /\ skill_md w2
       = Some (lit "# Skill" ++ uncategorized_intro
               ++ lit "- `references/hooks.md` - (new, needs categorization)"
               ++ lit "- `references/plugins.md` - (new, needs categorization)"
               ++ nl).
Proof.
  destruct (update_skill_md_uncategorized_twice [lit "hooks.md"]
              [lit "plugins.md"] (lit "# Skill" ++ nl)
              (Demo.documented (lit "# Skill" ++ nl)))
    as (w1 & w2 & H1 & H2 & _ & H3 & _); try done.
  exists w1, w2. split; [exact H1|]. split; [exact H2|]. exact H3.
Defined.

(** ** [fetch_docs] with the network down *)

Section Offline.
Context `{PyLib}.








End Offline.


(** ** More on [parse_llms_txt] *)

Lemma lstrip_by_app_keep p l c :
  p c = false -> lstrip_by p (l ++ [c]) = lstrip_by p l ++ [c].
Proof.
  intros Hc. induction l as [|x l IH]; cbn [app lstrip_by].
  - by rewrite Hc.
  - by destruct (p x).
Qed.

Lemma rstrip_by_cons_keep p c t :
  p c = false -> exists t', rstrip_by p (c :: t) = c :: t'.
Proof.
  intros Hc. unfold rstrip_by. cbn [rev].
  rewrite lstrip_by_app_keep by done. rewrite rev_unit. by eexists.
Qed.

Lemma startswith_other (c x : ascii) (p s : str) :
  x <> c -> startswith (c :: p) (x :: s) = false.
Proof.
  intros Hne. cbn [startswith].
  destruct (chr_eqb c x) eqn:Hq; [|done].
  apply chr_eqb_eq in Hq. by subst.
Qed.

Lemma parse_llms_line_passed_over base_url line :
  passed_over line -> parse_llms_line base_url line = None.
Proof.
  unfold parse_llms_line.
  intros [-> | (c & rest & Hline & Hslash & Hh & Hdash & Hspace)]; [done|].
  assert (Hnone : forall t,
            (if startswith (lit "http")
                  (if startswith (lit "/") (c :: t) then base_url ++ c :: t
                   else c :: t)
                && is_agent_sdk_url
                     (if startswith (lit "/") (c :: t) then base_url ++ c :: t
                      else c :: t)
             then Some (if startswith (lit "/") (c :: t) then base_url ++ c :: t
                        else c :: t)
             else None) = None).
  { intros t. change (lit "/") with ["/"%char].
    rewrite (startswith_other "/" c [] t Hslash).
    change (lit "http") with ("h"%char :: lit "ttp").
    by rewrite (startswith_other "h" c _ t Hh). }
  destruct Hline as [-> | ->].
  - destruct (startswith (lit "#") (c :: rest)); [done|].
    change (lit "-") with ["-"%char].
    rewrite (startswith_other "-" c [] rest Hdash). apply Hnone.
  - assert (H1 : startswith (lit "#") ("-"%char :: " "%char :: c :: rest) = false)
      by reflexivity.
    assert (H2 : startswith (lit "-") ("-"%char :: " "%char :: c :: rest) = true)
      by reflexivity.
    assert (H3 : lstrip_by (is_chr "-") ("-"%char :: " "%char :: c :: rest)
                 = " "%char :: c :: rest) by reflexivity.
    assert (H4 : lstrip_by is_space (" "%char :: c :: rest) = c :: rest).
    { change (lstrip_by is_space (" "%char :: c :: rest))
        with (if is_space c then lstrip_by is_space rest else c :: rest).
      by rewrite Hspace. }
    rewrite H1, H2, H3. unfold py_strip, strip_by. rewrite H4.
    destruct (rstrip_by_cons_keep is_space c rest Hspace) as [t' ->].
    apply Hnone.
Qed.

Lemma omap_none {A B} (f : A -> option B) (l : list A) :
  Forall (fun x => f x = None) l -> omap f l = [].
Proof. induction 1 as [|x l Hx _ IH]; [done|]. cbn. by rewrite Hx. Qed.

(** X24. [parse_llms_txt] takes a line only when its text, after the
    dashes and blanks of a list item, starts with [/] or with [http].  A
    text whose lines are blank, headings, quotations or markdown links
    [- [title](url)], the form of a usual [llms.txt], gives no address at
    all, whatever addresses the links hold. *)
Theorem parse_llms_txt_passes_over (text base_url : str) :
  Forall passed_over (splitlines text) ->
  parse_llms_txt text base_url = [].
Proof.
  intros Hlines. unfold parse_llms_txt. apply omap_none.
  eapply Forall_impl; [exact Hlines|].
  intros line Hline. by apply parse_llms_line_passed_over.
Qed.

Lemma parse_llms_txt_passes_over_witness :
  parse_llms_txt
    (lit "# Docs" ++ nl ++ nl
     ++ lit "- [Hooks](https://platform.claude.com/docs/en/agent-sdk/hooks.md)"
     ++ nl)
    (lit "https://platform.claude.com")
  = [].
Proof.
  apply parse_llms_txt_passes_over.
  apply List.Forall_cons; [|apply List.Forall_cons; [|apply List.Forall_cons]].
  - right. exists "#"%char, (lit " Docs").
    split; [left; reflexivity|]. by repeat split.
  - left. reflexivity.
  - right.
    exists "["%char,
      (lit "Hooks](https://platform.claude.com/docs/en/agent-sdk/hooks.md)").
    split; [right; reflexivity|]. by repeat split.
  - apply List.Forall_nil.
Defined.

(** ** The rewriting rules of [clean_mdx_content] *)

Lemma sub_from_tagless_prefix r repl pv a b :
  tag_led r -> "<"%char ∉ a ->
  sub_from r repl pv 0 (a ++ b) = a ++ sub_from r repl (prev_after pv a) 0 b.
Proof. intros Hled Ha. apply sub_from_quiet_prefix. by apply tag_led_quiet. Qed.

Lemma sub_from_miss r repl pv c b :
  match_at r pv (c :: b) = None ->
  sub_from r repl pv 0 (c :: b) = c :: sub_from r repl (Some c) 0 b.
Proof. intros Hm. cbn [sub_from]. by rewrite Hm. Qed.

(** A lazy repetition stops at the first position where what follows
    accepts. *)
Lemma rep_lazy_first p pv a b g k st :
  Forall (fun c => p c = true) a ->
  (forall pv' a1 c a2, a = a1 ++ c :: a2 ->
     k (MState pv' (c :: a2 ++ b) g) = None) ->
  k (MState (prev_after pv a) b g) = Some st ->
  rep false p 0 pv (a ++ b) g k = Some st.
Proof.
  revert pv. induction a as [|c a IH]; intros pv Hp Hfail Hk.
  - cbn [app]. destruct b as [|x b]; cbn [rep]; cbn [prev_after] in Hk;
      by rewrite Hk.
  - apply Forall_cons in Hp as [Hc Hp]. cbn [app rep].
    rewrite (Hfail pv [] c a eq_refl), Hc. cbn [orelse].
    apply IH; [done| |by rewrite (prev_after_cons pv)].
    intros pv' a1 c' a2 ->. by apply (Hfail pv' (c :: a1) c' a2).
Qed.

(** A greedy repetition fails when what follows refuses every length. *)
Lemma rep_greedy_none p lo pv s g k :
  (forall pv' n, n <= prun p s -> k (MState pv' (drop n s) g) = None) ->
  rep true p lo pv s g k = None.
Proof.
  revert lo pv. induction s as [|c s IH]; intros lo pv Hk.
  - destruct lo; cbn [rep orelse]; [|done]. apply (Hk pv 0). lia.
  - assert (Hmore : p c = true -> forall lo', rep true p lo' (Some c) s g k = None).
    { intros Hc lo'. apply IH. intros pv' n Hn.
      apply (Hk pv' (S n)). cbn [prun]. rewrite Hc. lia. }
    destruct lo as [|lo]; cbn [rep].
    + destruct (p c) eqn:Hc.
      * rewrite Hmore by done. cbn [orelse]. apply (Hk pv 0). lia.
      * cbn [orelse]. apply (Hk pv 0). lia.
    + destruct (p c) eqn:Hc; [by apply Hmore | done].
Qed.

(** A greedy repetition takes the whole run when what follows accepts
    there. *)
Lemma rep_greedy_run p lo pv a b g k st :
  Forall (fun c => p c = true) a -> lo <= length a -> prun p b = 0 ->
  k (MState (prev_after pv a) b g) = Some st ->
  rep true p lo pv (a ++ b) g k = Some st.
Proof.
  revert lo pv. induction a as [|c a IH]; intros lo pv Hp Hlo Hb Hk.
  - cbn [length] in Hlo. assert (lo = 0) as -> by lia. cbn [app].
    cbn [prev_after] in Hk.
    destruct b as [|x b]; cbn [rep orelse]; [done|].
    cbn [prun] in Hb. destruct (p x); [done|]. done.
  - apply Forall_cons in Hp as [Hc Hp]. cbn [app].
    assert (Hmore : forall lo', lo' <= length a ->
              rep true p lo' (Some c) (a ++ b) g k = Some st).
    { intros lo' Hlo'. apply IH; try done. by rewrite (prev_after_cons pv). }
    destruct lo as [|lo]; cbn [rep]; rewrite Hc.
    + rewrite Hmore by lia. done.
    + apply Hmore. cbn [length] in Hlo. lia.
Qed.

(** The run of characters accepted by [p] at the front of a text ends
    before a character that [p] refuses. *)
Lemma prun_before p x d t : p d = false -> prun p (x ++ d :: t) <= length x.
Proof.
  intros Hd. induction x as [|c x IH]; cbn [app prun length].
  - by rewrite Hd.
  - destruct (p c); lia.
Qed.

Lemma match_at_block (tag : string) pv ws1 body ws2 post :
  Forall (fun c => is_space c = true) ws1 ->
  Forall (fun c => is_space c = true) ws2 ->
  body <> [] -> py_strip body = body -> "<"%char ∉ body ->
  exists st,
    match_at (block_re tag) pv
      ((lit "<" ++ lit tag ++ lit ">") ++ ws1 ++ body ++ ws2
       ++ (lit "</" ++ lit tag ++ lit ">") ++ post) = Some st
    /\ rest st = post /\ group 1 st = body.
Proof.
  intros Hws1 Hws2 Hne Hstrip Htag.
  assert (Hfirst : forall c t, body = c :: t -> is_space c = false).
  { intros c t Hb. apply (strip_by_head is_space body c t).
    unfold py_strip in Hstrip. by rewrite Hstrip. }
  assert (Hlast : exists x d, body = x ++ [d] /\ is_space d = false).
  { destruct body as [|c t _] using rev_ind; [done|]. exists t, c. split; [done|].
    apply (rstrip_by_last is_space (lstrip_by is_space (t ++ [c])) t c).
    unfold py_strip, strip_by in Hstrip. exact Hstrip. }
  set (close := lit "</" ++ lit tag ++ lit ">").
  set (open := lit "<" ++ lit tag ++ lit ">").
  unfold match_at, block_re. fold open close. cbn [rmatch rest prev grps].
  rewrite startswith_app. unfold advance. cbn [rest prev grps].
  rewrite drop_app_length.
  set (pv1 := match open with [] => pv | _ => _ end).
  eexists. split.
  - apply rep_greedy_run; [done|lia| |].
    { destruct body as [|c t]; [done|]. cbn [app prun].
      by rewrite (Hfirst c t eq_refl). }
    cbn [rmatch rest prev grps].
    apply rep_lazy_first; [by apply Forall_true| |].
    + intros pv' a1 c a2 Hsplit. cbn [rest prev grps].
      apply rep_greedy_none. intros pv'' n Hn. cbn [rmatch rest].
      destruct Hlast as (x & d & Hx & Hd).
      assert (Hsuffix : exists y, c :: a2 = y ++ [d]).
      { destruct a2 as [|e a2 _] using rev_ind.
        - exists []. rewrite Hx in Hsplit.
          apply app_inj_tail in Hsplit as [_ ->]. done.
        - exists (c :: a2). rewrite Hx in Hsplit.
          rewrite app_comm_cons, app_assoc in Hsplit.
          apply app_inj_tail in Hsplit as [_ ->]. done. }
      destruct Hsuffix as [y Hy].
      assert (Hrun : n <= length y).
      { etrans; [exact Hn|]. rewrite app_comm_cons, Hy, <- app_assoc.
        cbn [app]. by apply prun_before. }
      rewrite app_comm_cons, Hy, <- app_assoc. cbn [app].
      rewrite drop_app_le by done.
      destruct (drop n y ++ d :: ws2 ++ close ++ post) as [|z zs] eqn:Hz;
        [by destruct (drop n y)|].
      assert (Hzin : z ∈ body).
      { rewrite Hsplit. apply elem_of_app. right. rewrite Hy.
        destruct (drop n y) as [|z' zs'] eqn:Hdrop.
        - injection Hz as <- _. apply elem_of_app. right. left.
        - injection Hz as <- _. apply elem_of_app. left.
          rewrite <- (take_drop n y), Hdrop. apply elem_of_app. right. left. }
      assert (z <> "<"%char) by (intros ->; done).
      unfold close. cbn [lit list_ascii_of_string app].
      by rewrite startswith_cons_ne.
    + cbn [rest prev grps].
      apply rep_greedy_run; [done|lia|reflexivity|].
      cbn [rmatch rest]. rewrite startswith_app. reflexivity.
  - cbn [rest advance]. rewrite drop_app_length. split; [done|].
    unfold group. cbn [grps group_in Nat.eqb].
    rewrite !length_app.
    replace (_ - _) with (length body) by lia.
    by rewrite take_app_length.
Qed.

Lemma space_not_tag ws :
  Forall (fun c => is_space c = true) ws -> "<"%char ∉ ws.
Proof.
  intros Hws Hin. rewrite Forall_forall in Hws. by apply Hws in Hin.
Qed.

(** Text with two tags in which [r] finds nothing. *)
Lemma sub_from_two_tags r repl pv pre seg1 seg2 :
  tag_led r -> "<"%char ∉ pre -> "<"%char ∉ seg1 -> "<"%char ∉ seg2 ->
  (forall pv', match_at r pv' ("<"%char :: seg1 ++ "<"%char :: seg2) = None) ->
  (forall pv', match_at r pv' ("<"%char :: seg2) = None) ->
  sub_from r repl pv 0 (pre ++ "<"%char :: seg1 ++ "<"%char :: seg2)
  = pre ++ "<"%char :: seg1 ++ "<"%char :: seg2.
Proof.
  intros Hled Hpre Hseg1 Hseg2 Hfirst Hsecond.
  rewrite (sub_from_tagless_prefix _ _ _ pre) by done. f_equal.
  rewrite sub_from_miss by apply Hfirst. f_equal.
  rewrite (sub_from_tagless_prefix _ _ _ seg1) by done. f_equal.
  rewrite sub_from_miss by apply Hsecond. f_equal.
  by apply sub_from_tagless.
Qed.

Lemma block_text (tag : string) mid post :
  (lit "<" ++ lit tag ++ lit ">") ++ mid ++ (lit "</" ++ lit tag ++ lit ">") ++ post
  = "<"%char :: (lit tag ++ lit ">" ++ mid)
    ++ "<"%char :: ("/"%char :: lit tag ++ lit ">" ++ post).
Proof.
  change (lit "<") with ["<"%char]. change (lit "</") with ["<"%char; "/"%char].
  cbn [app]. by rewrite <- !app_assoc.
Qed.

(** A block of another tag is left alone. *)
Lemma sub_from_block_other (other tag : string) repl pv pre mid post :
  (forall pv' s, match_at (block_re other) pv' ("<"%char :: lit tag ++ s) = None) ->
  (forall pv' s, match_at (block_re other) pv' ("<"%char :: "/"%char :: s) = None) ->
  "<"%char ∉ pre -> "<"%char ∉ lit tag -> "<"%char ∉ mid -> "<"%char ∉ post ->
  sub_from (block_re other) repl pv 0
    (pre ++ (lit "<" ++ lit tag ++ lit ">") ++ mid
     ++ (lit "</" ++ lit tag ++ lit ">") ++ post)
  = pre ++ (lit "<" ++ lit tag ++ lit ">") ++ mid
    ++ (lit "</" ++ lit tag ++ lit ">") ++ post.
Proof.
  intros Hopen Hclose Hpre Htag Hmid Hpost. rewrite block_text.
  apply sub_from_two_tags.
  - apply tag_led_block_re.
  - done.
  - rewrite !not_elem_of_app. split; [done|]. split; [notin_lit|done].
  - rewrite not_elem_of_cons, !not_elem_of_app.
    split; [done|]. split; [done|]. split; [notin_lit|done].
  - intros pv'. rewrite <- app_assoc. apply Hopen.
  - intros pv'. apply Hclose.
Qed.

(** The block becomes a quotation. *)
Lemma sub_from_block (tag : string) pv pre ws1 body ws2 post :
  Forall (fun c => is_space c = true) ws1 ->
  Forall (fun c => is_space c = true) ws2 ->
  body <> [] -> py_strip body = body ->
  "<"%char ∉ pre -> "<"%char ∉ body -> "<"%char ∉ post ->
  sub_from (block_re tag) (blockquote tag) pv 0
    (pre ++ (lit "<" ++ lit tag ++ lit ">") ++ (ws1 ++ body ++ ws2)
     ++ (lit "</" ++ lit tag ++ lit ">") ++ post)
  = pre ++ (lit "> **" ++ lit tag ++ lit ":** " ++ body) ++ post.
Proof.
  intros Hws1 Hws2 Hne Hstrip Hpre Hbody Hpost.
  pose proof (tag_led_block_re tag) as Hled.
  rewrite (sub_from_tagless_prefix _ _ _ pre) by done. f_equal.
  destruct (match_at_block tag (prev_after pv pre) ws1 body ws2 post)
    as (st & Hmatch & Hrest & Hgroup); try done.
  rewrite <- !app_assoc in Hmatch.
  replace ((lit "<" ++ lit tag ++ lit ">") ++ (ws1 ++ body ++ ws2)
           ++ (lit "</" ++ lit tag ++ lit ">") ++ post)
    with (((lit "<" ++ lit tag ++ lit ">") ++ ws1 ++ body ++ ws2
           ++ lit "</" ++ lit tag ++ lit ">") ++ post)
    by (by rewrite <- !app_assoc).
  rewrite (sub_from_match _ _ _ _ _ st); [|done| |done].
  - unfold blockquote. rewrite Hgroup. f_equal. by apply sub_from_tagless.
  - by rewrite <- !app_assoc.
Qed.

(** The steps of [clean_mdx_content] that look for tags leave text
    without tags alone. *)
Ltac tagless_steps Htag :=
  rewrite ?(sub_from_tagless _ _ _ _ (tag_led_block_re _) Htag),
          ?(sub_from_tagless _ _ _ _ (tag_led_wrapper_re _) Htag),
          ?(sub_from_tagless _ _ _ _ tag_led_tab_re Htag),
          ?(sub_from_tagless _ _ _ _ tag_led_tab_close Htag),
          ?(sub_from_tagless _ _ _ _ (tag_led_wrapper_re _) Htag),
          ?(sub_from_tagless _ _ _ _ tag_led_card_re Htag),
          ?(sub_from_tagless _ _ _ _ (tag_led_block_re _) Htag),
          ?(sub_from_tagless _ _ _ _ tag_led_self_closing_re Htag).

(** X25. A [Warning], [Note] or [Tip] block becomes its body behind the
    quotation mark and the bold tag name: the tags and the blanks after
    the opening tag and before the closing tag are dropped, the body is
    copied as it is (so of a body of several lines only the first is
    quoted), and the text around the block is kept.  The block stands in
    text without other tags, its body is not empty and has no blank at
    either end, and no line starts with [export]. *)
Theorem clean_mdx_content_callout (tag : string) (pre ws1 body ws2 post : str) :
  tag = "Warning"%string \/ tag = "Note"%string \/ tag = "Tip"%string ->
  Forall (fun c => is_space c = true) ws1 ->
  Forall (fun c => is_space c = true) ws2 ->
  body <> [] -> py_strip body = body ->
  no_line_starts (lit "export") true
    (pre ++ (lit "<" ++ lit tag ++ lit ">") ++ (ws1 ++ body ++ ws2)
     ++ (lit "</" ++ lit tag ++ lit ">") ++ post) ->
  plain (pre ++ (lit "> **" ++ lit tag ++ lit ":** " ++ body) ++ post) ->
  clean_mdx_content
    (pre ++ (lit "<" ++ lit tag ++ lit ">") ++ (ws1 ++ body ++ ws2)
     ++ (lit "</" ++ lit tag ++ lit ">") ++ post)
  = py_strip (pre ++ (lit "> **" ++ lit tag ++ lit ":** " ++ body) ++ post).
Proof.
  intros Htag Hws1 Hws2 Hne Hstrip Hexp (Hq & _ & Himp & Hfour).
  assert (Hparts : ("<"%char ∉ pre) /\ ("<"%char ∉ body) /\ ("<"%char ∉ post)).
  { revert Hq. rewrite !not_elem_of_app. tauto. }
  destruct Hparts as (Hpre & Hbody & Hpost).
  assert (Hmid : "<"%char ∉ ws1 ++ body ++ ws2).
  { rewrite !not_elem_of_app. by split; [apply space_not_tag|split;
      [|apply space_not_tag]]. }
  unfold clean_mdx_content, clean_steps. cbn [fold_left].
  rewrite (remove_export_components_none _ Hexp). unfold re_sub.
  destruct Htag as [-> | [-> | ->]].
  - rewrite sub_from_block by done. tagless_steps Hq.
    rewrite (import_sub_none _ None Himp).
    by rewrite (blank_lines_sub_none _ None (no_four_short_runs _ Hfour)).
  - rewrite (sub_from_block_other "Warning" "Note") by (done || notin_lit).
    rewrite sub_from_block by done. tagless_steps Hq.
    rewrite (import_sub_none _ None Himp).
    by rewrite (blank_lines_sub_none _ None (no_four_short_runs _ Hfour)).
  - rewrite (sub_from_block_other "Warning" "Tip") by (done || notin_lit).
    rewrite (sub_from_block_other "Note" "Tip") by (done || notin_lit).
    rewrite sub_from_block by done. tagless_steps Hq.
    rewrite (import_sub_none _ None Himp).
    by rewrite (blank_lines_sub_none _ None (no_four_short_runs _ Hfour)).
Qed.

Lemma clean_mdx_content_callout_witness :
  clean_mdx_content
    (lit "Intro." ++ nl ++ lit "<Note>" ++ nl ++ lit "  Be careful." ++ nl
     ++ lit "</Note>" ++ nl ++ lit "Bye.")
  = lit "Intro." ++ nl ++ lit "> **Note:** Be careful." ++ nl ++ lit "Bye.".
Proof.
  refine (clean_mdx_content_callout "Note" (lit "Intro." ++ nl)
            (nl ++ lit "  ") (lit "Be careful.") nl (nl ++ lit "Bye.")
            _ _ _ _ _ _ _).
  - right. left. reflexivity.
  - repeat (apply List.Forall_cons; [reflexivity|]). apply List.Forall_nil.
  - repeat (apply List.Forall_cons; [reflexivity|]). apply List.Forall_nil.
  - discriminate.
  - reflexivity.
  - cbn; repeat split; intros; try reflexivity; discriminate.
  - split; [notin_lit|].
    split; [cbn; repeat split; intros; try reflexivity; discriminate|].
    split; [cbn; repeat split; intros; try reflexivity; discriminate|].
    reflexivity.
Defined.
